(** * The resume-upload endpoint and its client hook

    A shallow embedding of [src/app/api/upload-resume/route.ts] (the [POST]
    handler) and of the [useFileUpload] hook that posts files to it.

    The handler talks to three collaborators that are outside the
    repository: the process environment (the API credential), the
    document-conversion library [mammoth] and the generative model.  They are
    gathered in a record [world] of oracles; the handler is a function of a
    [world] and a request and yields a completion together with the trace of
    the external calls it made.

    The host language's own operations are modelled concretely: strings are
    sequences of UTF-16 code units, [Buffer.toString('utf-8')] is the UTF-8
    decoder, regular expressions are run by a backtracking matcher with
    JavaScript's priorities, [toLowerCase] is the case mapping of the
    Unicode Character Database, [JSON.parse] is a parser of the JSON grammar
    and numbers are IEEE 754 doubles. *)

From Stdlib Require Import ZArith NArith List String Ascii Bool Arith Lia Permutation.
From Stdlib Require Floats.SpecFloat.
From Stdlib.Strings Require Import Byte.
Import ListNotations.

#[local] Set Warnings "-register-all".


Local Open Scope N_scope.
Local Open Scope list_scope.

(* ================================================================== *)
(** * JavaScript strings *)
(* ================================================================== *)

Module Str.

(** A string is the list of its UTF-16 code units. *)
Definition jstr := list N.

(** A [Buffer] is a list of bytes. *)
Definition buffer := list byte.

(** ** [Buffer.toString('utf-8')]

    The decoder of the Encoding Standard, as Node applies it to a buffer:
    an ill-formed sequence gives U+FFFD per maximal subpart, and a byte that
    cannot continue a sequence is read again as the start of the next one.
    No byte-order mark is stripped. *)

Record pending := mkPending {
  code_point : N;
  bytes_needed : N;
  lower_boundary : N;
  upper_boundary : N }.

Definition replacement : N := 0xFFFD.

(** A scalar value as one code unit or as a surrogate pair. *)
Definition utf16 (cp : N) : jstr :=
  if cp <? 0x10000 then [cp]
  else [0xD800 + N.shiftr (cp - 0x10000) 10;
        0xDC00 + N.land (cp - 0x10000) 0x3FF].

(** A byte read while no sequence is pending. *)
Definition lead (b : N) : jstr * option pending :=
  if b <=? 0x7F then ([b], None)
  else if (0xC2 <=? b) && (b <=? 0xDF)
       then ([], Some (mkPending (N.land b 0x1F) 1 0x80 0xBF))
  else if (0xE0 <=? b) && (b <=? 0xEF)
       then ([], Some (mkPending (N.land b 0xF) 2
                         (if b =? 0xE0 then 0xA0 else 0x80)
                         (if b =? 0xED then 0x9F else 0xBF)))
  else if (0xF0 <=? b) && (b <=? 0xF4)
       then ([], Some (mkPending (N.land b 0x7) 3
                         (if b =? 0xF0 then 0x90 else 0x80)
                         (if b =? 0xF4 then 0x8F else 0xBF)))
  else ([replacement], None).

Fixpoint decode (st : option pending) (bs : list N) : jstr :=
  match bs with
  | [] => match st with None => [] | Some _ => [replacement] end
  | b :: rest =>
      match st with
      | None => let (out, st') := lead b in out ++ decode st' rest
      | Some p =>
          if (lower_boundary p <=? b) && (b <=? upper_boundary p) then
            let cp := N.lor (N.shiftl (code_point p) 6) (N.land b 0x3F) in
            if bytes_needed p =? 1 then utf16 cp ++ decode None rest
            else decode (Some (mkPending cp (bytes_needed p - 1) 0x80 0xBF)) rest
          else
            let (out, st') := lead b in
            replacement :: out ++ decode st' rest
      end
  end.

Definition toString_utf8 (b : buffer) : jstr :=
  decode None (map Byte.to_N b).

(** String literals of the source are written as Rocq strings (their bytes
    are the UTF-8 encoding of the text) and read through the same decoder. *)
Definition js (s : string) : jstr := toString_utf8 (list_byte_of_string s).

(** The double quote and the new line, which Rocq literals do not spell. *)
Definition dquote : jstr := [34].
Definition nl : jstr := [10].

(** ** [Buffer.toString('base64')] *)

Definition base64_digit (n : N) : N :=
  if n <? 26 then 65 + n
  else if n <? 52 then 97 + (n - 26)
  else if n <? 62 then 48 + (n - 52)
  else if n =? 62 then 43 else 47.

Fixpoint base64 (bs : list N) : jstr :=
  match bs with
  | [] => []
  | [a] => [base64_digit (a / 4); base64_digit ((a mod 4) * 16); 61; 61]
  | [a; b] => [base64_digit (a / 4); base64_digit ((a mod 4) * 16 + b / 16);
               base64_digit ((b mod 16) * 4); 61]
  | a :: b :: c :: rest =>
      base64_digit (a / 4) :: base64_digit ((a mod 4) * 16 + b / 16)
      :: base64_digit ((b mod 16) * 4 + c / 64) :: base64_digit (c mod 64)
      :: base64 rest
  end.

Definition toString_base64 (b : buffer) : jstr := base64 (map Byte.to_N b).

(** ** Comparison, search and slicing *)

Fixpoint eqb (a b : jstr) : bool :=
  match a, b with
  | [], [] => true
  | x :: a', y :: b' => (x =? y) && eqb a' b'
  | _, _ => false
  end.

(** [s.startsWith(p)] *)
Fixpoint startsWith (s p : jstr) {struct p} : bool :=
  match p, s with
  | [], _ => true
  | x :: p', y :: s' => (x =? y) && startsWith s' p'
  | _ :: _, [] => false
  end.

(** [s.includes(p)] *)
Fixpoint includes (s p : jstr) : bool :=
  startsWith s p ||
  match s with
  | [] => false
  | _ :: s' => includes s' p
  end.

(** [list.includes(s)] on an array of strings. *)
Definition array_includes (l : list jstr) (s : jstr) : bool :=
  existsb (eqb s) l.

(** [s.substring(0, n)] *)
Definition substring0 (n : nat) (s : jstr) : jstr := firstn n s.

(** ** [s.toLowerCase()]

    The language lower-cases the code points of the string by the
    locale-insensitive mappings of the Unicode Character Database: the
    simple mappings of [UnicodeData.txt] and the two of [SpecialCasing.txt]
    that hold in every locale, U+0130 to U+0069 U+0307 and, in the
    Final_Sigma context, U+03A3 to U+03C2.  The tables are those of
    version 14.0 of the database. *)

(** The code points of a string: a surrogate pair is one code point, a
    surrogate without its partner is a code point of its own. *)
Fixpoint code_points (s : jstr) : list N :=
  match s with
  | [] => []
  | hi :: rest =>
      match rest with
      | lo :: rest' =>
          if (0xD800 <=? hi) && (hi <=? 0xDBFF) && (0xDC00 <=? lo) && (lo <=? 0xDFFF)
          then (0x10000 + (hi - 0xD800) * 0x400 + (lo - 0xDC00)) :: code_points rest'
          else hi :: code_points rest
      | [] => [hi]
      end
  end.

(** The simple lower-case mappings, as runs [(first, last, stride, target)]
    in ascending order: the code points [first], [first + stride], ... up to
    [last] map to [target], [target + stride], ... *)
Definition lower_ranges : list (N * N * N * N) :=
  [ (0x41, 0x5A, 1, 0x61); (0xC0, 0xD6, 1, 0xE0); (0xD8, 0xDE, 1, 0xF8);
    (0x100, 0x12E, 2, 0x101); (0x132, 0x136, 2, 0x133); (0x139, 0x147, 2, 0x13A);
    (0x14A, 0x176, 2, 0x14B); (0x178, 0x178, 1, 0xFF); (0x179, 0x17D, 2, 0x17A);
    (0x181, 0x181, 1, 0x253); (0x182, 0x184, 2, 0x183); (0x186, 0x186, 1, 0x254);
    (0x187, 0x187, 1, 0x188); (0x189, 0x18A, 1, 0x256); (0x18B, 0x18B, 1, 0x18C);
    (0x18E, 0x18E, 1, 0x1DD); (0x18F, 0x18F, 1, 0x259); (0x190, 0x190, 1, 0x25B);
    (0x191, 0x191, 1, 0x192); (0x193, 0x193, 1, 0x260); (0x194, 0x194, 1, 0x263);
    (0x196, 0x196, 1, 0x269); (0x197, 0x197, 1, 0x268); (0x198, 0x198, 1, 0x199);
    (0x19C, 0x19C, 1, 0x26F); (0x19D, 0x19D, 1, 0x272); (0x19F, 0x19F, 1, 0x275);
    (0x1A0, 0x1A4, 2, 0x1A1); (0x1A6, 0x1A6, 1, 0x280); (0x1A7, 0x1A7, 1, 0x1A8);
    (0x1A9, 0x1A9, 1, 0x283); (0x1AC, 0x1AC, 1, 0x1AD); (0x1AE, 0x1AE, 1, 0x288);
    (0x1AF, 0x1AF, 1, 0x1B0); (0x1B1, 0x1B2, 1, 0x28A); (0x1B3, 0x1B5, 2, 0x1B4);
    (0x1B7, 0x1B7, 1, 0x292); (0x1B8, 0x1B8, 1, 0x1B9); (0x1BC, 0x1BC, 1, 0x1BD);
    (0x1C4, 0x1C4, 1, 0x1C6); (0x1C5, 0x1C5, 1, 0x1C6); (0x1C7, 0x1C7, 1, 0x1C9);
    (0x1C8, 0x1C8, 1, 0x1C9); (0x1CA, 0x1CA, 1, 0x1CC); (0x1CB, 0x1DB, 2, 0x1CC);
    (0x1DE, 0x1EE, 2, 0x1DF); (0x1F1, 0x1F1, 1, 0x1F3); (0x1F2, 0x1F4, 2, 0x1F3);
    (0x1F6, 0x1F6, 1, 0x195); (0x1F7, 0x1F7, 1, 0x1BF); (0x1F8, 0x21E, 2, 0x1F9);
    (0x220, 0x220, 1, 0x19E); (0x222, 0x232, 2, 0x223); (0x23A, 0x23A, 1, 0x2C65);
    (0x23B, 0x23B, 1, 0x23C); (0x23D, 0x23D, 1, 0x19A); (0x23E, 0x23E, 1, 0x2C66);
    (0x241, 0x241, 1, 0x242); (0x243, 0x243, 1, 0x180); (0x244, 0x244, 1, 0x289);
    (0x245, 0x245, 1, 0x28C); (0x246, 0x24E, 2, 0x247); (0x370, 0x372, 2, 0x371);
    (0x376, 0x376, 1, 0x377); (0x37F, 0x37F, 1, 0x3F3); (0x386, 0x386, 1, 0x3AC);
    (0x388, 0x38A, 1, 0x3AD); (0x38C, 0x38C, 1, 0x3CC); (0x38E, 0x38F, 1, 0x3CD);
    (0x391, 0x3A1, 1, 0x3B1); (0x3A3, 0x3AB, 1, 0x3C3); (0x3CF, 0x3CF, 1, 0x3D7);
    (0x3D8, 0x3EE, 2, 0x3D9); (0x3F4, 0x3F4, 1, 0x3B8); (0x3F7, 0x3F7, 1, 0x3F8);
    (0x3F9, 0x3F9, 1, 0x3F2); (0x3FA, 0x3FA, 1, 0x3FB); (0x3FD, 0x3FF, 1, 0x37B);
    (0x400, 0x40F, 1, 0x450); (0x410, 0x42F, 1, 0x430); (0x460, 0x480, 2, 0x461);
    (0x48A, 0x4BE, 2, 0x48B); (0x4C0, 0x4C0, 1, 0x4CF); (0x4C1, 0x4CD, 2, 0x4C2);
    (0x4D0, 0x52E, 2, 0x4D1); (0x531, 0x556, 1, 0x561); (0x10A0, 0x10C5, 1, 0x2D00);
    (0x10C7, 0x10C7, 1, 0x2D27); (0x10CD, 0x10CD, 1, 0x2D2D);
    (0x13A0, 0x13EF, 1, 0xAB70); (0x13F0, 0x13F5, 1, 0x13F8);
    (0x1C90, 0x1CBA, 1, 0x10D0); (0x1CBD, 0x1CBF, 1, 0x10FD);
    (0x1E00, 0x1E94, 2, 0x1E01); (0x1E9E, 0x1E9E, 1, 0xDF);
    (0x1EA0, 0x1EFE, 2, 0x1EA1); (0x1F08, 0x1F0F, 1, 0x1F00);
    (0x1F18, 0x1F1D, 1, 0x1F10); (0x1F28, 0x1F2F, 1, 0x1F20);
    (0x1F38, 0x1F3F, 1, 0x1F30); (0x1F48, 0x1F4D, 1, 0x1F40);
    (0x1F59, 0x1F5F, 2, 0x1F51); (0x1F68, 0x1F6F, 1, 0x1F60);
    (0x1F88, 0x1F8F, 1, 0x1F80); (0x1F98, 0x1F9F, 1, 0x1F90);
    (0x1FA8, 0x1FAF, 1, 0x1FA0); (0x1FB8, 0x1FB9, 1, 0x1FB0);
    (0x1FBA, 0x1FBB, 1, 0x1F70); (0x1FBC, 0x1FBC, 1, 0x1FB3);
    (0x1FC8, 0x1FCB, 1, 0x1F72); (0x1FCC, 0x1FCC, 1, 0x1FC3);
    (0x1FD8, 0x1FD9, 1, 0x1FD0); (0x1FDA, 0x1FDB, 1, 0x1F76);
    (0x1FE8, 0x1FE9, 1, 0x1FE0); (0x1FEA, 0x1FEB, 1, 0x1F7A);
    (0x1FEC, 0x1FEC, 1, 0x1FE5); (0x1FF8, 0x1FF9, 1, 0x1F78);
    (0x1FFA, 0x1FFB, 1, 0x1F7C); (0x1FFC, 0x1FFC, 1, 0x1FF3);
    (0x2126, 0x2126, 1, 0x3C9); (0x212A, 0x212A, 1, 0x6B); (0x212B, 0x212B, 1, 0xE5);
    (0x2132, 0x2132, 1, 0x214E); (0x2160, 0x216F, 1, 0x2170);
    (0x2183, 0x2183, 1, 0x2184); (0x24B6, 0x24CF, 1, 0x24D0);
    (0x2C00, 0x2C2F, 1, 0x2C30); (0x2C60, 0x2C60, 1, 0x2C61);
    (0x2C62, 0x2C62, 1, 0x26B); (0x2C63, 0x2C63, 1, 0x1D7D);
    (0x2C64, 0x2C64, 1, 0x27D); (0x2C67, 0x2C6B, 2, 0x2C68);
    (0x2C6D, 0x2C6D, 1, 0x251); (0x2C6E, 0x2C6E, 1, 0x271);
    (0x2C6F, 0x2C6F, 1, 0x250); (0x2C70, 0x2C70, 1, 0x252);
    (0x2C72, 0x2C72, 1, 0x2C73); (0x2C75, 0x2C75, 1, 0x2C76);
    (0x2C7E, 0x2C7F, 1, 0x23F); (0x2C80, 0x2CE2, 2, 0x2C81);
    (0x2CEB, 0x2CED, 2, 0x2CEC); (0x2CF2, 0x2CF2, 1, 0x2CF3);
    (0xA640, 0xA66C, 2, 0xA641); (0xA680, 0xA69A, 2, 0xA681);
    (0xA722, 0xA72E, 2, 0xA723); (0xA732, 0xA76E, 2, 0xA733);
    (0xA779, 0xA77B, 2, 0xA77A); (0xA77D, 0xA77D, 1, 0x1D79);
    (0xA77E, 0xA786, 2, 0xA77F); (0xA78B, 0xA78B, 1, 0xA78C);
    (0xA78D, 0xA78D, 1, 0x265); (0xA790, 0xA792, 2, 0xA791);
    (0xA796, 0xA7A8, 2, 0xA797); (0xA7AA, 0xA7AA, 1, 0x266);
    (0xA7AB, 0xA7AB, 1, 0x25C); (0xA7AC, 0xA7AC, 1, 0x261);
    (0xA7AD, 0xA7AD, 1, 0x26C); (0xA7AE, 0xA7AE, 1, 0x26A);
    (0xA7B0, 0xA7B0, 1, 0x29E); (0xA7B1, 0xA7B1, 1, 0x287);
    (0xA7B2, 0xA7B2, 1, 0x29D); (0xA7B3, 0xA7B3, 1, 0xAB53);
    (0xA7B4, 0xA7C2, 2, 0xA7B5); (0xA7C4, 0xA7C4, 1, 0xA794);
    (0xA7C5, 0xA7C5, 1, 0x282); (0xA7C6, 0xA7C6, 1, 0x1D8E);
    (0xA7C7, 0xA7C9, 2, 0xA7C8); (0xA7D0, 0xA7D0, 1, 0xA7D1);
    (0xA7D6, 0xA7D8, 2, 0xA7D7); (0xA7F5, 0xA7F5, 1, 0xA7F6);
    (0xFF21, 0xFF3A, 1, 0xFF41); (0x10400, 0x10427, 1, 0x10428);
    (0x104B0, 0x104D3, 1, 0x104D8); (0x10570, 0x1057A, 1, 0x10597);
    (0x1057C, 0x1058A, 1, 0x105A3); (0x1058C, 0x10592, 1, 0x105B3);
    (0x10594, 0x10595, 1, 0x105BB); (0x10C80, 0x10CB2, 1, 0x10CC0);
    (0x118A0, 0x118BF, 1, 0x118C0); (0x16E40, 0x16E5F, 1, 0x16E60);
    (0x1E900, 0x1E921, 1, 0x1E922) ].

(** The code points with the property Cased, and those with the property
    Case_Ignorable, as ranges in ascending order. *)
Definition cased_ranges : list (N * N) :=
  [ (0x41, 0x5A); (0x61, 0x7A); (0xAA, 0xAA); (0xB5, 0xB5); (0xBA, 0xBA);
    (0xC0, 0xD6); (0xD8, 0xF6); (0xF8, 0x1BA); (0x1BC, 0x1BF); (0x1C4, 0x293);
    (0x295, 0x2B8); (0x2C0, 0x2C1); (0x2E0, 0x2E4); (0x345, 0x345); (0x370, 0x373);
    (0x376, 0x377); (0x37A, 0x37D); (0x37F, 0x37F); (0x386, 0x386); (0x388, 0x38A);
    (0x38C, 0x38C); (0x38E, 0x3A1); (0x3A3, 0x3F5); (0x3F7, 0x481); (0x48A, 0x52F);
    (0x531, 0x556); (0x560, 0x588); (0x10A0, 0x10C5); (0x10C7, 0x10C7);
    (0x10CD, 0x10CD); (0x10D0, 0x10FA); (0x10FD, 0x10FF); (0x13A0, 0x13F5);
    (0x13F8, 0x13FD); (0x1C80, 0x1C88); (0x1C90, 0x1CBA); (0x1CBD, 0x1CBF);
    (0x1D00, 0x1DBF); (0x1E00, 0x1F15); (0x1F18, 0x1F1D); (0x1F20, 0x1F45);
    (0x1F48, 0x1F4D); (0x1F50, 0x1F57); (0x1F59, 0x1F59); (0x1F5B, 0x1F5B);
    (0x1F5D, 0x1F5D); (0x1F5F, 0x1F7D); (0x1F80, 0x1FB4); (0x1FB6, 0x1FBC);
    (0x1FBE, 0x1FBE); (0x1FC2, 0x1FC4); (0x1FC6, 0x1FCC); (0x1FD0, 0x1FD3);
    (0x1FD6, 0x1FDB); (0x1FE0, 0x1FEC); (0x1FF2, 0x1FF4); (0x1FF6, 0x1FFC);
    (0x2071, 0x2071); (0x207F, 0x207F); (0x2090, 0x209C); (0x2102, 0x2102);
    (0x2107, 0x2107); (0x210A, 0x2113); (0x2115, 0x2115); (0x2119, 0x211D);
    (0x2124, 0x2124); (0x2126, 0x2126); (0x2128, 0x2128); (0x212A, 0x212D);
    (0x212F, 0x2134); (0x2139, 0x2139); (0x213C, 0x213F); (0x2145, 0x2149);
    (0x214E, 0x214E); (0x2160, 0x217F); (0x2183, 0x2184); (0x24B6, 0x24E9);
    (0x2C00, 0x2CE4); (0x2CEB, 0x2CEE); (0x2CF2, 0x2CF3); (0x2D00, 0x2D25);
    (0x2D27, 0x2D27); (0x2D2D, 0x2D2D); (0xA640, 0xA66D); (0xA680, 0xA69D);
    (0xA722, 0xA787); (0xA78B, 0xA78E); (0xA790, 0xA7CA); (0xA7D0, 0xA7D1);
    (0xA7D3, 0xA7D3); (0xA7D5, 0xA7D9); (0xA7F5, 0xA7F6); (0xA7F8, 0xA7FA);
    (0xAB30, 0xAB5A); (0xAB5C, 0xAB68); (0xAB70, 0xABBF); (0xFB00, 0xFB06);
    (0xFB13, 0xFB17); (0xFF21, 0xFF3A); (0xFF41, 0xFF5A); (0x10400, 0x1044F);
    (0x104B0, 0x104D3); (0x104D8, 0x104FB); (0x10570, 0x1057A); (0x1057C, 0x1058A);
    (0x1058C, 0x10592); (0x10594, 0x10595); (0x10597, 0x105A1); (0x105A3, 0x105B1);
    (0x105B3, 0x105B9); (0x105BB, 0x105BC); (0x10780, 0x10780); (0x10783, 0x10785);
    (0x10787, 0x107B0); (0x107B2, 0x107BA); (0x10C80, 0x10CB2); (0x10CC0, 0x10CF2);
    (0x118A0, 0x118DF); (0x16E40, 0x16E7F); (0x1D400, 0x1D454); (0x1D456, 0x1D49C);
    (0x1D49E, 0x1D49F); (0x1D4A2, 0x1D4A2); (0x1D4A5, 0x1D4A6); (0x1D4A9, 0x1D4AC);
    (0x1D4AE, 0x1D4B9); (0x1D4BB, 0x1D4BB); (0x1D4BD, 0x1D4C3); (0x1D4C5, 0x1D505);
    (0x1D507, 0x1D50A); (0x1D50D, 0x1D514); (0x1D516, 0x1D51C); (0x1D51E, 0x1D539);
    (0x1D53B, 0x1D53E); (0x1D540, 0x1D544); (0x1D546, 0x1D546); (0x1D54A, 0x1D550);
    (0x1D552, 0x1D6A5); (0x1D6A8, 0x1D6C0); (0x1D6C2, 0x1D6DA); (0x1D6DC, 0x1D6FA);
    (0x1D6FC, 0x1D714); (0x1D716, 0x1D734); (0x1D736, 0x1D74E); (0x1D750, 0x1D76E);
    (0x1D770, 0x1D788); (0x1D78A, 0x1D7A8); (0x1D7AA, 0x1D7C2); (0x1D7C4, 0x1D7CB);
    (0x1DF00, 0x1DF09); (0x1DF0B, 0x1DF1E); (0x1E900, 0x1E943); (0x1F130, 0x1F149);
    (0x1F150, 0x1F169); (0x1F170, 0x1F189) ].

Definition case_ignorable_ranges : list (N * N) :=
  [ (0x27, 0x27); (0x2E, 0x2E); (0x3A, 0x3A); (0x5E, 0x5E); (0x60, 0x60);
    (0xA8, 0xA8); (0xAD, 0xAD); (0xAF, 0xAF); (0xB4, 0xB4); (0xB7, 0xB8);
    (0x2B0, 0x36F); (0x374, 0x375); (0x37A, 0x37A); (0x384, 0x385); (0x387, 0x387);
    (0x483, 0x489); (0x559, 0x559); (0x55F, 0x55F); (0x591, 0x5BD); (0x5BF, 0x5BF);
    (0x5C1, 0x5C2); (0x5C4, 0x5C5); (0x5C7, 0x5C7); (0x5F4, 0x5F4); (0x600, 0x605);
    (0x610, 0x61A); (0x61C, 0x61C); (0x640, 0x640); (0x64B, 0x65F); (0x670, 0x670);
    (0x6D6, 0x6DD); (0x6DF, 0x6E8); (0x6EA, 0x6ED); (0x70F, 0x70F); (0x711, 0x711);
    (0x730, 0x74A); (0x7A6, 0x7B0); (0x7EB, 0x7F5); (0x7FA, 0x7FA); (0x7FD, 0x7FD);
    (0x816, 0x82D); (0x859, 0x85B); (0x888, 0x888); (0x890, 0x891); (0x898, 0x89F);
    (0x8C9, 0x902); (0x93A, 0x93A); (0x93C, 0x93C); (0x941, 0x948); (0x94D, 0x94D);
    (0x951, 0x957); (0x962, 0x963); (0x971, 0x971); (0x981, 0x981); (0x9BC, 0x9BC);
    (0x9C1, 0x9C4); (0x9CD, 0x9CD); (0x9E2, 0x9E3); (0x9FE, 0x9FE); (0xA01, 0xA02);
    (0xA3C, 0xA3C); (0xA41, 0xA42); (0xA47, 0xA48); (0xA4B, 0xA4D); (0xA51, 0xA51);
    (0xA70, 0xA71); (0xA75, 0xA75); (0xA81, 0xA82); (0xABC, 0xABC); (0xAC1, 0xAC5);
    (0xAC7, 0xAC8); (0xACD, 0xACD); (0xAE2, 0xAE3); (0xAFA, 0xAFF); (0xB01, 0xB01);
    (0xB3C, 0xB3C); (0xB3F, 0xB3F); (0xB41, 0xB44); (0xB4D, 0xB4D); (0xB55, 0xB56);
    (0xB62, 0xB63); (0xB82, 0xB82); (0xBC0, 0xBC0); (0xBCD, 0xBCD); (0xC00, 0xC00);
    (0xC04, 0xC04); (0xC3C, 0xC3C); (0xC3E, 0xC40); (0xC46, 0xC48); (0xC4A, 0xC4D);
    (0xC55, 0xC56); (0xC62, 0xC63); (0xC81, 0xC81); (0xCBC, 0xCBC); (0xCBF, 0xCBF);
    (0xCC6, 0xCC6); (0xCCC, 0xCCD); (0xCE2, 0xCE3); (0xD00, 0xD01); (0xD3B, 0xD3C);
    (0xD41, 0xD44); (0xD4D, 0xD4D); (0xD62, 0xD63); (0xD81, 0xD81); (0xDCA, 0xDCA);
    (0xDD2, 0xDD4); (0xDD6, 0xDD6); (0xE31, 0xE31); (0xE34, 0xE3A); (0xE46, 0xE4E);
    (0xEB1, 0xEB1); (0xEB4, 0xEBC); (0xEC6, 0xEC6); (0xEC8, 0xECD); (0xF18, 0xF19);
    (0xF35, 0xF35); (0xF37, 0xF37); (0xF39, 0xF39); (0xF71, 0xF7E); (0xF80, 0xF84);
    (0xF86, 0xF87); (0xF8D, 0xF97); (0xF99, 0xFBC); (0xFC6, 0xFC6); (0x102D, 0x1030);
    (0x1032, 0x1037); (0x1039, 0x103A); (0x103D, 0x103E); (0x1058, 0x1059);
    (0x105E, 0x1060); (0x1071, 0x1074); (0x1082, 0x1082); (0x1085, 0x1086);
    (0x108D, 0x108D); (0x109D, 0x109D); (0x10FC, 0x10FC); (0x135D, 0x135F);
    (0x1712, 0x1714); (0x1732, 0x1733); (0x1752, 0x1753); (0x1772, 0x1773);
    (0x17B4, 0x17B5); (0x17B7, 0x17BD); (0x17C6, 0x17C6); (0x17C9, 0x17D3);
    (0x17D7, 0x17D7); (0x17DD, 0x17DD); (0x180B, 0x180F); (0x1843, 0x1843);
    (0x1885, 0x1886); (0x18A9, 0x18A9); (0x1920, 0x1922); (0x1927, 0x1928);
    (0x1932, 0x1932); (0x1939, 0x193B); (0x1A17, 0x1A18); (0x1A1B, 0x1A1B);
    (0x1A56, 0x1A56); (0x1A58, 0x1A5E); (0x1A60, 0x1A60); (0x1A62, 0x1A62);
    (0x1A65, 0x1A6C); (0x1A73, 0x1A7C); (0x1A7F, 0x1A7F); (0x1AA7, 0x1AA7);
    (0x1AB0, 0x1ACE); (0x1B00, 0x1B03); (0x1B34, 0x1B34); (0x1B36, 0x1B3A);
    (0x1B3C, 0x1B3C); (0x1B42, 0x1B42); (0x1B6B, 0x1B73); (0x1B80, 0x1B81);
    (0x1BA2, 0x1BA5); (0x1BA8, 0x1BA9); (0x1BAB, 0x1BAD); (0x1BE6, 0x1BE6);
    (0x1BE8, 0x1BE9); (0x1BED, 0x1BED); (0x1BEF, 0x1BF1); (0x1C2C, 0x1C33);
    (0x1C36, 0x1C37); (0x1C78, 0x1C7D); (0x1CD0, 0x1CD2); (0x1CD4, 0x1CE0);
    (0x1CE2, 0x1CE8); (0x1CED, 0x1CED); (0x1CF4, 0x1CF4); (0x1CF8, 0x1CF9);
    (0x1D2C, 0x1D6A); (0x1D78, 0x1D78); (0x1D9B, 0x1DFF); (0x1FBD, 0x1FBD);
    (0x1FBF, 0x1FC1); (0x1FCD, 0x1FCF); (0x1FDD, 0x1FDF); (0x1FED, 0x1FEF);
    (0x1FFD, 0x1FFE); (0x200B, 0x200F); (0x2018, 0x2019); (0x2024, 0x2024);
    (0x2027, 0x2027); (0x202A, 0x202E); (0x2060, 0x2064); (0x2066, 0x206F);
    (0x2071, 0x2071); (0x207F, 0x207F); (0x2090, 0x209C); (0x20D0, 0x20F0);
    (0x2C7C, 0x2C7D); (0x2CEF, 0x2CF1); (0x2D6F, 0x2D6F); (0x2D7F, 0x2D7F);
    (0x2DE0, 0x2DFF); (0x2E2F, 0x2E2F); (0x3005, 0x3005); (0x302A, 0x302D);
    (0x3031, 0x3035); (0x303B, 0x303B); (0x3099, 0x309E); (0x30FC, 0x30FE);
    (0xA015, 0xA015); (0xA4F8, 0xA4FD); (0xA60C, 0xA60C); (0xA66F, 0xA672);
    (0xA674, 0xA67D); (0xA67F, 0xA67F); (0xA69C, 0xA69F); (0xA6F0, 0xA6F1);
    (0xA700, 0xA721); (0xA770, 0xA770); (0xA788, 0xA78A); (0xA7F2, 0xA7F4);
    (0xA7F8, 0xA7F9); (0xA802, 0xA802); (0xA806, 0xA806); (0xA80B, 0xA80B);
    (0xA825, 0xA826); (0xA82C, 0xA82C); (0xA8C4, 0xA8C5); (0xA8E0, 0xA8F1);
    (0xA8FF, 0xA8FF); (0xA926, 0xA92D); (0xA947, 0xA951); (0xA980, 0xA982);
    (0xA9B3, 0xA9B3); (0xA9B6, 0xA9B9); (0xA9BC, 0xA9BD); (0xA9CF, 0xA9CF);
    (0xA9E5, 0xA9E6); (0xAA29, 0xAA2E); (0xAA31, 0xAA32); (0xAA35, 0xAA36);
    (0xAA43, 0xAA43); (0xAA4C, 0xAA4C); (0xAA70, 0xAA70); (0xAA7C, 0xAA7C);
    (0xAAB0, 0xAAB0); (0xAAB2, 0xAAB4); (0xAAB7, 0xAAB8); (0xAABE, 0xAABF);
    (0xAAC1, 0xAAC1); (0xAADD, 0xAADD); (0xAAEC, 0xAAED); (0xAAF3, 0xAAF4);
    (0xAAF6, 0xAAF6); (0xAB5B, 0xAB5F); (0xAB69, 0xAB6B); (0xABE5, 0xABE5);
    (0xABE8, 0xABE8); (0xABED, 0xABED); (0xFB1E, 0xFB1E); (0xFBB2, 0xFBC2);
    (0xFE00, 0xFE0F); (0xFE13, 0xFE13); (0xFE20, 0xFE2F); (0xFE52, 0xFE52);
    (0xFE55, 0xFE55); (0xFEFF, 0xFEFF); (0xFF07, 0xFF07); (0xFF0E, 0xFF0E);
    (0xFF1A, 0xFF1A); (0xFF3E, 0xFF3E); (0xFF40, 0xFF40); (0xFF70, 0xFF70);
    (0xFF9E, 0xFF9F); (0xFFE3, 0xFFE3); (0xFFF9, 0xFFFB); (0x101FD, 0x101FD);
    (0x102E0, 0x102E0); (0x10376, 0x1037A); (0x10780, 0x10785); (0x10787, 0x107B0);
    (0x107B2, 0x107BA); (0x10A01, 0x10A03); (0x10A05, 0x10A06); (0x10A0C, 0x10A0F);
    (0x10A38, 0x10A3A); (0x10A3F, 0x10A3F); (0x10AE5, 0x10AE6); (0x10D24, 0x10D27);
    (0x10EAB, 0x10EAC); (0x10F46, 0x10F50); (0x10F82, 0x10F85); (0x11001, 0x11001);
    (0x11038, 0x11046); (0x11070, 0x11070); (0x11073, 0x11074); (0x1107F, 0x11081);
    (0x110B3, 0x110B6); (0x110B9, 0x110BA); (0x110BD, 0x110BD); (0x110C2, 0x110C2);
    (0x110CD, 0x110CD); (0x11100, 0x11102); (0x11127, 0x1112B); (0x1112D, 0x11134);
    (0x11173, 0x11173); (0x11180, 0x11181); (0x111B6, 0x111BE); (0x111C9, 0x111CC);
    (0x111CF, 0x111CF); (0x1122F, 0x11231); (0x11234, 0x11234); (0x11236, 0x11237);
    (0x1123E, 0x1123E); (0x112DF, 0x112DF); (0x112E3, 0x112EA); (0x11300, 0x11301);
    (0x1133B, 0x1133C); (0x11340, 0x11340); (0x11366, 0x1136C); (0x11370, 0x11374);
    (0x11438, 0x1143F); (0x11442, 0x11444); (0x11446, 0x11446); (0x1145E, 0x1145E);
    (0x114B3, 0x114B8); (0x114BA, 0x114BA); (0x114BF, 0x114C0); (0x114C2, 0x114C3);
    (0x115B2, 0x115B5); (0x115BC, 0x115BD); (0x115BF, 0x115C0); (0x115DC, 0x115DD);
    (0x11633, 0x1163A); (0x1163D, 0x1163D); (0x1163F, 0x11640); (0x116AB, 0x116AB);
    (0x116AD, 0x116AD); (0x116B0, 0x116B5); (0x116B7, 0x116B7); (0x1171D, 0x1171F);
    (0x11722, 0x11725); (0x11727, 0x1172B); (0x1182F, 0x11837); (0x11839, 0x1183A);
    (0x1193B, 0x1193C); (0x1193E, 0x1193E); (0x11943, 0x11943); (0x119D4, 0x119D7);
    (0x119DA, 0x119DB); (0x119E0, 0x119E0); (0x11A01, 0x11A0A); (0x11A33, 0x11A38);
    (0x11A3B, 0x11A3E); (0x11A47, 0x11A47); (0x11A51, 0x11A56); (0x11A59, 0x11A5B);
    (0x11A8A, 0x11A96); (0x11A98, 0x11A99); (0x11C30, 0x11C36); (0x11C38, 0x11C3D);
    (0x11C3F, 0x11C3F); (0x11C92, 0x11CA7); (0x11CAA, 0x11CB0); (0x11CB2, 0x11CB3);
    (0x11CB5, 0x11CB6); (0x11D31, 0x11D36); (0x11D3A, 0x11D3A); (0x11D3C, 0x11D3D);
    (0x11D3F, 0x11D45); (0x11D47, 0x11D47); (0x11D90, 0x11D91); (0x11D95, 0x11D95);
    (0x11D97, 0x11D97); (0x11EF3, 0x11EF4); (0x13430, 0x13438); (0x16AF0, 0x16AF4);
    (0x16B30, 0x16B36); (0x16B40, 0x16B43); (0x16F4F, 0x16F4F); (0x16F8F, 0x16F9F);
    (0x16FE0, 0x16FE1); (0x16FE3, 0x16FE4); (0x1AFF0, 0x1AFF3); (0x1AFF5, 0x1AFFB);
    (0x1AFFD, 0x1AFFE); (0x1BC9D, 0x1BC9E); (0x1BCA0, 0x1BCA3); (0x1CF00, 0x1CF2D);
    (0x1CF30, 0x1CF46); (0x1D167, 0x1D169); (0x1D173, 0x1D182); (0x1D185, 0x1D18B);
    (0x1D1AA, 0x1D1AD); (0x1D242, 0x1D244); (0x1DA00, 0x1DA36); (0x1DA3B, 0x1DA6C);
    (0x1DA75, 0x1DA75); (0x1DA84, 0x1DA84); (0x1DA9B, 0x1DA9F); (0x1DAA1, 0x1DAAF);
    (0x1E000, 0x1E006); (0x1E008, 0x1E018); (0x1E01B, 0x1E021); (0x1E023, 0x1E024);
    (0x1E026, 0x1E02A); (0x1E130, 0x1E13D); (0x1E2AE, 0x1E2AE); (0x1E2EC, 0x1E2EF);
    (0x1E8D0, 0x1E8D6); (0x1E944, 0x1E94B); (0x1F3FB, 0x1F3FF); (0xE0001, 0xE0001);
    (0xE0020, 0xE007F); (0xE0100, 0xE01EF) ].

Fixpoint mapped (runs : list (N * N * N * N)) (c : N) : option N :=
  match runs with
  | [] => None
  | (first, last, stride, target) :: runs' =>
      if c <? first then None
      else if (c <=? last) && ((c - first) mod stride =? 0)
           then Some (target + (c - first))
           else mapped runs' c
  end.

Definition simple_lower (c : N) : N :=
  match mapped lower_ranges c with
  | Some l => l
  | None => c
  end.

Fixpoint in_ranges (ranges : list (N * N)) (c : N) : bool :=
  match ranges with
  | [] => false
  | (first, last) :: ranges' =>
      if c <? first then false
      else (c <=? last) || in_ranges ranges' c
  end.

Definition cased (c : N) : bool := in_ranges cased_ranges c.
Definition case_ignorable (c : N) : bool := in_ranges case_ignorable_ranges c.

(** The next code point of [l] that is not case-ignorable is a cased
    letter. *)
Fixpoint cased_next (l : list N) : bool :=
  match l with
  | [] => false
  | c :: l' => if case_ignorable c then cased_next l' else cased c
  end.

(** Final_Sigma: a cased letter comes before, case-ignorable code points
    aside, and none comes after.  [before] is what precedes, last code point
    first. *)
Definition final_sigma (before after : list N) : bool :=
  cased_next before && negb (cased_next after).

Fixpoint lower_from (before : list N) (cps : list N) : list N :=
  match cps with
  | [] => []
  | c :: after =>
      (if c =? 0x3A3 then [if final_sigma before after then 0x3C2 else 0x3C3]
       else if c =? 0x130 then [0x69; 0x307]
       else [simple_lower c])
      ++ lower_from (c :: before) after
  end.

Definition toLowerCase (s : jstr) : jstr :=
  flat_map utf16 (lower_from [] (code_points s)).

(** [s.split(sep)] for a separator of one code unit: the fields between the
    separators, never an empty array. *)
Fixpoint split (sep : N) (s : jstr) : list jstr :=
  match s with
  | [] => [[]]
  | c :: s' =>
      if c =? sep then [] :: split sep s'
      else match split sep s' with
           | [] => [[c]]
           | field :: fields => (c :: field) :: fields
           end
  end.

(** [array.pop()]: the last element, [undefined] on an empty array. *)
Definition pop (l : list jstr) : option jstr :=
  match rev l with
  | [] => None
  | x :: _ => Some x
  end.

(** White space as [\s] and [trim] read it: the WhiteSpace and
    LineTerminator code points. *)
Definition is_space (c : N) : bool :=
  ((9 <=? c) && (c <=? 13)) || (c =? 32) || (c =? 0xA0) || (c =? 0x1680)
  || ((0x2000 <=? c) && (c <=? 0x200A)) || (c =? 0x2028) || (c =? 0x2029)
  || (c =? 0x202F) || (c =? 0x205F) || (c =? 0x3000) || (c =? 0xFEFF).

Fixpoint trimStart (s : jstr) : jstr :=
  match s with
  | c :: s' => if is_space c then trimStart s' else s
  | [] => []
  end.

Definition trimEnd (s : jstr) : jstr := rev (trimStart (rev s)).

Definition trim (s : jstr) : jstr := trimEnd (trimStart s).

End Str.
Import Str.

(* ================================================================== *)
(** * Regular expressions *)
(* ================================================================== *)

Module Regex.

(** The fragment the source uses, without flags other than [g]: classes of
    one code unit, sequence, ordered alternation, the greedy star, and the
    two anchors. *)
Inductive re :=
| Eps
| Cls (p : N -> bool)
| Cat (a b : re)
| Alt (a b : re)
| Star (a : re)
| Bos
| Eos.

Definition Opt (a : re) : re := Alt a Eps.
Definition Plus (a : re) : re := Cat a (Star a).
Definition Chr (c : N) : re := Cls (N.eqb c).
Definition Not (c : N) : re := Cls (fun x => negb (x =? c)).
Definition Any : re := Cls (fun _ => true).
Definition Range (lo hi : N) : re := Cls (fun x => (lo <=? x) && (x <=? hi)).

Fixpoint LitU (s : jstr) : re :=
  match s with
  | [] => Eps
  | [c] => Chr c
  | c :: s' => Cat (Chr c) (LitU s')
  end.
Definition Lit (s : string) : re := LitU (js s).

Fixpoint Seq (l : list re) : re :=
  match l with
  | [] => Eps
  | [a] => a
  | a :: l' => Cat a (Seq l')
  end.

Fixpoint Alts (l : list re) : re :=
  match l with
  | [] => Eps
  | [a] => a
  | a :: l' => Alt a (Alts l')
  end.

(** The greedy star of a matcher [body], with continuation [k]: one more
    iteration if it consumes something and the rest then matches, else the
    continuation here.  [fuel] bounds the iterations; each consumes a code
    unit, so as many as [s] has code units are all there can be. *)
Fixpoint star_loop (body : jstr -> (jstr -> option jstr) -> option jstr)
  (k : jstr -> option jstr) (fuel : nat) (s : jstr) {struct fuel} : option jstr :=
  match fuel with
  | O => k s
  | S fuel' =>
      match body s (fun s' => if (List.length s' <? List.length s)%nat
                              then star_loop body k fuel' s' else None) with
      | Some rest => Some rest
      | None => k s
      end
  end.

(** The backtracking matcher, in continuation-passing style: [run total r s
    k] matches [r] at the head of [s], the rest of an input of [total] code
    units, and hands what is left to [k]; the first success in priority order
    is the answer. *)
Fixpoint run (total : nat) (r : re) (s : jstr) (k : jstr -> option jstr)
  {struct r} : option jstr :=
  match r with
  | Eps => k s
  | Cls p =>
      match s with
      | c :: s' => if p c then k s' else None
      | [] => None
      end
  | Cat a b => run total a s (fun s' => run total b s' k)
  | Alt a b =>
      match run total a s k with
      | Some rest => Some rest
      | None => run total b s k
      end
  | Star a => star_loop (run total a) k (List.length s) s
  | Bos => if (List.length s =? total)%nat then k s else None
  | Eos => match s with [] => k [] | _ :: _ => None end
  end.

(** The length of the match of [r] at the head of [s], if there is one. *)
Definition exec_at (total : nat) (r : re) (s : jstr) : option nat :=
  match run total r s (fun rest => Some rest) with
  | Some rest => Some (List.length s - List.length rest)%nat
  | None => None
  end.

(** The leftmost match: what stands before it, the match, what follows. *)
Fixpoint search (total : nat) (r : re) (s : jstr) : option (jstr * jstr * jstr) :=
  match exec_at total r s with
  | Some n => Some ([], firstn n s, skipn n s)
  | None =>
      match s with
      | [] => None
      | c :: s' =>
          match search total r s' with
          | Some (before, m, after) => Some (c :: before, m, after)
          | None => None
          end
      end
  end.

(** [s.match(r)] for a pattern without the [g] flag: element 0 of the result. *)
Definition match_ (r : re) (s : jstr) : option jstr :=
  match search (List.length s) r s with
  | Some (_, m, _) => Some m
  | None => None
  end.

(** [s.replace(r, rep)] for a pattern without the [g] flag. *)
Definition replace (r : re) (rep : jstr) (s : jstr) : jstr :=
  match search (List.length s) r s with
  | Some (before, _, after) => before ++ rep ++ after
  | None => s
  end.

(** [s.replace(r, rep)] for a pattern with the [g] flag: [skip] code units
    of the last match are still to be passed over. *)
Fixpoint replace_from (total : nat) (r : re) (rep : jstr) (skip : nat) (s : jstr)
  {struct s} : jstr :=
  match skip with
  | S skip' =>
      match s with
      | [] => []
      | _ :: s' => replace_from total r rep skip' s'
      end
  | O =>
      match exec_at total r s with
      | Some O =>
          rep ++ match s with
                 | [] => []
                 | c :: s' => c :: replace_from total r rep 0 s'
                 end
      | Some (S n) =>
          rep ++ match s with
                 | [] => []
                 | _ :: s' => replace_from total r rep n s'
                 end
      | None =>
          match s with
          | [] => []
          | c :: s' => c :: replace_from total r rep 0 s'
          end
      end
  end.

Definition replace_all (r : re) (rep : jstr) (s : jstr) : jstr :=
  replace_from (List.length s) r rep 0 s.

(** [(s.match(r) || []).length] for a pattern with the [g] flag whose
    matches are single code units of a class. *)
Definition count_class (p : N -> bool) (s : jstr) : nat :=
  List.length (filter p s).

End Regex.
Import Regex.

(* ================================================================== *)
(** * JSON values and [JSON.parse] *)
(* ================================================================== *)

Module Json.

(** ** Numbers

    A number is an IEEE 754 double: a [SpecFloat.spec_float] of precision 53
    with exponents below 1024.  The value of a lexeme is the double nearest
    to the decimal it spells, ties going to the even mantissa, as
    [JSON.parse] gives it. *)

Definition double : Set := SpecFloat.spec_float.
Definition prec : Z := 53.
Definition emax : Z := 1024.

(** The digits at the head of a text, read on top of [acc], how many they
    are, and what follows them. *)
Fixpoint read_digits (s : jstr) (acc count : N) : N * N * jstr :=
  match s with
  | c :: s' =>
      if (48 <=? c) && (c <=? 57) then read_digits s' (acc * 10 + (c - 48)) (count + 1)
      else (acc, count, s)
  | [] => (acc, count, [])
  end.

(** A lexeme of the JSON grammar as a sign, an integer and a power of ten:
    [-12.5e3] is [-125 * 10^2]. *)
Definition decimal_of (lexeme : jstr) : bool * N * Z :=
  let (negative, s) := match lexeme with
                       | 45 :: s => (true, s)
                       | _ => (false, lexeme)
                       end in
  let '(whole, _, s) := read_digits s 0 0 in
  let '(digits, places, s) := match s with
                              | 46 :: s' => read_digits s' whole 0
                              | _ => (whole, 0, s)
                              end in
  let exponent := match s with
                  | _ :: 45 :: s' => (- Z.of_N (fst (fst (read_digits s' 0 0))))%Z
                  | _ :: 43 :: s' => Z.of_N (fst (fst (read_digits s' 0 0)))
                  | _ :: s' => Z.of_N (fst (fst (read_digits s' 0 0)))
                  | [] => 0%Z
                  end in
  (negative, digits, (exponent - Z.of_N places)%Z).

(** The double nearest to [digits * 10^scale].  A decimal of 10^401 or
    more is beyond every finite double and one under 10^-400 is nearer to
    zero than to any other, so the powers of ten that are computed stay
    small; [digits] is under [10^(log2 digits + 1)]. *)
Definition double_of_decimal (negative : bool) (digits : N) (scale : Z) : double :=
  match digits with
  | N0 => SpecFloat.S754_zero negative
  | Npos d =>
      if (400 <? scale)%Z then SpecFloat.S754_infinity negative
      else if (scale + Z.of_N (N.log2 digits) + 1 <? -400)%Z
           then SpecFloat.S754_zero negative
      else if (0 <=? scale)%Z
           then SpecFloat.binary_normalize prec emax
                  ((if negative then Z.neg d else Z.pos d) * 10 ^ scale)%Z 0 negative
           else SpecFloat.SFdiv prec emax
                  (SpecFloat.S754_finite negative d 0)
                  (SpecFloat.S754_finite false (Z.to_pos (10 ^ (- scale))) 0)
  end.

Definition number_of_lexeme (lexeme : jstr) : double :=
  let '(negative, digits, scale) := decimal_of lexeme in
  double_of_decimal negative digits scale.

(** ** [Number::toString]

    The digits are the fewest that still denote the number, and among those
    the nearest to it: for [k] from 1 on, the two decimals of [k] digits next
    to the number are tried. *)

Definition same_double (a b : double) : bool :=
  match a, b with
  | SpecFloat.S754_zero s, SpecFloat.S754_zero s' => Bool.eqb s s'
  | SpecFloat.S754_infinity s, SpecFloat.S754_infinity s' => Bool.eqb s s'
  | SpecFloat.S754_nan, SpecFloat.S754_nan => true
  | SpecFloat.S754_finite s m e, SpecFloat.S754_finite s' m' e' =>
      Bool.eqb s s' && Pos.eqb m m' && Z.eqb e e'
  | _, _ => false
  end.

Fixpoint digits_onto (fuel : nat) (n : N) (acc : jstr) : jstr :=
  match fuel with
  | O => acc
  | S fuel' =>
      let acc' := (48 + n mod 10) :: acc in
      if n <? 10 then acc' else digits_onto fuel' (n / 10) acc'
  end.

(** The decimal digits of a natural number. *)
Definition decimal (n : N) : jstr := digits_onto (S (N.to_nat (N.log2 n))) n [].

(** The least [j >= 1] with [num * 10^j >= den], for [num < den]. *)
Fixpoint shift_to_one (fuel : nat) (num den : N) (j : Z) : Z :=
  match fuel with
  | O => j
  | S fuel' =>
      if den <=? num * 10 then j else shift_to_one fuel' (num * 10) den (j + 1)%Z
  end.

(** The [n] with [10^(n-1) <= num/den < 10^n]; a double is above
    [10^-324]. *)
Definition magnitude (num den : N) : Z :=
  if den <=? num then Z.of_nat (List.length (decimal (num / den)))
  else (1 - shift_to_one 400 num den 1)%Z.

(** The digits [s] and the [n] of [Number::toString]: [s * 10^(n-k)] is
    the number [num/den], with [k] digits in [s]. *)
Fixpoint shortest (fuel : nat) (k : Z) (v : double) (num den : N) (n : Z) : N * Z :=
  match fuel with
  | O => (0, n)
  | S fuel' =>
      let a := if (n <=? k)%Z then num * 10 ^ Z.to_N (k - n) else num in
      let b := if (n <=? k)%Z then den else den * 10 ^ Z.to_N (n - k) in
      let lo := a / b in
      let hi := lo + 1 in
      let r := a mod b in
      let denotes s := same_double (double_of_decimal false s (n - k)) v in
      let chosen :=
        match denotes lo, denotes hi with
        | true, true =>
            if 2 * r <? b then Some lo
            else if b <? 2 * r then Some hi
            else if N.even lo then Some lo else Some hi
        | true, false => Some lo
        | false, true => Some hi
        | false, false => None
        end in
      match chosen with
      | Some s => if s =? 10 ^ Z.to_N k then (1, (n + 1)%Z) else (s, n)
      | None => shortest fuel' (k + 1)%Z v num den n
      end
  end.

Definition zeros (n : Z) : jstr := repeat 48 (Z.to_nat n).

(** The text of digits [digits] with the decimal point after the [n]-th. *)
Definition written (digits : jstr) (n : Z) : jstr :=
  let k := Z.of_nat (List.length digits) in
  if (k <=? n)%Z && (n <=? 21)%Z then digits ++ zeros (n - k)
  else if (0 <? n)%Z && (n <=? 21)%Z
       then firstn (Z.to_nat n) digits ++ 46 :: skipn (Z.to_nat n) digits
  else if (-6 <? n)%Z && (n <=? 0)%Z then 48 :: 46 :: zeros (- n) ++ digits
  else
    let e := (n - 1)%Z in
    let exponent := 101 :: (if (0 <=? e)%Z then 43 else 45) :: decimal (Z.to_N (Z.abs e)) in
    match digits with
    | [d] => d :: exponent
    | d :: more => d :: 46 :: more ++ exponent
    | [] => exponent
    end.

Definition Number_toString (v : double) : jstr :=
  match v with
  | SpecFloat.S754_nan => js "NaN"
  | SpecFloat.S754_zero _ => js "0"
  | SpecFloat.S754_infinity s => (if s then js "-" else []) ++ js "Infinity"
  | SpecFloat.S754_finite s m e =>
      let num := if (0 <=? e)%Z then Npos m * 2 ^ Z.to_N e else Npos m in
      let den := if (0 <=? e)%Z then 1 else 2 ^ Z.to_N (- e) in
      let (digits, n) :=
        shortest 17 1 (SpecFloat.S754_finite false m e) num den (magnitude num den) in
      (if s then js "-" else []) ++ written (decimal digits) n
  end.

(** ** Values *)

(** A JSON value; an object is the list of its own properties in creation
    order. *)
Inductive json :=
| JNull
| JBool (b : bool)
| JNumber (value : double)
| JString (s : jstr)
| JArray (items : list json)
| JObject (fields : list (jstr * json)).

(** [o[k]] on the own properties of an object: [None] is [undefined]. *)
Fixpoint get (fields : list (jstr * json)) (k : jstr) : option json :=
  match fields with
  | [] => None
  | (k', v) :: rest => if Str.eqb k' k then Some v else get rest k
  end.

(** [o[k] = v]: an existing property keeps its place, a new one goes last. *)
Fixpoint set (fields : list (jstr * json)) (k : jstr) (v : json)
  : list (jstr * json) :=
  match fields with
  | [] => [(k, v)]
  | (k', v') :: rest =>
      if Str.eqb k' k then (k', v) :: rest else (k', v') :: set rest k v
  end.

Definition has (fields : list (jstr * json)) (k : jstr) : bool :=
  match get fields k with Some _ => true | None => false end.

(** ** The parser

    A pushdown automaton over the code units of the text: [stack] holds the
    arrays and objects that are still open, [mode] says what may come next.
    It reads the grammar of ECMA-404, which is the one [JSON.parse] accepts. *)

Inductive frame :=
| InArray (done : list json)
| InObject (fields : list (jstr * json)) (key : option jstr).

Inductive numstate :=
| NMinus | NZero | NInt | NDot | NFrac | NExp | NExpSign | NExpDigits.

Inductive mode :=
| Value
| ValueOrClose
| KeyOrClose
| Key
| Colon
| After
| InString (acc : jstr)
| Escape (acc : jstr)
| Unicode (acc : jstr) (todo : nat) (v : N)
| InNumber (st : numstate) (acc : jstr)
| Literal (rest : jstr) (v : json)
| Failed.

Record state := mkState {
  mode_of : mode;
  stack : list frame;
  result : option json }.

Definition failed : state := mkState Failed [] None.
Definition initial : state := mkState Value [] None.

Definition is_ws (c : N) : bool :=
  (c =? 32) || (c =? 9) || (c =? 10) || (c =? 13).

Definition is_digit (c : N) : bool := (48 <=? c) && (c <=? 57).

Definition hex_value (c : N) : option N :=
  if (48 <=? c) && (c <=? 57) then Some (c - 48)
  else if (97 <=? c) && (c <=? 102) then Some (c - 87)
  else if (65 <=? c) && (c <=? 70) then Some (c - 55)
  else None.

(** A value is complete: it is the result, or goes into the open container. *)
Definition complete (v : json) (stk : list frame) : state :=
  match stk with
  | [] => mkState After [] (Some v)
  | InArray done :: rest => mkState After (InArray (v :: done) :: rest) None
  | InObject fields (Some k) :: rest =>
      mkState After (InObject (set fields k v) None :: rest) None
  | InObject _ None :: _ => failed
  end.

(** A string is complete: a property name or a value. *)
Definition complete_string (s : jstr) (stk : list frame) : state :=
  match stk with
  | InObject fields None :: rest =>
      mkState Colon (InObject fields (Some s) :: rest) None
  | _ => complete (JString s) stk
  end.

Definition step_after (st : state) (c : N) : state :=
  if is_ws c then st
  else match stack st with
       | [] => failed
       | InArray done :: rest =>
           if c =? 44 then mkState Value (stack st) None
           else if c =? 93 then complete (JArray (rev done)) rest
           else failed
       | InObject fields None :: rest =>
           if c =? 44 then mkState Key (stack st) None
           else if c =? 125 then complete (JObject fields) rest
           else failed
       | InObject _ (Some _) :: _ => failed
       end.

Definition step_value (stk : list frame) (c : N) : state :=
  if c =? 123 then mkState KeyOrClose (InObject [] None :: stk) None
  else if c =? 91 then mkState ValueOrClose (InArray [] :: stk) None
  else if c =? 34 then mkState (InString []) stk None
  else if c =? 45 then mkState (InNumber NMinus [c]) stk None
  else if c =? 48 then mkState (InNumber NZero [c]) stk None
  else if is_digit c then mkState (InNumber NInt [c]) stk None
  else if c =? 116 then mkState (Literal (js "rue") (JBool true)) stk None
  else if c =? 102 then mkState (Literal (js "alse") (JBool false)) stk None
  else if c =? 110 then mkState (Literal (js "ull") JNull) stk None
  else failed.

Definition is_e (c : N) : bool := (c =? 101) || (c =? 69).

(** The number read so far is a whole number lexeme. *)
Definition accepting (n : numstate) : bool :=
  match n with
  | NZero | NInt | NFrac | NExpDigits => true
  | _ => false
  end.

(** The next state of the number lexer, [None] when [c] is no part of it. *)
Definition step_number (n : numstate) (c : N) : option numstate :=
  match n with
  | NMinus => if c =? 48 then Some NZero
              else if is_digit c then Some NInt else None
  | NZero => if c =? 46 then Some NDot
             else if is_e c then Some NExp else None
  | NInt => if is_digit c then Some NInt
            else if c =? 46 then Some NDot
            else if is_e c then Some NExp else None
  | NDot => if is_digit c then Some NFrac else None
  | NFrac => if is_digit c then Some NFrac
             else if is_e c then Some NExp else None
  | NExp => if (c =? 43) || (c =? 45) then Some NExpSign
            else if is_digit c then Some NExpDigits else None
  | NExpSign => if is_digit c then Some NExpDigits else None
  | NExpDigits => if is_digit c then Some NExpDigits else None
  end.

Definition step (st : state) (c : N) : state :=
  let stk := stack st in
  match mode_of st with
  | Value => if is_ws c then st else step_value stk c
  | ValueOrClose =>
      if is_ws c then st
      else if c =? 93 then
        match stk with
        | InArray done :: rest => complete (JArray (rev done)) rest
        | _ => failed
        end
      else step_value stk c
  | KeyOrClose =>
      if is_ws c then st
      else if c =? 125 then
        match stk with
        | InObject fields None :: rest => complete (JObject fields) rest
        | _ => failed
        end
      else if c =? 34 then mkState (InString []) stk None
      else failed
  | Key =>
      if is_ws c then st
      else if c =? 34 then mkState (InString []) stk None
      else failed
  | Colon =>
      if is_ws c then st
      else if c =? 58 then mkState Value stk None
      else failed
  | After => step_after st c
  | InString acc =>
      if c =? 34 then complete_string (rev acc) stk
      else if c =? 92 then mkState (Escape acc) stk None
      else if c <? 32 then failed
      else mkState (InString (c :: acc)) stk None
  | Escape acc =>
      if (c =? 34) || (c =? 92) || (c =? 47) then mkState (InString (c :: acc)) stk None
      else if c =? 98 then mkState (InString (8 :: acc)) stk None
      else if c =? 102 then mkState (InString (12 :: acc)) stk None
      else if c =? 110 then mkState (InString (10 :: acc)) stk None
      else if c =? 114 then mkState (InString (13 :: acc)) stk None
      else if c =? 116 then mkState (InString (9 :: acc)) stk None
      else if c =? 117 then mkState (Unicode acc 4 0) stk None
      else failed
  | Unicode acc todo v =>
      match hex_value c with
      | Some h =>
          match todo with
          | S (S todo') => mkState (Unicode acc (S todo') (v * 16 + h)) stk None
          | _ => mkState (InString ((v * 16 + h) :: acc)) stk None
          end
      | None => failed
      end
  | InNumber n acc =>
      match step_number n c with
      | Some n' => mkState (InNumber n' (c :: acc)) stk None
      | None =>
          if accepting n
          then step_after (complete (JNumber (number_of_lexeme (rev acc))) stk) c
          else failed
      end
  | Literal rest v =>
      match rest with
      | x :: rest' =>
          if c =? x then
            match rest' with
            | [] => complete v stk
            | _ :: _ => mkState (Literal rest' v) stk None
            end
          else failed
      | [] => failed
      end
  | Failed => failed
  end.

Fixpoint steps (st : state) (s : jstr) : state :=
  match s with
  | [] => st
  | c :: s' => steps (step st c) s'
  end.

(** The end of the text: a value must be complete and nothing left open. *)
Definition finish (st : state) : option json :=
  match mode_of st, stack st with
  | After, [] => result st
  | InNumber n acc, [] =>
      if accepting n then Some (JNumber (number_of_lexeme (rev acc))) else None
  | _, _ => None
  end.

(** [JSON.parse(text)]: [None] stands for the [SyntaxError] it throws. *)
Definition parse (text : jstr) : option json := finish (steps initial text).

(** ** [JSON.stringify], as the reader of the text sees the value

    [JSON.parse(JSON.stringify(v))] for a value that [JSON.parse] gave: an
    infinite number is written [null] and minus zero [0]; the properties of
    an object are written with the array indices first, in ascending order,
    and the other keys after them in creation order.  The digits that are
    written for a finite number denote that number, and a string is read
    back as it was. *)

(** The key is an array index: the canonical decimal of an integer up to
    [2^32 - 2]. *)
Definition array_index (k : jstr) : option N :=
  match k with
  | [] => None
  | c :: rest =>
      if forallb is_digit k
         && (negb (c =? 48) || match rest with [] => true | _ :: _ => false end)
         && (List.length k <=? 10)%nat
      then let '(i, _, _) := read_digits k 0 0 in
           if i <=? 4294967294 then Some i else None
      else None
  end.

Fixpoint insert_index (i : N) (p : jstr * json) (l : list (N * (jstr * json)))
  : list (N * (jstr * json)) :=
  match l with
  | [] => [(i, p)]
  | (j, q) :: l' => if i <? j then (i, p) :: l else (j, q) :: insert_index i p l'
  end.

(** [[OwnPropertyKeys]]: the order in which the properties are enumerated. *)
Definition enumerated (fields : list (jstr * json)) : list (jstr * json) :=
  map snd (fold_left (fun l p => match array_index (fst p) with
                                 | Some i => insert_index i p l
                                 | None => l
                                 end) fields [])
  ++ filter (fun p => match array_index (fst p) with
                      | Some _ => false
                      | None => true
                      end) fields.

Fixpoint serialized (v : json) : json :=
  match v with
  | JNumber (SpecFloat.S754_infinity _) | JNumber SpecFloat.S754_nan => JNull
  | JNumber (SpecFloat.S754_zero _) => JNumber (SpecFloat.S754_zero false)
  | JArray items => JArray (map serialized items)
  | JObject fields =>
      JObject (enumerated (map (fun p => (fst p, serialized (snd p))) fields))
  | _ => v
  end.

End Json.
Import Json.

(* ================================================================== *)
(** * The handler: [POST] of [route.ts] *)
(* ================================================================== *)

Module Handler.

(** ** Values, collaborators and effects *)

(** What a [throw] carries: an [Error] with its message, or something that
    is not an instance of [Error]. *)
Inductive thrown :=
| JsError (message : jstr)
| NonError.

(** The outcome of a call into a collaborator. *)
Inductive outcome (A : Type) :=
| Ok (a : A)
| Throws (e : thrown).
Arguments Ok {A} a.
Arguments Throws {A} e.

(** The uploaded [File]: [file.name], [file.type], and the bytes that
    [file.arrayBuffer()] gives ([file.size] is their number). *)
Record File := mkFile {
  name : jstr;
  type : jstr;
  bytes : buffer }.

(** What a form holds under a name: an uploaded [File], or a string when
    the field is a text field. *)
Inductive entry :=
| Uploaded (file : File)
| Field (value : jstr).

(** The request: what [request.formData()] and then [formData.get('file')]
    give, [None] when the form has no such field. *)
Record NextRequest := mkRequest {
  formData : outcome (option entry) }.

Record inlineData := mkInline {
  data : jstr;
  mimeType : jstr }.

(** The collaborators.  [generateContent w n prompt fileData] is the outcome
    of the model's [n]-th invocation within the request (counted from 0): it
    throws, or gives a result whose [response.text()] throws or is the reply.
    The two message fields stand for the texts the engine puts in the
    [SyntaxError] of [JSON.parse] and in the [TypeError] of a property access
    on a value that has no properties. *)
Record world := mkWorld {
  NEXT_PUBLIC_GEMINI : option jstr;
  extractRawText : buffer -> outcome jstr;
  convertToHtml : buffer -> outcome jstr;
  generateContent : nat -> jstr -> option inlineData -> outcome (outcome jstr);
  syntax_error_message : jstr -> jstr;
  type_error_message : json -> jstr }.

(** [NextResponse.json(body, { status })]; the body as the client reads it. *)
Record NextResponse := mkResponse {
  status : N;
  body : json }.

(** The calls the handler makes, in order.  [DecodePlainText] marks the
    plain-text salvage of a document's bytes. *)
Inductive event :=
| CallExtractRawText
| CallConvertToHtml
| DecodePlainText
| CallGenerateContent (attempt : nat) (prompt : jstr) (fileData : option inlineData)
| Sleep (ms : N).

(** How a block of statements ends. *)
Inductive completion (A : Type) :=
| Normal (a : A)
| Throw (e : thrown)
| Return (r : NextResponse).
Arguments Normal {A} a.
Arguments Throw {A} e.
Arguments Return {A} r.

(** The handler's variable [fileName], which its handlers read wherever the
    exception came from, and the trace. *)
Record locals := mkLocals {
  fileName : jstr;
  trace : list event }.

Definition M (A : Type) : Type := locals -> completion A * locals.

Definition ret {A} (a : A) : M A := fun l => (Normal a, l).

Definition bind {A B} (m : M A) (f : A -> M B) : M B :=
  fun l =>
    match m l with
    | (Normal a, l') => f a l'
    | (Throw e, l') => (Throw e, l')
    | (Return r, l') => (Return r, l')
    end.

Definition throw {A} (e : thrown) : M A := fun l => (Throw e, l).

Definition return_ {A} (r : NextResponse) : M A := fun l => (Return r, l).

(** [try { m } catch (e) { h e }] *)
Definition try_catch {A} (m : M A) (h : thrown -> M A) : M A :=
  fun l =>
    match m l with
    | (Throw e, l') => h e l'
    | other => other
    end.

Definition emit (e : event) : M unit :=
  fun l => (Normal tt, mkLocals (fileName l) (trace l ++ [e])).

Definition set_fileName (n : jstr) : M unit :=
  fun l => (Normal tt, mkLocals n (trace l)).

Definition get_fileName : M jstr := fun l => (Normal (fileName l), l).

Definition await {A} (o : outcome A) : M A :=
  match o with
  | Ok a => ret a
  | Throws e => throw e
  end.

Notation "x <- m ;; k" := (bind m (fun x => k))
  (at level 61, m at next level, right associativity).
Notation "m ;;; k" := (bind m (fun _ => k))
  (at level 61, right associativity).

(** ** Small pieces of the language *)

Definition str (s : string) : json := JString (js s).

(** Truthiness of a value; [None] is [undefined].  A number is falsy when
    it is a zero or not a number. *)
Definition truthy (v : option json) : bool :=
  match v with
  | None => false
  | Some JNull => false
  | Some (JBool b) => b
  | Some (JNumber (SpecFloat.S754_zero _)) => false
  | Some (JNumber SpecFloat.S754_nan) => false
  | Some (JNumber _) => true
  | Some (JString s) => negb (Str.eqb s [])
  | Some (JArray _) => true
  | Some (JObject _) => true
  end.

Definition isArray (v : option json) : bool :=
  match v with
  | Some (JArray _) => true
  | _ => false
  end.

(** [e instanceof Error ? e.message : otherwise] *)
Definition message_or (e : thrown) (otherwise : jstr) : jstr :=
  match e with
  | JsError m => m
  | NonError => otherwise
  end.

(** [v.skills]: reading a property of [null] throws; a boolean, a number, a
    string and an array have no property of that name. *)
Definition read_skills (w : world) (v : json) : M (option json) :=
  match v with
  | JNull => throw (JsError (type_error_message w v))
  | JObject fields => ret (get fields (js "skills"))
  | _ => ret None
  end.

(** [v.skills = []] in strict code, and the value as it is then serialized:
    an object gets the property; an array gets one that [JSON.stringify] does
    not write; creating a property on a primitive throws. *)
Definition write_skills (w : world) (v : json) : M json :=
  match v with
  | JObject fields => ret (JObject (set fields (js "skills") (JArray [])))
  | JArray items => ret (JArray items)
  | _ => throw (JsError (type_error_message w v))
  end.

(** The empty record every fallback response carries. *)
Definition empty_extractedData : json :=
  JObject [ (js "name", str ""); (js "email", str ""); (js "phone", str "");
            (js "skills", JArray []); (js "experience", JArray []);
            (js "education", JArray []); (js "summary", str "") ].

(** ** File-type validation (lines 21-43) *)

Definition allowedTypes : list jstr :=
  [ js "application/pdf";
    js "application/msword";
    js "application/vnd.openxmlformats-officedocument.wordprocessingml.document";
    js "text/plain";
    js "image/jpeg";
    js "image/jpg";
    js "image/png" ].

Definition allowedExtensions : list jstr :=
  [ js "pdf"; js "doc"; js "docx"; js "txt"; js "jpeg"; js "jpg"; js "png" ].

(** [fileName.toLowerCase().split('.').pop()] *)
Definition fileExtension_of (fileName : jstr) : option jstr :=
  pop (split 46 (toLowerCase fileName)).

Definition isValidMimeType (file : File) : bool :=
  array_includes allowedTypes (type file).

(** [fileExtension && allowedExtensions.includes(fileExtension)] *)
Definition isValidExtension (fileExtension : option jstr) : bool :=
  match fileExtension with
  | Some ext => negb (Str.eqb ext []) && array_includes allowedExtensions ext
  | None => false
  end.

(** [fileExtension === s] *)
Definition ext_is (fileExtension : option jstr) (s : string) : bool :=
  match fileExtension with
  | Some ext => Str.eqb ext (js s)
  | None => false
  end.

(** A value inside a template literal. *)
Definition show_ext (fileExtension : option jstr) : jstr :=
  match fileExtension with
  | Some ext => ext
  | None => js "undefined"
  end.

Definition invalid_type_response (file : File) (fileExtension : option jstr)
  : NextResponse :=
  mkResponse 400 (JObject [ (js "error", JString (
    js "Invalid file type. Supported formats: PDF, DOC, DOCX, TXT, JPEG, JPG, PNG. Received: "
    ++ type file ++ js " (" ++ show_ext fileExtension ++ js ")")) ]).

(** ** The layered DOC/DOCX extraction (lines 97-207) *)

Definition tag (open : string) : re := Seq [Lit open; Star (Not 62); Chr 62].

(** The chain of [.replace(..., ...)] calls of lines 132-165, in order. *)
Definition html_rules : list (re * jstr) :=
  [ (tag "<table", nl ++ js "--- TABLE START ---" ++ nl);
    (Lit "</table>", nl ++ js "--- TABLE END ---" ++ nl);
    (tag "<tr", nl);
    (Lit "</tr>", []);
    (tag "<td", js " | ");
    (Lit "</td>", []);
    (tag "<th", js " | ");
    (Lit "</th>", []);
    (tag "<p", nl);
    (Lit "</p>", []);
    (Alt (Seq [Lit "<br"; Star (Not 62); Opt (Chr 47); Chr 62]) (Lit "<br>"), nl);
    (tag "<div", nl);
    (Lit "</div>", []);
    (Seq [Lit "<h"; Range 49 54; Star (Not 62); Chr 62], nl ++ js "### ");
    (Seq [Lit "</h"; Range 49 54; Chr 62], js " ###" ++ nl);
    (tag "<li", nl ++ js "- ");
    (Lit "</li>", []);
    (Alts [tag "<ul"; Lit "</ul>"; tag "<ol"; Lit "</ol>"], nl);
    (Alts [tag "<strong"; Lit "</strong>"; tag "<b"; Lit "</b>"], []);
    (Alts [tag "<em"; Lit "</em>"; tag "<i"; Lit "</i>"], []);
    (Seq [Chr 60; Star (Not 62); Chr 62], js " ");
    (Lit "&nbsp;", js " ");
    (Lit "&amp;", js "&");
    (Lit "&lt;", js "<");
    (Lit "&gt;", js ">");
    (Lit "&quot;", dquote);
    (Lit "&#39;", js "'");
    (Lit "&apos;", js "'");
    (Seq [Chr 124; Star (Cls is_space); Chr 124], js "|");
    (Seq [Star (Cls is_space); Chr 124; Star (Cls is_space)], js " | ");
    (Seq [Chr 10; Star (Cls is_space); Chr 10; Star (Cls is_space); Chr 10], nl ++ nl);
    (Plus (Cls (fun c => (c =? 32) || (c =? 9))), js " ");
    (Seq [Chr 10; Plus (Chr 32)], nl) ].

Definition html_to_text (htmlContent : jstr) : jstr :=
  trim (fold_left (fun s rule => replace_all (fst rule) (snd rule) s)
                  html_rules htmlContent).

(** [[^\x20-\x7E\n\r\t]] *)
Definition non_printable (c : N) : bool :=
  negb (((0x20 <=? c) && (c <=? 0x7E)) || (c =? 10) || (c =? 13) || (c =? 9)).

(** Lines 181-184. *)
Definition salvage (plainText : jstr) : jstr :=
  trim (replace_all (Plus (Cls is_space)) (js " ")
          (replace_all (Cls non_printable) (js " ") plainText)).

(** [\w] *)
Definition is_word (c : N) : bool :=
  ((97 <=? c) && (c <=? 122)) || ((65 <=? c) && (c <=? 90))
  || ((48 <=? c) && (c <=? 57)) || (c =? 95).

(** [[^\w\s.,!?@()-]] *)
Definition special_char (c : N) : bool :=
  negb (is_word c || is_space c || (c =? 46) || (c =? 44) || (c =? 33)
        || (c =? 63) || (c =? 64) || (c =? 40) || (c =? 41) || (c =? 45)).

(** The two variables the layers assign. *)
Record extraction := mkExtraction {
  textContent : jstr;
  extractionMethod : jstr }.

(** Lines 105-117: raw text; a failure leaves the variables as they were. *)
Definition raw_text_layer (w : world) (buffer : buffer) (x : extraction)
  : M extraction :=
  try_catch
    (emit CallExtractRawText ;;;
     value <- await (extractRawText w buffer) ;;
     ret (mkExtraction value (js "raw-text")))
    (fun rawTextError => ret x).

(** Lines 120-172: HTML conversion, when there are under 50 code units. *)
Definition html_layer (w : world) (buffer : buffer) (x : extraction)
  : M extraction :=
  if (List.length (textContent x) <? 50)%nat then
    try_catch
      (emit CallConvertToHtml ;;;
       htmlContent <- await (convertToHtml w buffer) ;;
       ret (mkExtraction (html_to_text htmlContent) (js "html-fallback")))
      (fun htmlError => ret x)
  else ret x.

(** Lines 175-191: the bytes read as text, when there are under 20. *)
Definition plain_text_layer (buffer : buffer) (x : extraction) : M extraction :=
  if (List.length (textContent x) <? 20)%nat then
    emit DecodePlainText ;;;
    let plainText := toString_utf8 buffer in
    if (List.length (textContent x) <? List.length plainText)%nat
    then ret (mkExtraction (salvage plainText) (js "plain-text-fallback"))
    else ret x
  else ret x.

Definition extract_layers (w : world) (buffer : buffer) : M extraction :=
  x <- raw_text_layer w buffer (mkExtraction [] (js "unknown")) ;;
  x <- html_layer w buffer x ;;
  plain_text_layer buffer x.

Definition unreadable_message : jstr :=
  js "Document appears to be empty or completely unreadable. Please try saving the document in a different format (PDF recommended) or ensure the document contains readable text.".

Definition corrupted_message : jstr :=
  js "Document content appears to be corrupted or in an unsupported encoding. Please try converting to PDF format.".

(** Lines 196-205.  [specialCharRatio > 0.5] is [count / length > 0.5] on
    numbers: with [length] at least 10 it holds exactly when twice the count
    exceeds the length. *)
Definition validate_text (textContent : jstr) : M unit :=
  if (List.length textContent <? 10)%nat then throw (JsError unreadable_message)
  else
    let specials := count_class special_char textContent in
    if (List.length textContent <? 2 * specials)%nat
       && (List.length textContent <? 100)%nat
    then throw (JsError corrupted_message)
    else ret tt.

Definition doc_prompt (x : extraction) : jstr :=
  js "Extract all information from this resume document (" ++ extractionMethod x
  ++ js " extraction from DOCX/DOC format) and format it as JSON with the following structure:"
  ++ nl ++ nl ++ js "Resume content:" ++ nl ++ textContent x ++ nl ++ nl.

(** Lines 215-230. *)
Definition doc_error_response (fileName : jstr) (docError : thrown) : NextResponse :=
  let errorMessage := message_or docError (js "Unknown error") in
  mkResponse 200 (JObject [
    (js "success", JBool true);
    (js "fileName", JString fileName);
    (js "extractedData", empty_extractedData);
    (js "aiProcessed", JBool false);
    (js "message", JString (js "Document parsing failed: " ++ errorMessage
       ++ js ". Please fill the form manually or try converting your document to PDF format."));
    (js "parseError", JBool true) ]).

(** Lines 98-231. *)
Definition doc_branch (w : world) (buffer : buffer) : M jstr :=
  try_catch
    (x <- extract_layers w buffer ;;
     validate_text (textContent x) ;;;
     ret (doc_prompt x))
    (fun docError =>
       fileName <- get_fileName ;;
       return_ (doc_error_response fileName docError)).

(** ** The prompt (lines 78-96 and 238-362) *)

Definition is_image_or_pdf (file : File) : bool :=
  startsWith (type file) (js "image/") || Str.eqb (type file) (js "application/pdf").

Definition is_text (file : File) (fileExtension : option jstr) : bool :=
  Str.eqb (type file) (js "text/plain") || ext_is fileExtension "txt".

Definition is_doc (file : File) (fileExtension : option jstr) : bool :=
  Str.eqb (type file) (js "application/msword")
  || Str.eqb (type file)
       (js "application/vnd.openxmlformats-officedocument.wordprocessingml.document")
  || ext_is fileExtension "doc" || ext_is fileExtension "docx".

Definition binary_prompt (file : File) : jstr :=
  js "Extract all information from this resume "
  ++ (if Str.eqb (type file) (js "application/pdf") then js "PDF" else js "image")
  ++ js " and format it as JSON with the following structure:".

Definition text_prompt (textContent : jstr) : jstr :=
  js "Extract all information from this resume text and format it as JSON with the following structure:"
  ++ nl ++ nl ++ js "Resume content:" ++ nl ++ textContent ++ nl ++ nl.

(** The template literal of lines 238-362, with [~] written for the double
    quote, which the literal has and [~] has not. *)
Definition with_quotes (s : string) : jstr :=
  map (fun c => if c =? 126 then 34 else c) (js s).

Definition schema_prompt : jstr := with_quotes "
{
  ~name~: ~Full Name~,
  ~email~: ~email@example.com~,
  ~phone~: ~phone number~,
  ~dob~: ~Date of birth in YYYY-MM-DD format. This is VERY important - carefully look for any DOB, Date of Birth, Birth Date, or text containing 'born on' in the resume. When found, convert to YYYY-MM-DD format (e.g., 1990-05-15). If not found, return null. Do not mistake other dates like graduation or job start dates for DOB.~,
  ~location~: {
    ~city~: ~City name only. Extract just the city from the address, without any house number, street, or zip code. Look for context clues like 'residing in', 'based in', etc.~,
    ~state~: ~State or province name only. Extract just the state/province from the address.~,
    ~country~: ~Country name only. Extract just the country from the address. Default to 'India' if a country isn't explicitly mentioned but the resume appears to be from India.~
  },
  ~contactDetails~: {
    ~address~: ~address if available~,
    ~linkedin~: ~linkedin url if available~,
    ~github~: ~github url if available~,
    ~website~: ~personal website if available~,
    ~twitter~: ~twitter handle if available~
  },
  ~socialLinks~: [~array of social media links~],
  ~experience~: [
    {
      ~company~: ~Company Name~,
      ~position~: ~Job Title~,
      ~tenure~: ~Duration (e.g., Jan 2020 - Dec 2022)~,
      ~startMonth~: ~Start month (e.g., January, Jan)~,
      ~startYear~: ~Start year (e.g., 2020)~,
      ~endMonth~: ~End month if available, or 'Present' if current job~,
      ~endYear~: ~End year if available, or current year if current job~,
      ~isCurrentJob~: ~true or false based on whether this is their current position~,
      ~description~: ~Job description~,
      ~skills~: [~relevant skills used in this role - extract from job description~]
    }
  ],
  ~projects~: [
    {
      ~name~: ~Project Name~,
      ~link~: ~project url if available~,
      ~description~: ~project description~,
      ~skills~: [~technologies used~]
    }
  ],
  ~skills~: [
    ~COMPREHENSIVE array of ALL skills - extract from EVERYWHERE in the resume:~,
    ~1. TECHNICAL SKILLS (for tech professionals):~,
    ~   - Programming languages, frameworks, libraries, tools~,
    ~   - Databases, cloud platforms, DevOps tools~,
    ~   - Software, IDEs, version control systems~,
    ~2. PROFESSIONAL SKILLS (inferred from work experience):~,
    ~   - If they 'led a team' → Team Leadership, People Management~,
    ~   - If they 'managed projects' → Project Management, Planning~,
    ~   - If they 'presented to clients' → Presentation Skills, Client Relations~,
    ~   - If they 'analyzed data/reports' → Data Analysis, Analytical Thinking~,
    ~   - If they 'coordinated with stakeholders' → Stakeholder Management~,
    ~   - If they 'trained employees' → Training & Development, Mentoring~,
    ~   - If they 'handled budgets' → Financial Management, Budget Planning~,
    ~3. DOMAIN-SPECIFIC SKILLS (based on industry/role):~,
    ~   - Marketing: Campaign Management, SEO, Social Media, Content Creation~,
    ~   - Sales: Lead Generation, Customer Acquisition, Negotiation~,
    ~   - Finance: Financial Analysis, Risk Assessment, Compliance~,
    ~   - HR: Recruitment, Performance Management, Employee Relations~,
    ~   - Operations: Process Optimization, Supply Chain, Quality Control~,
    ~4. SOFT SKILLS (mentioned or clearly demonstrated):~,
    ~   - Communication, Problem-solving, Critical Thinking~,
    ~   - Collaboration, Adaptability, Time Management~,
    ~   - Customer Service, Attention to Detail, Multi-tasking~,
    ~5. TOOLS & SOFTWARE (any mentioned):~,
    ~   - Microsoft Office, CRM systems, ERP software~,
    ~   - Design tools, Analytics platforms, etc.~,
    ~BE VERY COMPREHENSIVE - if someone worked in a role, they likely have the core skills for that role even if not explicitly stated~
  ],
  ~education~: [
    {
      ~level~: ~Education level - classify exactly as one of: '10th', '12th', 'diploma', 'bachelor', 'master', 'phd', 'certificate'~,
      ~institution~: ~School/University/College Name~,
      ~degree~: ~Degree Name or Program Name~,
      ~field~: ~Field of Study or Subject~,
      ~year~: ~Graduation/Passing Year as a 4-digit number (e.g., 2020). Look for text like 'graduated', 'completed', 'class of', 'passed', etc.~,
      ~startYear~: ~Start year of education if available~,
      ~endYear~: ~End/graduation year if available~,
      ~score~: ~GPA/Percentage/CGPA if mentioned~,
      ~board~: ~For 10th/12th, extract the board name like CBSE, ICSE, State Board, etc.~
    }
  ],
  ~secondaryEducation~: {
    ~institution~: ~10th standard school name~,
    ~board~: ~Board name for 10th standard (like CBSE, ICSE, State Board)~,
    ~year~: ~Year of passing 10th standard~,
    ~percentage~: ~Percentage or grade obtained in 10th~
  },
  ~higherSecondaryEducation~: {
    ~institution~: ~12th standard school/college name~,
    ~board~: ~Board name for 12th standard~,
    ~stream~: ~Stream in 12th (like Science, Commerce, Arts)~,
    ~year~: ~Year of passing 12th standard~,
    ~percentage~: ~Percentage or grade obtained in 12th~
  },
  ~certifications~: [
    {
      ~name~: ~Certification Name~,
      ~issuer~: ~Issuing Organization~,
      ~date~: ~Date of Issue~
    }
  ],
  ~summary~: ~A long summary of the resume, including key achievements and career highlights, techniques used, and any notable contributions.~
}

CRITICAL SKILL EXTRACTION INSTRUCTIONS:
- Extract ALL skills comprehensively - both explicitly mentioned AND inferred from work experience
- For TECHNICAL professionals: Include programming languages, frameworks, tools, databases, cloud platforms, methodologies (Agile, DevOps), system architecture, etc.
- For NON-TECHNICAL professionals: Include soft skills, business skills, industry expertise, client management, sales, marketing, finance, operations, etc.
- ANALYZE job descriptions for implied skills:
  * ~managed team~ → Team Management, Leadership, People Management
  * ~client presentations~ → Presentation Skills, Client Relations, Communication
  * ~analyzed reports~ → Data Analysis, Critical Thinking, Report Writing
  * ~coordinated projects~ → Project Coordination, Planning, Organization
  * ~handled budgets~ → Financial Management, Budget Planning
  * ~trained staff~ → Training & Development, Mentoring, Knowledge Transfer
  * ~increased sales~ → Sales Skills, Business Development, Performance Optimization
  * ~social media campaigns~ → Social Media Marketing, Digital Marketing, Content Creation
- Include DOMAIN EXPERTISE based on job titles and industries
- For each role, consider what skills are REQUIRED to perform those duties successfully
- Aim for 20-40 comprehensive skills that truly represent their capabilities
- Be thorough but relevant - quality over quantity, but don't miss obvious skills

Return only the JSON object, no additional text or formatting.".

Definition unsupported_response : NextResponse :=
  mkResponse 400 (JObject [ (js "error", str "Unsupported file type") ]).

(** Lines 75-236: the prompt and the inline payload, by kind of file. *)
Definition prepare (w : world) (file : File) (fileExtension : option jstr)
  (buffer : buffer) : M (jstr * option inlineData) :=
  if is_image_or_pdf file then
    let base64Data := toString_base64 buffer in
    ret (binary_prompt file, Some (mkInline base64Data (type file)))
  else if is_text file fileExtension then
    let textContent := toString_utf8 buffer in
    ret (text_prompt textContent, None)
  else if is_doc file fileExtension then
    prompt <- doc_branch w buffer ;;
    ret (prompt, None)
  else return_ unsupported_response.

(** ** The model call with retries (lines 364-409) *)

Definition maxRetries : nat := 3.
Definition baseDelay : N := 1000.

(** Lines 384-391: the failure is an [Error] whose message looks transient. *)
Definition retryable (retryError : thrown) : bool :=
  match retryError with
  | JsError message =>
      let errorMessage := toLowerCase message in
      includes errorMessage (js "overloaded")
      || includes errorMessage (js "503")
      || includes errorMessage (js "rate limit")
      || includes errorMessage (js "temporarily unavailable")
  | NonError => false
  end.

(** [baseDelay * Math.pow(2, retryCount - 1)] *)
Definition delay (retryCount : nat) : N :=
  baseDelay * 2 ^ N.of_nat (retryCount - 1).

(** The [while] loop from the state in which [retryCount] attempts have
    failed; [Some result] is [result] after a [break], [None] is the [null]
    it keeps when the loop condition ends the loop.  [fuel] bounds the
    iterations: [retry_loop_fuel] shows that [S maxRetries] is never used up. *)
Fixpoint retry_loop (w : world) (prompt : jstr) (fileData : option inlineData)
  (fuel retryCount : nat) : M (option (outcome jstr)) :=
  if (retryCount <=? maxRetries)%nat then
    match fuel with
    | O => ret None
    | S fuel' =>
        emit (CallGenerateContent retryCount prompt fileData) ;;;
        try_catch
          (result <- await (generateContent w retryCount prompt fileData) ;;
           ret (Some result))
          (fun retryError =>
             let retryCount := S retryCount in
             if retryable retryError && (retryCount <=? maxRetries)%nat then
               emit (Sleep (delay retryCount)) ;;;
               retry_loop w prompt fileData fuel' retryCount
             else throw retryError)
    end
  else ret None.

Definition call_model (w : world) (prompt : jstr) (fileData : option inlineData)
  : M jstr :=
  result <- retry_loop w prompt fileData (S maxRetries) 0 ;;
  match result with
  | None => throw (JsError (js "Failed to get AI response after all retry attempts"))
  | Some result => await result
  end.

(** ** Reading the reply (lines 418-467) *)

(** [/```json\n?|\n?```/g] *)
Definition fence_re : re :=
  Alt (Seq [Lit "```json"; Opt (Chr 10)]) (Seq [Opt (Chr 10); Lit "```"]).

(** [/^```[a-zA-Z]*\n?/] *)
Definition leading_fence_re : re :=
  Seq [Bos; Lit "```";
       Star (Cls (fun c => ((97 <=? c) && (c <=? 122)) || ((65 <=? c) && (c <=? 90))));
       Opt (Chr 10)].

(** [/\n?```$/] *)
Definition trailing_fence_re : re := Seq [Opt (Chr 10); Lit "```"; Eos].

(** [[\s\S]] *)
Definition space_or_not (c : N) : bool := is_space c || negb (is_space c).

(** [/\{[\s\S]*\}/] *)
Definition braces_re : re := Seq [Chr 123; Star (Cls space_or_not); Chr 125].

(** Lines 420-425. *)
Definition clean_reply (text : jstr) : jstr :=
  let text := trim (replace_all fence_re [] text) in
  if startsWith text (js "```")
  then replace trailing_fence_re [] (replace leading_fence_re [] text)
  else text.

Definition parse_failure_response (error : string) (text : jstr)
  (parseError : thrown) : NextResponse :=
  mkResponse 500 (JObject [
    (js "error", str error);
    (js "rawResponse", JString (substring0 1000 text));
    (js "details", JString (message_or parseError (js "Unknown parsing error"))) ]).

(** Lines 427-433: the direct parse and the check of [skills]. *)
Definition direct_parse (w : world) (text : jstr) : M json :=
  match parse text with
  | None => throw (JsError (syntax_error_message w text))
  | Some extractedData =>
      skills <- read_skills w extractedData ;;
      if negb (truthy skills) || negb (isArray skills)
      then write_skills w extractedData
      else ret extractedData
  end.

(** Lines 443-467: the span from the first [{] to the last [}]. *)
Definition repair_parse (text : jstr) (parseError : thrown) : M json :=
  match match_ braces_re text with
  | Some jsonMatch =>
      match parse jsonMatch with
      | Some extractedData => ret extractedData
      | None =>
          return_ (parse_failure_response "Failed to parse AI response" text parseError)
      end
  | None =>
      return_ (parse_failure_response
                 "Failed to parse AI response - no valid JSON found" text parseError)
  end.

Definition read_reply (w : world) (text : jstr) : M json :=
  let text := clean_reply text in
  try_catch (direct_parse w text) (repair_parse text).

(** ** The handlers of the two [catch] clauses (lines 469-545, 554-575) *)

Definition fallback_body (fileName : jstr) (rest : list (jstr * json)) : json :=
  JObject ([ (js "success", JBool true);
             (js "fileName", JString fileName);
             (js "extractedData", empty_extractedData);
             (js "aiProcessed", JBool false);
             (js "parseError", JBool true) ] ++ rest).

Definition overloaded_response (fileName : jstr) : NextResponse :=
  mkResponse 200 (fallback_body fileName [
    (js "message", JString (
       js "AI service is temporarily overloaded due to high demand. Your file "
       ++ dquote ++ fileName ++ dquote
       ++ js " was uploaded successfully. Please fill the form manually, or try uploading again in 2-3 minutes for auto-parsing."));
    (js "retryRecommended", JBool true);
    (js "estimatedRetryTime", str "2-3 minutes") ]).

Definition quota_response (fileName : jstr) : NextResponse :=
  mkResponse 200 (fallback_body fileName [
    (js "message", JString (
       js "AI service quota exceeded for today. Your file "
       ++ dquote ++ fileName ++ dquote
       ++ js " was uploaded successfully. Please fill the form manually. Auto-parsing will be available again tomorrow."));
    (js "retryRecommended", JBool false);
    (js "quotaExceeded", JBool true) ]).

Definition credential_response : NextResponse :=
  mkResponse 401 (JObject [
    (js "error", str "AI service configuration error. Please contact support.");
    (js "details", str "Invalid or missing API key") ]).

Definition generic_ai_response (fileName : jstr) : NextResponse :=
  mkResponse 200 (fallback_body fileName [
    (js "message", str "AI processing encountered an error. File uploaded successfully - please fill the form manually.");
    (js "error", str "AI processing failed - manual entry available") ]).

Inductive ai_error_kind := Overloaded | Quota | Credential | Generic.

(** The order of the tests of lines 473-525. *)
Definition classify (aiError : thrown) : ai_error_kind :=
  match aiError with
  | JsError message =>
      let errorMessage := toLowerCase message in
      if includes errorMessage (js "overloaded") || includes errorMessage (js "503")
      then Overloaded
      else if includes errorMessage (js "quota") || includes errorMessage (js "limit")
      then Quota
      else if includes errorMessage (js "api key")
              || includes errorMessage (js "unauthorized")
      then Credential
      else Generic
  | NonError => Generic
  end.

Definition ai_error_response (fileName : jstr) (aiError : thrown) : NextResponse :=
  match classify aiError with
  | Overloaded => overloaded_response fileName
  | Quota => quota_response fileName
  | Credential => credential_response
  | Generic => generic_ai_response fileName
  end.

Definition upload_error_response (fileName : jstr) : NextResponse :=
  mkResponse 200 (fallback_body fileName [
    (js "message", str "File uploaded successfully, but AI processing failed. Please fill the form manually.");
    (js "error", str "AI processing failed, manual entry required") ]).

Definition not_configured_response : NextResponse :=
  mkResponse 500 (JObject [
    (js "error", str "AI processing not configured. Please check API key configuration.") ]).

(** Lines 547-552.  [extractedData] is the one value of a body that comes
    from outside the handler; the client reads it as [JSON.stringify] wrote
    it. *)
Definition success_response (file : File) (extractedData : json) : NextResponse :=
  mkResponse 200 (JObject [
    (js "success", JBool true);
    (js "fileName", JString (name file));
    (js "extractedData", serialized extractedData);
    (js "aiProcessed", JBool true) ]).

(** The body of lines 558-573 when [fileName] is [undefined]:
    [JSON.stringify] leaves the property out. *)
Definition unnamed_upload_error_response : NextResponse :=
  mkResponse 200 (JObject [
    (js "success", JBool true);
    (js "extractedData", empty_extractedData);
    (js "aiProcessed", JBool false);
    (js "parseError", JBool true);
    (js "message", str "File uploaded successfully, but AI processing failed. Please fill the form manually.");
    (js "error", str "AI processing failed, manual entry required") ]).

(** [!process.env.NEXT_PUBLIC_GEMINI] is false. *)
Definition configured (w : world) : bool :=
  match NEXT_PUBLIC_GEMINI w with
  | Some (_ :: _) => true
  | _ => false
  end.

(** ** [POST] *)

(** Lines 64-545: the inner [try] with its [catch (aiError)]. *)
Definition process (w : world) (file : File) (fileExtension : option jstr)
  (buffer : buffer) : M json :=
  try_catch
    (if negb (configured w) then return_ not_configured_response
     else
       p <- prepare w file fileExtension buffer ;;
       let prompt := fst p ++ schema_prompt in
       text <- call_model w prompt (snd p) ;;
       read_reply w text)
    (fun aiError =>
       fileName <- get_fileName ;;
       return_ (ai_error_response fileName aiError)).

(** A text field named [file] (lines 13-32).  The empty string is falsy, so
    it is answered as no file is.  Any other string has no property [name]:
    [fileName] becomes [undefined], [fileName.toLowerCase()] throws a
    [TypeError], and the handler of lines 554-575 answers with a body in
    which the undefined [fileName] is left out. *)
Definition POST_field (value : jstr) : M unit :=
  match value with
  | [] => return_ (mkResponse 400 (JObject [ (js "error", str "No file uploaded") ]))
  | _ :: _ => return_ unnamed_upload_error_response
  end.

Definition POST_body (w : world) (request : NextRequest) : M unit :=
  try_catch
    (file <- await (formData request) ;;
     match file with
     | None =>
         return_ (mkResponse 400 (JObject [ (js "error", str "No file uploaded") ]))
     | Some (Field value) => POST_field value
     | Some (Uploaded file) =>
         set_fileName (name file) ;;;
         fileName <- get_fileName ;;
         let fileExtension := fileExtension_of fileName in
         if negb (isValidMimeType file) && negb (isValidExtension fileExtension)
         then return_ (invalid_type_response file fileExtension)
         else
           let buffer := bytes file in
           extractedData <- process w file fileExtension buffer ;;
           return_ (success_response file extractedData)
     end)
    (fun error =>
       fileName <- get_fileName ;;
       return_ (upload_error_response fileName)).

(** The handler: how its body completes, and the calls it made. *)
Definition POST (w : world) (request : NextRequest)
  : completion unit * list event :=
  let (c, l) := POST_body w request (mkLocals (js "unknown") []) in
  (c, trace l).

(** The response of a completion; [None] when the handler threw or ended
    without a [return]. *)
Definition response_of (c : completion unit * list event) : option NextResponse :=
  match fst c with
  | Return r => Some r
  | _ => None
  end.

End Handler.
Import Handler.

(* ================================================================== *)
(** * The client hook: [uploadMultipleFiles] of [useFileUpload] *)
(* ================================================================== *)

Module Hook.

(** What [fetch] resolves to: [response.ok], [response.status], and the
    outcome of [response.json()]. *)
Record Response := mkFetched {
  ok : bool;
  status : N;
  json_body : outcome json }.

(** The browser: the outcome of posting a file to the endpoint, the
    engine's [Number::toString], and the message the engine gives the
    [TypeError] of reading a property of [null]. *)
Record browser := mkBrowser {
  fetch : File -> outcome Response;
  number_to_string : double -> jstr;
  null_read_message : jstr }.

(** [Array.prototype.join(',')] of strings. *)
Fixpoint join (l : list jstr) : jstr :=
  match l with
  | [] => []
  | [s] => s
  | s :: rest => s ++ js "," ++ join rest
  end.

(** The string the [Error] constructor makes of its argument. *)
Fixpoint ToString (b : browser) (v : json) : jstr :=
  match v with
  | JNull => js "null"
  | JBool true => js "true"
  | JBool false => js "false"
  | JNumber value => number_to_string b value
  | JString s => s
  | JArray items =>
      join (map (fun x => match x with JNull => [] | _ => ToString b x end) items)
  | JObject _ => js "[object Object]"
  end.

(** [new Error(error.error || 'Upload failed')] for the body of a response
    that is not ok. *)
Definition upload_error (b : browser) (error : json) : thrown :=
  match error with
  | JNull => JsError (null_read_message b)
  | JObject fields =>
      if truthy (get fields (js "error"))
      then match get fields (js "error") with
           | Some v => JsError (ToString b v)
           | None => JsError (js "Upload failed")
           end
      else JsError (js "Upload failed")
  | _ => JsError (js "Upload failed")
  end.

(** The [try] block of one file's task (lines 747-772). *)
Definition post_file (b : browser) (file : File) : outcome json :=
  match fetch b file with
  | Throws e => Throws e
  | Ok response =>
      if negb (ok response) then
        match json_body response with
        | Throws e => Throws e
        | Ok error => Throws (upload_error b error)
        end
      else json_body response
  end.

(** The element a failed file leaves in the list (lines 774-780). *)
Definition failed_result (file : File) (error : thrown) : json :=
  JObject [ (js "success", JBool false);
            (js "fileName", JString (name file));
            (js "filePath", str "");
            (js "extractedData", JObject []);
            (js "error", JString (message_or error (js "Upload failed"))) ].

(** One file's task: it always fulfils. *)
Definition upload_task (b : browser) (file : File) : json :=
  match post_file b file with
  | Ok result => result
  | Throws error => failed_result file error
  end.

(** [Promise.all]: every promise writes its value into the slot of its own
    index when it fulfils; the array is handed over once no slot is empty.
    [order] lists the indices in the order in which the promises fulfil. *)
Fixpoint write_slot {A} (i : nat) (v : A) (slots : list (option A))
  : list (option A) :=
  match slots, i with
  | [], _ => []
  | _ :: rest, O => Some v :: rest
  | s :: rest, S i' => s :: write_slot i' v rest
  end.

Fixpoint fulfil {A} (promises : list A) (order : list nat)
  (slots : list (option A)) : list (option A) :=
  match order with
  | [] => slots
  | i :: order' =>
      match nth_error promises i with
      | Some v => fulfil promises order' (write_slot i v slots)
      | None => fulfil promises order' slots
      end
  end.

Fixpoint all_filled {A} (slots : list (option A)) : option (list A) :=
  match slots with
  | [] => Some []
  | None :: _ => None
  | Some v :: rest =>
      match all_filled rest with
      | Some vs => Some (v :: vs)
      | None => None
      end
  end.

Definition Promise_all {A} (promises : list A) (order : list nat)
  : option (list A) :=
  all_filled (fulfil promises order (map (fun _ => None) promises)).

(** [uploadMultipleFiles(files)]: the list it resolves to, when the uploads
    complete in the order [order]; [None] while some upload is outstanding. *)
Definition uploadMultipleFiles (b : browser) (order : list nat)
  (files : list File) : option (list json) :=
  let uploadPromises := map (upload_task b) files in
  Promise_all uploadPromises order.

End Hook.

(* ================================================================== *)
(** * Vocabulary of the statements *)
(* ================================================================== *)

Module Spec.

(** The request that uploads [file]. *)
Definition upload (file : File) : NextRequest := mkRequest (Ok (Some (Uploaded file))).

(** The file passes the allow-list: its type or its extension is listed. *)
Definition accepted (file : File) : bool :=
  isValidMimeType file || isValidExtension (fileExtension_of (name file)).

(** The branch of lines 79-236 that takes the file. *)
Inductive kind := Binary | Text | Document | Unsupported.

Definition route (file : File) : kind :=
  let fileExtension := fileExtension_of (name file) in
  if is_image_or_pdf file then Binary
  else if is_text file fileExtension then Text
  else if is_doc file fileExtension then Document
  else Unsupported.

(** What a layer's call yields: its text, nothing when it throws. *)
Definition yield (o : outcome jstr) : jstr :=
  match o with
  | Ok v => v
  | Throws _ => []
  end.


(** A property of the body of a response. *)
Definition field (r : NextResponse) (k : string) : option json :=
  match body r with
  | JObject fields => get fields (js k)
  | _ => None
  end.

(** The success-shaped fallback: status 200, [success:true], the empty
    record, [aiProcessed:false]. *)
Definition fallback_shaped (r : NextResponse) : Prop :=
  Handler.status r = 200
  /\ field r "success" = Some (JBool true)
  /\ field r "extractedData" = Some empty_extractedData
  /\ field r "aiProcessed" = Some (JBool false).

(** The keys the claims ask of [extractedData]. *)
Definition required_keys : list jstr :=
  [ js "name"; js "email"; js "phone"; js "skills"; js "experience";
    js "education"; js "summary" ].

Definition has_required_keys (extractedData : json) : bool :=
  match extractedData with
  | JObject fields => forallb (has fields) required_keys
  | _ => false
  end.

(** The invocations of the model in a trace. *)
Definition attempts (tr : list event) : nat :=
  List.length (filter (fun e => match e with
                                | CallGenerateContent _ _ _ => true
                                | _ => false
                                end) tr).

(** The handler called the document library or the model. *)
Definition extraction_attempted (tr : list event) : bool :=
  existsb (fun e => match e with
                    | CallExtractRawText | CallGenerateContent _ _ _ => true
                    | _ => false
                    end) tr.

(** The text each layer of the document extraction yields. *)
Definition raw_yield (w : world) (buffer : buffer) : jstr :=
  yield (extractRawText w buffer).

Definition html_yield (w : world) (buffer : buffer) : jstr :=
  match convertToHtml w buffer with
  | Ok htmlContent => html_to_text htmlContent
  | Throws _ => []
  end.

Definition salvage_yield (buffer : buffer) : jstr :=
  salvage (toString_utf8 buffer).

(** Step 6 of the specification, in its words: a missing or invalid
    [skills] array becomes the empty array. *)
Definition skills_normalized (fields : list (jstr * json)) : list (jstr * json) :=
  if isArray (get fields (js "skills")) then fields
  else set fields (js "skills") (JArray []).

(** What lines 75-236 make of an uploaded file: the prompt and the inline
    payload, or the response with which they end the request. *)
Definition prepared (w : world) (file : File)
  : completion (jstr * option inlineData) * locals :=
  prepare w file (fileExtension_of (name file)) (bytes file) (mkLocals (name file) []).

(** The data that are in a reply: the value of the reply, cleaned of its
    fences, when that is the JSON text of an object (its [skills] are then
    normalized) or of an array; else the value of the span from the first
    [{] to the last [}] of the cleaned reply, when there is such a span and
    it is JSON text.  There are none in any other reply, so in none that is
    the JSON text of [null], a boolean, a number or a string and has no such
    span. *)
Definition reply_data (reply : jstr) : option json :=
  let text := clean_reply reply in
  match parse text with
  | Some (JObject fields) => Some (JObject (skills_normalized fields))
  | Some (JArray items) => Some (JArray items)
  | _ =>
      match match_ braces_re text with
      | Some span => parse span
      | None => None
      end
  end.

(** The response to a reply without data: the error says whether a span in
    braces was found, and the details are the message of the first failure,
    that of [JSON.parse] or that of the check of [skills]. *)
Definition unreadable_response (w : world) (reply : jstr) : NextResponse :=
  let text := clean_reply reply in
  parse_failure_response
    match match_ braces_re text with
    | Some _ => "Failed to parse AI response"
    | None => "Failed to parse AI response - no valid JSON found"
    end
    text
    match parse text with
    | Some v => JsError (type_error_message w v)
    | None => JsError (syntax_error_message w text)
    end.

(** An [Error] whose message, in lower case, speaks of the API key or of
    authorization and has none of the words by which an overload or a quota
    is known. *)
Definition credential_error (e : thrown) : bool :=
  match e with
  | JsError message =>
      let m := toLowerCase message in
      (includes m (js "api key") || includes m (js "unauthorized"))
      && negb (includes m (js "overloaded") || includes m (js "503")
               || includes m (js "quota") || includes m (js "limit"))
  | NonError => false
  end.

(** The answers [POST] gives to an upload that passed the allow-list, each
    with what brought it about and the trace it leaves. *)
Inductive answer (w : world) (file : File) : NextResponse -> list event -> Prop :=
| not_configured_answer :
    configured w = false ->
    answer w file not_configured_response []
| unsupported_answer :
    configured w = true -> route file = Unsupported ->
    answer w file unsupported_response []
| document_answer e tr :
    configured w = true -> route file = Document ->
    extraction_attempted tr = true ->
    answer w file (doc_error_response (name file) e) tr
| ai_error_answer prompt fileData l l' e tr :
    configured w = true -> extraction_attempted tr = true ->
    call_model w prompt fileData l = (Throw e, l') ->
    answer w file (ai_error_response (name file) e) tr
| parse_failure_answer reply l err e tr :
    configured w = true -> extraction_attempted tr = true ->
    read_reply w reply l
    = (Return (parse_failure_response err (clean_reply reply) e), l) ->
    answer w file (parse_failure_response err (clean_reply reply) e) tr
| success_answer reply l v tr :
    configured w = true -> extraction_attempted tr = true ->
    read_reply w reply l = (Normal v, l) ->
    answer w file (success_response file v) tr.

(** The first code unit of the [error] message of a response, and whether
    its body has exactly six properties: two marks that tell the answers
    apart. *)
Definition error_initial (r : NextResponse) : N :=
  match field r "error" with
  | Some (JString (c :: _)) => c
  | _ => 0
  end.

Definition has_six_properties (r : NextResponse) : bool :=
  match body r with
  | JObject (_ :: _ :: _ :: _ :: _ :: _ :: []) => true
  | _ => false
  end.

(** A reply in a fence, with the [json] tag or without, and prose after
    the fence. *)
Definition fenced (tagged : bool) (object prose : jstr) : jstr :=
  (if tagged then js "```json" else js "```")
  ++ nl ++ object ++ nl ++ js "```" ++ prose.

(** The text has no fence (three backticks in a row). *)
Definition fence : jstr := js "```".

Definition fence_free (s : jstr) : bool := negb (includes s fence).

Definition brace_free (s : jstr) : bool := forallb (fun c => negb (c =? 125)) s.

(** Some code unit of the text is no white space. *)
Definition visible (s : jstr) : bool := existsb (fun c => negb (is_space c)) s.

(** What follows the star in [braces_re]: the closing brace, then the end
    of the match. *)
Definition closing (total : nat) (s : jstr) : option jstr :=
  run total (Chr 125) s (fun rest => Some rest).

(** The parser is in the middle of a number. *)
Definition in_number (st : state) : bool :=
  match mode_of st with
  | InNumber _ _ => true
  | _ => false
  end.

(** A property of a JSON object. *)
Definition property (v : json) (k : string) : option json :=
  match v with
  | JObject fields => get fields (js k)
  | _ => None
  end.

(** The invariant of [Promise.all]: a slot holds nothing, or the value of
    the promise of its index. *)
Definition slots_agree {A} (promises : list A) (slots : list (option A)) : Prop :=
  List.length slots = List.length promises
  /\ forall j v, nth_error slots j = Some (Some v) -> nth_error promises j = Some v.

End Spec.
Import Spec.

(* ================================================================== *)
(** * Sample worlds and files *)
(* ================================================================== *)

Module Sample.

(** A world with the credential set, in which the model's [n]-th invocation
    ends as [script n] says and the document library gives [raw] and [html]. *)
Definition world_of (raw html : outcome jstr)
  (script : nat -> outcome (outcome jstr)) : world :=
  mkWorld (Some (js "secret"))
          (fun _ => raw) (fun _ => html)
          (fun n _ _ => script n)
          (fun _ => js "Unexpected token")
          (fun _ => js "Cannot read properties").

Definition not_a_document : outcome jstr :=
  Throws (JsError (js "Could not find file in options")).

(** The model answers every invocation with [reply]. *)
Definition replying (reply : jstr) : world :=
  world_of not_a_document not_a_document (fun _ => Ok (Ok reply)).

(** The model throws [e] on its first [n] invocations, then answers. *)
Definition failing_first (n : nat) (e : thrown) (reply : jstr) : world :=
  world_of not_a_document not_a_document
    (fun k => if (k <? n)%nat then Throws e else Ok (Ok reply)).

Definition unconfigured : world :=
  mkWorld None (fun _ => not_a_document) (fun _ => not_a_document)
          (fun _ _ _ => Ok (Ok (js "{}")))
          (fun _ => js "Unexpected token")
          (fun _ => js "Cannot read properties").


Definition bad_request_error : thrown :=
  JsError (js "[400 Bad Request] Request contains an invalid argument.").

Definition cv_txt : File :=
  mkFile (js "cv.txt") (js "text/plain") (list_byte_of_string "Jane Doe, engineer").

Definition cv_docx : File :=
  mkFile (js "cv.docx")
         (js "application/vnd.openxmlformats-officedocument.wordprocessingml.document")
         (list_byte_of_string "PK").

Definition photo_png : File :=
  mkFile (js "photo.png") (js "application/octet-stream") (list_byte_of_string "PNG").

Definition notes_txt_as_pdf : File :=
  mkFile (js "notes.txt") (js "application/pdf") (list_byte_of_string "hello").

Definition archive_zip : File :=
  mkFile (js "archive.zip") (js "application/zip") (list_byte_of_string "PK").

Definition empty_txt : File := mkFile (js "empty.txt") (js "text/plain") [].

(** The prompt and the model call of [cv_txt]. *)
Definition cv_prompt : jstr :=
  text_prompt (toString_utf8 (bytes cv_txt)) ++ schema_prompt.

Definition cv_attempt (n : nat) : event := CallGenerateContent n cv_prompt None.

(** Worlds for the document layers: a document with no text at all, one
    whose raw text is long enough, one that only the HTML conversion reads. *)
Definition empty_docx_world : world :=
  world_of (Ok []) (Ok (js "<p></p>")) (fun _ => Ok (Ok (js "{}"))).

Definition long_raw_world : world :=
  world_of (Ok (js "Jane Doe - Software Engineer - jane@example.com - Python, Rust"))
           not_a_document (fun _ => Ok (Ok (js "{}"))).

Definition html_only_world : world :=
  world_of (Ok (js "Jane"))
           (Ok (js "<p>Jane Doe</p><p>Software Engineer, Python</p>"))
           (fun _ => Ok (Ok (js "{}"))).

(** Replies: an object, with a sentence before it, in a fence with prose
    after it.  [~] stands for the double quote, as in [schema_prompt]. *)
Definition jane_inner : jstr := with_quotes "~name~:~Jane~".
Definition jane_object : jstr := 123 :: jane_inner ++ [125].
Definition prose_then_json : jstr := js "Here is the data: " ++ jane_object.
Definition plain_prose : jstr := nl ++ js "I inferred the `skills` from the job titles.".
Definition braced_prose : jstr := nl ++ js "Fields in {braces} are inferred.".
Definition fenced_summary : jstr :=
  with_quotes "{~summary~:~Uses ``` fences~}".

(** A browser whose [fetch] reaches the handler in world [w]. *)
Definition browser_of (w : world) : Hook.browser :=
  Hook.mkBrowser
    (fun file =>
       match POST w (upload file) with
       | (Return r, _) =>
           Ok (Hook.mkFetched
                 ((200 <=? Handler.status r) && (Handler.status r <? 300))
                 (Handler.status r) (Ok (body r)))
       | _ => Throws (JsError (js "Failed to fetch"))
       end)
    Number_toString
    (js "Cannot read properties of null (reading 'error')").

Definition three_files : list File := [cv_txt; archive_zip; empty_txt].

End Sample.

(* ================================================================== *)
(** * The client hook: [uploadSingleFile] of [useFileUpload] *)
(* ================================================================== *)

Module Single.

(** [error.includes('Word document')] for a truthy [error]: a string is
    searched, an array is asked for an element that is this string, and a
    boolean, a number or an object has no such method ([None]: the call
    throws a [TypeError]). *)
Definition includes_word_document (error : json) : option bool :=
  match error with
  | JString s => Some (includes s (js "Word document"))
  | JArray items =>
      Some (existsb (fun x => match x with
                              | JString s => Str.eqb s (js "Word document")
                              | _ => false
                              end) items)
  | _ => None
  end.

(** The test of line 695,
    [response.status === 400 && result.error && result.error.includes(...)]:
    [Some error] when it holds, [error] being [result.error].  Reading a
    property of [null] throws; a boolean, a number, a string and an array
    have no property [error].  [not_a_function v] is the message of the
    [TypeError] of calling [v.includes] where there is no such method. *)
Definition word_document_error (b : Hook.browser) (not_a_function : json -> jstr)
  (response : Hook.Response) (result : json) : outcome (option json) :=
  if Hook.status response =? 400 then
    match result with
    | JNull => Throws (JsError (Hook.null_read_message b))
    | JObject fields =>
        match get fields (js "error") with
        | Some error =>
            if truthy (Some error) then
              match includes_word_document error with
              | Some true => Ok (Some error)
              | Some false => Ok None
              | None => Throws (JsError (not_a_function error))
              end
            else Ok None
        | None => Ok None
        end
    | _ => Ok None
    end
  else Ok None.

(** The result of lines 697-713, for manual entry. *)
Definition manual_entry_result (b : Hook.browser) (file : File) (error : json) : json :=
  JObject [ (js "success", JBool false);
            (js "fileName", JString (name file));
            (js "filePath", str "");
            (js "extractedData", empty_extractedData);
            (js "error", error);
            (js "aiProcessed", JBool false);
            (js "message",
             JString (Hook.ToString b error ++ js " You can still fill the form manually.")) ].

(** [uploadSingleFile(file)] (lines 666-730): what its promise settles to.
    The [catch] clause throws again what it caught, and the [finally] block
    touches the state of the hook only. *)
Definition uploadSingleFile (b : Hook.browser) (not_a_function : json -> jstr)
  (file : File) : outcome json :=
  match Hook.fetch b file with
  | Throws e => Throws e
  | Ok response =>
      match Hook.json_body response with
      | Throws e => Throws e
      | Ok result =>
          if negb (Hook.ok response) then
            match word_document_error b not_a_function response result with
            | Throws e => Throws e
            | Ok (Some error) => Ok (manual_entry_result b file error)
            | Ok None => Throws (Hook.upload_error b result)
            end
          else Ok result
      end
  end.

End Single.

(* ================================================================== *)
(** * The client hook: the simulated progress and its timers *)
(* ================================================================== *)

Module Progress.

(** A percentage as the hook computes it: a number, or [NaN]. *)
Inductive percent :=
| Num (n : N)
| NaN.

(** [uploadProgress]: the own properties of the object, a percentage by
    file name.  The hook reads it by key only, so the order of the keys is
    of no account.  The object is made by object literals, so that it
    inherits from [Object.prototype]. *)
Definition progress := list (jstr * percent).

(** The properties of [Object.prototype]: eleven functions and the accessor
    [__proto__], which gives the prototype itself. *)
Definition inherited_names : list jstr :=
  [ js "constructor"; js "hasOwnProperty"; js "isPrototypeOf";
    js "propertyIsEnumerable"; js "toLocaleString"; js "toString"; js "valueOf";
    js "__defineGetter__"; js "__defineSetter__"; js "__lookupGetter__";
    js "__lookupSetter__"; js "__proto__" ].

Definition inherited (k : jstr) : bool := array_includes inherited_names k.

(** The own property [k] of the object. *)
Fixpoint own (p : progress) (k : jstr) : option percent :=
  match p with
  | [] => None
  | (k', v) :: rest => if Str.eqb k' k then Some v else own rest k
  end.

(** What [p[k]] gives: the percentage of an own property, else a function
    or an object that is inherited, else [undefined]. *)
Inductive element :=
| Stored (v : percent)
| Inherited
| Undefined.

Definition read (p : progress) (k : jstr) : element :=
  match own p k with
  | Some v => Stored v
  | None => if inherited k then Inherited else Undefined
  end.

(** [{ ...p, [k]: v }]: a computed key makes an own property, whatever the
    key. *)
Fixpoint write (p : progress) (k : jstr) (v : percent) : progress :=
  match p with
  | [] => [(k, v)]
  | (k', v') :: rest =>
      if Str.eqb k' k then (k', v) :: rest else (k', v') :: write rest k v
  end.

(** [o[k] = v] for a number [v]: the inherited accessor [__proto__] takes
    the assignment and ignores a number; any other key gets an own
    property. *)
Definition assign (p : progress) (k : jstr) (v : percent) : progress :=
  if Str.eqb k (js "__proto__") then p else write p k v.

(** [Math.min((x || 0) + step, 90)]: zero, [NaN] and [undefined] are falsy;
    a function or an object is truthy, and its sum with a number is a
    string that [Math.min] reads as [NaN]. *)
Definition next (x : element) (step : N) : percent :=
  match x with
  | Stored (Num v) => Num (N.min (v + step) 90)
  | Stored NaN => Num (N.min step 90)
  | Undefined => Num (N.min step 90)
  | Inherited => NaN
  end.

(** The callback of the interval (lines 676-679 and 752-755):
    [prev => ({ ...prev, [name]: Math.min((prev[name] || 0) + step, 90) })]. *)
Definition advance (step : N) (name : jstr) (prev : progress) : progress :=
  write prev name (next (read prev name) step).

(** A call of the hook: [uploadSingleFile(file)] or
    [uploadMultipleFiles(files)]. *)
Inductive call :=
| One (file : File)
| Many (files : list File).

Definition files_of (c : call) : list File :=
  match c with
  | One file => [file]
  | Many files => files
  end.

(** The step of the interval: 10 every 500 ms for one file, 5 every 300 ms
    for several. *)
Definition increment (c : call) : N :=
  match c with
  | One _ => 10
  | Many _ => 5
  end.

(** Lines 737-741: [files.forEach(file => { initialProgress[file.name] = 0 })]. *)
Definition initialProgress (files : list File) : progress :=
  fold_left (fun p file => assign p (name file) (Num 0)) files [].

(** The progress the call sets at its start (lines 668 and 741). *)
Definition initial (c : call) : progress :=
  match c with
  | One file => [(name file, Num 0)]
  | Many files => initialProgress files
  end.

(** The progress once the response of a file has come (lines 688 and 764):
    the single upload sets the whole map, the batch updates the one key. *)
Definition received (c : call) (name : jstr) (prev : progress) : progress :=
  match c with
  | One _ => [(name, Num 100)]
  | Many _ => write prev name (Num 100)
  end.

(** Where the task of a file stands: [fetch] is outstanding, the body of the
    response is being read, or the task has settled. *)
Inductive stage := Fetching | Reading | Done.

(** The state of the hook during one call on a fresh hook: the two pieces
    of React state, the files (by index) whose interval is set, the stages
    of the tasks, and whether the timeout of the [finally] block is
    pending. *)
Record hook := mkHook {
  isUploading : bool;
  uploadProgress : progress;
  intervals : list nat;
  stages : list stage;
  reset_pending : bool }.

Fixpoint set_stage (i : nat) (s : stage) (l : list stage) : list stage :=
  match l, i with
  | [], _ => []
  | _ :: rest, O => s :: rest
  | x :: rest, S i' => x :: set_stage i' s rest
  end.

Definition all_done (l : list stage) : bool :=
  forallb (fun s => match s with Done => true | _ => false end) l.

(** The [finally] block (lines 724-729 and 786-791), which runs once every
    task has settled: [setIsUploading(false)] and the timeout of 2 s. *)
Definition settle (h : hook) : hook :=
  if all_done (stages h)
  then mkHook false (uploadProgress h) (intervals h) (stages h) true
  else h.

(** The synchronous start of the call: the state is set, and every file has
    its interval set and its [fetch] sent. *)
Definition begin (c : call) : hook :=
  settle (mkHook true (initial c)
            (seq 0 (List.length (files_of c)))
            (map (fun _ => Fetching) (files_of c))
            false).

(** What happens next, as the event loop decides. *)
Inductive happening :=
| Fires (i : nat)
| Responds (i : nat)
| BodyRead (i : nat)
| Elapses.

(** One turn of the event loop.  An interval that is set fires; the [fetch]
    of a file settles: if it resolves the interval is cleared and the
    progress set to 100, and the body is read next, and if it rejects the
    task settles at once, the exception going past [clearInterval]; the
    reading of a body settles, and the task with it; the timeout empties the
    progress. *)
Definition step (c : call) (b : Hook.browser) (h : hook) (e : happening) : hook :=
  match e with
  | Fires i =>
      match nth_error (files_of c) i with
      | Some file =>
          if existsb (Nat.eqb i) (intervals h)
          then mkHook (isUploading h)
                 (advance (increment c) (name file) (uploadProgress h))
                 (intervals h) (stages h) (reset_pending h)
          else h
      | None => h
      end
  | Responds i =>
      match nth_error (files_of c) i, nth_error (stages h) i with
      | Some file, Some Fetching =>
          match Hook.fetch b file with
          | Ok _ =>
              mkHook (isUploading h)
                (received c (name file) (uploadProgress h))
                (filter (fun j => negb (Nat.eqb i j)) (intervals h))
                (set_stage i Reading (stages h)) (reset_pending h)
          | Throws _ =>
              settle (mkHook (isUploading h) (uploadProgress h) (intervals h)
                        (set_stage i Done (stages h)) (reset_pending h))
          end
      | _, _ => h
      end
  | BodyRead i =>
      match nth_error (stages h) i with
      | Some Reading =>
          settle (mkHook (isUploading h) (uploadProgress h) (intervals h)
                    (set_stage i Done (stages h)) (reset_pending h))
      | _ => h
      end
  | Elapses =>
      if reset_pending h
      then mkHook (isUploading h) [] (intervals h) (stages h) false
      else h
  end.

(** The state after the happenings [evs], from the start of the call. *)
Definition run (c : call) (b : Hook.browser) (evs : list happening) : hook :=
  fold_left (step c b) evs (begin c).

(** How often the interval of file [i] is among the happenings. *)
Definition fired (i : nat) (evs : list happening) : nat :=
  List.length (filter (fun e => match e with
                                | Fires j => Nat.eqb i j
                                | _ => false
                                end) evs).

(** The timeout is not among the happenings. *)
Definition before_reset (evs : list happening) : bool :=
  forallb (fun e => match e with Elapses => false | _ => true end) evs.

(** The [fetch] of a file rejects. *)
Definition rejects (b : Hook.browser) (file : File) : Prop :=
  exists e, Hook.fetch b file = Throws e.

(** What every state of a call satisfies: there is a stage for every file;
    the intervals that are set are those of the files whose [fetch] is
    outstanding or has rejected; [isUploading] holds until every task has
    settled; and the timeout is pending only after that. *)
Definition invariant (c : call) (b : Hook.browser) (h : hook) : Prop :=
  List.length (stages h) = List.length (files_of c)
  /\ (forall i,
        In i (intervals h)
        <-> exists file,
              nth_error (files_of c) i = Some file
              /\ (nth_error (stages h) i = Some Fetching \/ rejects b file))
  /\ isUploading h = negb (all_done (stages h))
  /\ (all_done (stages h) = false -> reset_pending h = false).

(** The file has its own property in the progress from the start of the
    call: the single upload makes it by an object literal, the batch by an
    assignment, which [__proto__] takes for itself. *)
Definition own_from_start (c : call) (file : File) : bool :=
  match c with
  | One _ => true
  | Many _ => negb (Str.eqb (name file) (js "__proto__"))
  end.

(** What the hook holds for a file whose interval has fired [k] times and
    whose response has not come.  A file that has its own property from the
    start goes up by the step, to 90 at most.  The other one starts without
    an own property, so that the first firing reads the inherited object
    and stores [NaN], which the second firing reads as zero. *)
Definition simulated (c : call) (file : File) (k : nat) : option percent :=
  if own_from_start c file
  then Some (Num (N.min (increment c * N.of_nat k) 90))
  else match k with
       | O => None
       | S O => Some NaN
       | S (S k') => Some (Num (N.min (increment c * N.of_nat (S k')) 90))
       end.

(** No two of the names are the same. *)
Fixpoint distinct (names : list jstr) : bool :=
  match names with
  | [] => true
  | n :: rest => negb (existsb (Str.eqb n) rest) && distinct rest
  end.

(** The response of the file has come: its [fetch] resolves and is no
    longer outstanding. *)
Definition response_received (b : Hook.browser) (h : hook) (i : nat) (file : File)
  : bool :=
  match Hook.fetch b file with
  | Ok _ => true
  | Throws _ => false
  end
  && match nth_error (stages h) i with
     | Some Reading | Some Done => true
     | _ => false
     end.

End Progress.

(* ================================================================== *)
(** * Further vocabulary: responses, traces, document layers *)
(* ================================================================== *)

Module Notions.

(** A response that reports success to the client: status 200 and the four
    properties every such body has. *)
Definition reports_success (r : NextResponse) : Prop :=
  Handler.status r = 200
  /\ field r "success" = Some (JBool true)
  /\ (exists n, field r "fileName" = Some (JString n))
  /\ (exists v, field r "extractedData" = Some v)
  /\ (exists b, field r "aiProcessed" = Some (JBool b)).

(** A response that reports an error: an error status, no [success] flag and
    under [error] a string that is not empty. *)
Definition reports_error (r : NextResponse) : Prop :=
  In (Handler.status r) [400; 401; 500]
  /\ field r "success" = None
  /\ exists m, field r "error" = Some (JString m)
               /\ truthy (Some (JString m)) = true.

(** The waits in a trace, in order. *)
Fixpoint sleeps (tr : list event) : list N :=
  match tr with
  | [] => []
  | Sleep ms :: tr' => ms :: sleeps tr'
  | _ :: tr' => sleeps tr'
  end.

(** [n] invocations of the model from invocation [from] on, each but the
    last followed by the wait of lines 394-396. *)
Fixpoint schedule (prompt : jstr) (fileData : option inlineData) (from n : nat)
  : list event :=
  match n with
  | O => []
  | S n' =>
      CallGenerateContent from prompt fileData
      :: match n' with
         | O => []
         | S _ => Sleep (delay (S from)) :: schedule prompt fileData (S from) n'
         end
  end.

(** The calls of the document layers: the raw text, then the HTML conversion
    and the plain-text reading where they are made. *)
Definition layer_calls (html plain : bool) : list event :=
  CallExtractRawText
  :: (if html then [CallConvertToHtml] else [])
  ++ (if plain then [DecodePlainText] else []).

(** What the raw-text layer leaves: the text with its tag, or the initial
    values when the extraction throws. *)
Definition raw_extraction (w : world) (buffer : buffer) : extraction :=
  match extractRawText w buffer with
  | Ok raw => mkExtraction raw (js "raw-text")
  | Throws _ => mkExtraction [] (js "unknown")
  end.

(** What the first two layers leave: the HTML text where the conversion was
    made and gave one, whatever its length, else what the raw-text layer
    left. *)
Definition extraction_before_salvage (w : world) (buffer : buffer) : extraction :=
  if (List.length (raw_yield w buffer) <? 50)%nat then
    match convertToHtml w buffer with
    | Ok _ => mkExtraction (html_yield w buffer) (js "html-fallback")
    | Throws _ => raw_extraction w buffer
    end
  else raw_extraction w buffer.

(** What the three layers leave: the salvaged text where fewer than 20 code
    units were left and the decoded bytes are more than those, else what the
    first two layers left. *)
Definition extraction_of_layers (w : world) (buffer : buffer) : extraction :=
  let x := extraction_before_salvage w buffer in
  if (List.length (textContent x) <? 20)%nat
     && (List.length (textContent x) <? List.length (toString_utf8 buffer))%nat
  then mkExtraction (salvage_yield buffer) (js "plain-text-fallback")
  else x.

(** The first [n] invocations of the model all failed with an error the
    loop retries. *)
Definition all_retryable (w : world) (prompt : jstr) (fileData : option inlineData)
  (n : nat) : Prop :=
  forall j, (j < n)%nat ->
    exists e, generateContent w j prompt fileData = Throws e /\ retryable e = true.

(** An [Error] whose message speaks of a rate limit and neither of an
    overload nor of status 503. *)
Definition rate_limited (e : thrown) : bool :=
  match e with
  | JsError message =>
      let errorMessage := toLowerCase message in
      includes errorMessage (js "rate limit")
      && negb (includes errorMessage (js "overloaded"))
      && negb (includes errorMessage (js "503"))
  | NonError => false
  end.

(** A JSON value that is neither an object nor an array. *)
Definition is_primitive (v : json) : bool :=
  match v with
  | JObject _ | JArray _ => false
  | _ => true
  end.

(** The text has no capital W. *)
Definition w_free (s : jstr) : bool := forallb (fun c => negb (c =? 87)) s.

(** The text has no full stop. *)
Definition dot_free (s : jstr) : bool := forallb (fun c => negb (c =? 46)) s.

(** The text is ASCII. *)
Definition ascii (s : jstr) : bool := forallb (fun c => c <? 128) s.

(** The lower case of an ASCII character. *)
Definition lower_ascii (c : N) : N :=
  if (65 <=? c) && (c <=? 90) then c + 32 else c.

(** A printable character of ASCII, the space included. *)
Definition printable (c : N) : bool := (0x20 <=? c) && (c <=? 0x7E).

(** A character of the base64 alphabet, the padding included. *)
Definition base64_char (c : N) : bool :=
  ((65 <=? c) && (c <=? 90)) || ((97 <=? c) && (c <=? 122))
  || ((48 <=? c) && (c <=? 57)) || (c =? 43) || (c =? 47) || (c =? 61).

(** All the bytes are ASCII. *)
Definition ascii_only (b : buffer) : bool :=
  forallb (fun x => Byte.to_N x <=? 0x7F) b.

End Notions.

(* ================================================================== *)
(** * Further sample worlds and files *)
(* ================================================================== *)

Module Cases.

Definition rate_limit_error : thrown :=
  JsError (js "[429 Too Many Requests] Rate limit exceeded for this minute.").


(** The bytes of a DOCX file under a DOCX name, declared as plain text. *)
Definition docx_as_text : File :=
  mkFile (js "cv.docx") (js "text/plain") (list_byte_of_string "PK").

(** A browser without a network: every [fetch] rejects. *)
Definition offline : Hook.browser :=
  Hook.mkBrowser (fun _ => Throws (JsError (js "Failed to fetch")))
                 Number_toString
                 (js "Cannot read properties of null (reading 'error')").

(** A file the allow-list turns away, whose declared type has the words the
    hook looks for. *)
Definition word_file : File :=
  mkFile (js "letter.wps") (js "application/x-Word document") (list_byte_of_string "WPS").

End Cases.

(* ================================================================== *)
(** * The host language, on examples *)
(* ================================================================== *)

Ltac by_computation := vm_compute; reflexivity.

Example utf8_two_bytes : js "héllo" = [104; 233; 108; 108; 111].
Proof. by_computation. Qed.

Example utf8_ill_formed :
  toString_utf8 [xf0; x9f; x98; x80; xff; xe2; x41]
  = [0xD83D; 0xDE00; 0xFFFD; 0xFFFD; 65].
Proof. by_computation. Qed.

Example base64_padding :
  toString_base64 (list_byte_of_string "Man") = js "TWFu"
  /\ toString_base64 (list_byte_of_string "Ma") = js "TWE="
  /\ toString_base64 (list_byte_of_string "M") = js "TQ==".
Proof. repeat split. Qed.

Example extension_of_name :
  fileExtension_of (js "My.Resume.PDF") = Some (js "pdf")
  /\ fileExtension_of (js "README") = Some (js "readme")
  /\ fileExtension_of (js "archive.") = Some [].
Proof. repeat split. Qed.

Example replace_is_global_and_greedy :
  replace_all (tag "<td") (js " | ") (js "<td a=1>x</td><td>y") = js " | x</td> | y"
  /\ replace_all (Star (Chr 120)) (js "-") (js "axxb") = js "-a--b-"
  /\ match_ braces_re (js "a {b} c } d") = Some (js "{b} c }").
Proof. repeat split. Qed.

Example anchors :
  replace trailing_fence_re [] (js "a```b```") = js "a```b"
  /\ replace leading_fence_re [] (js "```js" ++ nl ++ js "x```js") = js "x```js".
Proof. repeat split. Qed.

Example html_is_flattened :
  html_to_text
    (js "<p>Hello <b>World</b></p><table><tr><td>a</td><td>b &amp; c</td></tr></table><br/>x<br>y  z")
  = js "Hello World" ++ nl ++ js "--- TABLE START --- | a | b & c" ++ nl
    ++ js "--- TABLE END ---" ++ nl ++ nl ++ js "x" ++ nl ++ js "y z".
Proof. by_computation. Qed.

Example parse_accepts :
  parse (js "{ }") = Some (JObject [])
  /\ parse (js " [1, -2.5e+3 ,true,null, [] , {}] ")
     = Some (JArray [JNumber (SpecFloat.S754_finite false 4503599627370496 (-52));
                     JNumber (SpecFloat.S754_finite true 5497558138880000 (-41));
                     JBool true; JNull; JArray []; JObject []])
  /\ parse (js "12") = Some (JNumber (SpecFloat.S754_finite false 6755399441055744 (-49)))
  /\ parse (with_quotes "{~a~:[1],~b~:{},~a~:~A\n~}")
     = Some (JObject [(js "a", JString [65; 10]); (js "b", JObject [])]).
Proof. repeat apply conj; by_computation. Qed.

Example numbers_are_doubles :
  number_of_lexeme (js "0.1") = SpecFloat.S754_finite false 7205759403792794 (-56)
  /\ number_of_lexeme (js "1.0") = number_of_lexeme (js "1")
  /\ number_of_lexeme (js "9007199254740993") = number_of_lexeme (js "9007199254740992")
  /\ number_of_lexeme (js "1e400") = SpecFloat.S754_infinity false
  /\ number_of_lexeme (js "1e-400") = SpecFloat.S754_zero false
  /\ number_of_lexeme (js "5e-324") = SpecFloat.S754_finite false 1 (-1074)
  /\ Number_toString (number_of_lexeme (js "1.0")) = js "1"
  /\ Number_toString (number_of_lexeme (js "0.000001")) = js "0.000001"
  /\ Number_toString (number_of_lexeme (js "0.0000001")) = js "1e-7"
  /\ Number_toString (number_of_lexeme (js "1e21")) = js "1e+21"
  /\ Number_toString (number_of_lexeme (js "-123456789012345678901")) = js "-123456789012345680000"
  /\ truthy (parse (js "1e-400")) = false
  /\ truthy (parse (js "-0")) = false
  /\ truthy (parse (js "5e-324")) = true.
Proof. repeat apply conj; by_computation. Qed.

Example stringify_then_parse :
  option_map serialized (parse (with_quotes "{~b~:1e400,~10~:-0,~2~:[1e999],~01~:null}"))
  = Some (JObject [ (js "2", JArray [JNull]);
                    (js "10", JNumber (SpecFloat.S754_zero false));
                    (js "b", JNull); (js "01", JNull) ]).
Proof. by_computation. Qed.

Example parse_rejects :
  parse (js "{'a':1}") = None /\ parse (js "01") = None /\ parse (js "[1,]") = None
  /\ parse (js "-") = None /\ parse (js "tru") = None /\ parse (js "{} x") = None
  /\ parse (js "[1 2]") = None /\ parse (js "{,}") = None /\ parse [] = None
  /\ parse (js "1.") = None /\ parse (js "[}") = None /\ parse (js "nulll") = None.
Proof. repeat split. Qed.

(* ================================================================== *)
(** * Strings *)
(* ================================================================== *)

Lemma jstr_eqb_eq a b : Str.eqb a b = true <-> a = b.
Proof.
  revert b. induction a as [|x a IH]; intros [|y b]; cbn [Str.eqb]; split;
    try reflexivity; try discriminate.
  - intros H. apply andb_prop in H. destruct H as [H1 H2].
    apply N.eqb_eq in H1. apply IH in H2. congruence.
  - intros H. inversion H; subst. rewrite N.eqb_refl.
    apply IH. reflexivity.
Qed.

Lemma trimStart_app a b : trimStart a <> [] -> trimStart (a ++ b) = trimStart a ++ b.
Proof.
  induction a as [|c a IH]; cbn [trimStart app]; intros H; [congruence|].
  destruct (is_space c); [apply IH; exact H|reflexivity].
Qed.

Lemma trimStart_suffix s : exists pre, s = pre ++ trimStart s.
Proof.
  induction s as [|c s [pre IH]]; [exists []; reflexivity|].
  cbn [trimStart]. destruct (is_space c).
  - exists (c :: pre). cbn [app]. f_equal. exact IH.
  - exists []. reflexivity.
Qed.

Lemma trimStart_visible s :
  visible s = true ->
  exists c rest, trimStart s = c :: rest /\ is_space c = false.
Proof.
  unfold visible.
  induction s as [|c s IH]; cbn [existsb trimStart]; [discriminate|].
  destruct (is_space c) eqn:E; cbn [negb orb]; [exact IH|].
  intros _. exists c, s. split; [reflexivity|exact E].
Qed.

Lemma visible_rev s : visible (rev s) = visible s.
Proof.
  unfold visible. induction s as [|x s IH]; [reflexivity|].
  cbn [rev existsb]. rewrite existsb_app, IH. cbn [existsb].
  rewrite orb_false_r. apply orb_comm.
Qed.

(** The visible end of a text: its last code unit is no white space. *)
Lemma trimEnd_visible s :
  visible s = true ->
  exists front c back,
    trimEnd s = front ++ [c] /\ is_space c = false /\ s = trimEnd s ++ back.
Proof.
  intros H. unfold trimEnd.
  destruct (trimStart_visible (rev s)) as (c & rest & E & Hc);
    [rewrite visible_rev; exact H|].
  destruct (trimStart_suffix (rev s)) as [pre Hpre].
  exists (rev rest), c, (rev pre). rewrite E. split; [reflexivity|]. split; [exact Hc|].
  rewrite <- E, <- rev_app_distr, <- Hpre, rev_involutive. reflexivity.
Qed.

Lemma trim_after_object c inner prose :
  is_space c = false ->
  visible prose = true ->
  trim ((c :: inner) ++ prose) = (c :: inner) ++ trimEnd prose.
Proof.
  intros Hc Hp. unfold trim.
  cbn [app trimStart]. rewrite Hc.
  change (c :: inner ++ prose) with ((c :: inner) ++ prose).
  unfold trimEnd. rewrite rev_app_distr.
  rewrite trimStart_app.
  - rewrite rev_app_distr, rev_involutive. reflexivity.
  - destruct (trimStart_visible (rev prose)) as (x & rest & E & _);
      [rewrite visible_rev; exact Hp|].
    rewrite E. discriminate.
Qed.
(* ================================================================== *)
(** * Regular expressions: the fence and the braces *)
(* ================================================================== *)

Lemma exec_at_run total r a x :
  run total r (a ++ x) (fun rest => Some rest) = Some x ->
  exec_at total r (a ++ x) = Some (List.length a).
Proof.
  intros H. unfold exec_at. rewrite H. f_equal.
  rewrite length_app. lia.
Qed.

Lemma exec_at_none total r s :
  run total r s (fun rest => Some rest) = None -> exec_at total r s = None.
Proof. intros H. unfold exec_at. rewrite H. reflexivity. Qed.

(** A literal matches where the text starts with it. *)
Lemma run_LitU total p s k :
  p <> [] ->
  run total (LitU p) s k = if startsWith s p then k (skipn (List.length p) s) else None.
Proof.
  revert s. induction p as [|c p IH]; intros s Hp; [congruence|].
  destruct p as [|c' p].
  - cbn [LitU Chr run startsWith List.length skipn].
    destruct s as [|y s]; [reflexivity|].
    cbn [startsWith]. rewrite andb_true_r. destruct (c =? y); reflexivity.
  - change (LitU (c :: c' :: p)) with (Cat (Chr c) (LitU (c' :: p))).
    cbn [run Chr]. destruct s as [|y s]; [reflexivity|].
    change (startsWith (y :: s) (c :: c' :: p))
      with ((c =? y) && startsWith s (c' :: p)).
    destruct (c =? y); [|reflexivity].
    rewrite IH by discriminate. reflexivity.
Qed.

Lemma startsWith_app s p q : startsWith s (p ++ q) = true -> startsWith s p = true.
Proof.
  revert s. induction p as [|x p IH]; intros s; [reflexivity|].
  cbn [app startsWith]. destruct s as [|y s]; [discriminate|].
  intros H. apply andb_prop in H. destruct H as [-> H].
  apply IH. exact H.
Qed.

(** No match starts where the text does not start with a fence, also after
    a new line. *)
Lemma fence_no_match total s :
  startsWith s fence = false ->
  (forall x, s = 10 :: x -> startsWith x fence = false) ->
  exec_at total fence_re s = None.
Proof.
  intros H1 H2. apply exec_at_none.
  unfold fence_re, Lit, Opt. cbn [Seq run].
  rewrite run_LitU by discriminate.
  replace (startsWith s (js "```json")) with false.
  2:{ destruct (startsWith s (js "```json")) eqn:E; [|reflexivity].
      rewrite <- H1.
      apply (startsWith_app s fence (js "json")). exact E. }
  unfold Chr at 1. cbn [run].
  assert (Hs : run total (LitU (js "```")) s (fun rest => Some rest) = None).
  { rewrite run_LitU by discriminate. fold fence. rewrite H1. reflexivity. }
  destruct s as [|c x]; [exact Hs|].
  destruct (10 =? c) eqn:E; [|exact Hs].
  apply N.eqb_eq in E. subst c.
  rewrite run_LitU by discriminate. fold fence. rewrite (H2 x eq_refl).
  exact Hs.
Qed.

Lemma replace_from_skip total r rep a b n :
  replace_from total r rep (List.length a + n) (a ++ b) = replace_from total r rep n b.
Proof.
  induction a as [|c a IH]; [reflexivity|].
  cbn [List.length Nat.add app replace_from]. exact IH.
Qed.

Lemma replace_from_match total r rep c s n :
  exec_at total r (c :: s) = Some (S n) ->
  replace_from total r rep 0 (c :: s) = rep ++ replace_from total r rep n s.
Proof. intros H. cbn [replace_from]. rewrite H. reflexivity. Qed.

Lemma replace_from_no_match total r rep c s :
  exec_at total r (c :: s) = None ->
  replace_from total r rep 0 (c :: s) = c :: replace_from total r rep 0 s.
Proof. intros H. cbn [replace_from]. rewrite H. reflexivity. Qed.

(** A fence that starts in a stretch and would end past it needs a backtick
    after the stretch. *)
Lemma startsWith_fence_app s tail :
  match tail with
  | x :: _ => (96 =? x) = false
  | [] => True
  end ->
  startsWith (s ++ tail) fence = true -> startsWith s fence = true.
Proof.
  intros Htail. change fence with [96; 96; 96].
  destruct tail as [|x tail]; [rewrite app_nil_r; trivial|].
  destruct s as [|c1 [|c2 [|c3 s]]]; cbn [app startsWith];
    rewrite ?Htail, ?andb_false_r; try discriminate.
  trivial.
Qed.

(** A stretch that has no fence is copied, when no backtick follows it. *)
Lemma fence_copy total s tail :
  fence_free s = true ->
  match tail with
  | x :: _ => (96 =? x) = false
  | [] => True
  end ->
  replace_from total fence_re [] 0 (s ++ tail)
  = s ++ replace_from total fence_re [] 0 tail.
Proof.
  unfold fence_free. intros Hfree Htail. apply negb_true_iff in Hfree.
  induction s as [|c s IH]; [reflexivity|].
  cbn [includes] in Hfree. apply orb_false_iff in Hfree.
  destruct Hfree as [Hhere Hlater].
  cbn [app]. rewrite replace_from_no_match.
  - f_equal. apply IH. exact Hlater.
  - apply fence_no_match.
    + destruct (startsWith (c :: s ++ tail) fence) eqn:E; [|reflexivity].
      rewrite <- Hhere. symmetry.
      apply (startsWith_fence_app (c :: s) tail Htail). exact E.
    + intros x Hx. inversion Hx; subst.
      destruct (startsWith (s ++ tail) fence) eqn:E; [|reflexivity].
      apply (startsWith_fence_app s tail Htail) in E.
      destruct s as [|c' s]; [discriminate E|].
      cbn [includes] in Hlater. rewrite E in Hlater. discriminate Hlater.
Qed.

(** The opening fence is one match, with its tag and new line or bare. *)
Lemma fence_opening_tagged total x :
  exec_at total fence_re (js "```json" ++ nl ++ x) = Some 8%nat.
Proof.
  change (js "```json" ++ nl ++ x)
    with ([96; 96; 96; 106; 115; 111; 110; 10] ++ x).
  apply exec_at_run. reflexivity.
Qed.

Lemma fence_opening_bare total x :
  exec_at total fence_re (js "```" ++ nl ++ x) = Some 3%nat.
Proof.
  change (js "```" ++ nl ++ x) with ([96; 96; 96] ++ 10 :: x).
  apply exec_at_run. reflexivity.
Qed.

(** The closing fence with the new line before it is one match. *)
Lemma fence_closing total x :
  exec_at total fence_re (nl ++ js "```" ++ x) = Some 4%nat.
Proof.
  change (nl ++ js "```" ++ x) with ([10; 96; 96; 96] ++ x).
  apply exec_at_run. reflexivity.
Qed.

Lemma strip_closing total prose :
  fence_free prose = true ->
  replace_from total fence_re [] 0 (nl ++ js "```" ++ prose) = prose.
Proof.
  intros Hp.
  change (nl ++ js "```" ++ prose) with (10 :: [96; 96; 96] ++ prose).
  rewrite (replace_from_match total fence_re [] 10 _ 3)
    by (apply (fence_closing total)).
  rewrite app_nil_l.
  rewrite (replace_from_skip total fence_re [] [96; 96; 96] _ 0).
  rewrite <- (app_nil_r prose) at 1.
  rewrite fence_copy by (assumption || exact I).
  apply app_nil_r.
Qed.

(** Stripping the fences of a fenced reply leaves the object and the prose,
    after the new line of a bare opening fence. *)
Lemma strip_fences tagged object prose :
  fence_free object = true ->
  fence_free prose = true ->
  replace_all fence_re [] (fenced tagged object prose)
  = (if tagged then [] else nl) ++ object ++ prose.
Proof.
  intros Ho Hp. unfold replace_all, fenced.
  set (total := List.length _).
  destruct tagged.
  - change (js "```json" ++ nl ++ object ++ nl ++ js "```" ++ prose)
      with (96 :: [96; 96; 106; 115; 111; 110; 10]
               ++ object ++ nl ++ js "```" ++ prose).
    rewrite (replace_from_match total fence_re [] 96 _ 7)
      by (apply (fence_opening_tagged total)).
    rewrite app_nil_l.
    rewrite (replace_from_skip total fence_re [] [96; 96; 106; 115; 111; 110; 10] _ 0).
    rewrite fence_copy by (assumption || reflexivity).
    rewrite strip_closing by assumption. reflexivity.
  - change (js "```" ++ nl ++ object ++ nl ++ js "```" ++ prose)
      with (96 :: [96; 96] ++ (10 :: object) ++ nl ++ js "```" ++ prose).
    rewrite (replace_from_match total fence_re [] 96 _ 2)
      by (apply (fence_opening_bare total)).
    rewrite app_nil_l.
    rewrite (replace_from_skip total fence_re [] [96; 96] _ 0).
    rewrite fence_copy; [|unfold fence_free in *; cbn [includes]|reflexivity].
    + rewrite strip_closing by assumption. reflexivity.
    + apply negb_true_iff in Ho. rewrite Ho. reflexivity.
Qed.

(** ** The span from the first to the last brace *)

Section Braces.

Variable total : nat.

Lemma space_or_not_true c : space_or_not c = true.
Proof. unfold space_or_not. apply orb_negb_r. Qed.

Lemma star_any_none s fuel :
  (List.length s <= fuel)%nat ->
  brace_free s = true ->
  star_loop (run total (Cls space_or_not)) (closing total) fuel s = None.
Proof.
  revert fuel. induction s as [|c s IH]; intros fuel Hfuel Hfree.
  - destruct fuel; reflexivity.
  - destruct fuel as [|fuel]; [cbn in Hfuel; lia|].
    cbn [brace_free forallb] in Hfree. apply andb_prop in Hfree.
    destruct Hfree as [Hc Hfree]. apply negb_true_iff in Hc.
    cbn [star_loop run]. rewrite space_or_not_true.
    replace (List.length s <? List.length (c :: s))%nat with true
      by (symmetry; apply Nat.ltb_lt; cbn; lia).
    rewrite IH by (cbn in Hfuel; try lia; assumption).
    unfold closing, Chr. cbn [run]. rewrite N.eqb_sym, Hc. reflexivity.
Qed.

Lemma star_any_last (a b : jstr) fuel :
  (List.length (a ++ 125%N :: b) <= fuel)%nat ->
  brace_free b = true ->
  star_loop (run total (Cls space_or_not)) (closing total) fuel (a ++ 125 :: b) = Some b.
Proof.
  revert fuel. induction a as [|c a IH]; intros fuel Hfuel Hfree.
  - destruct fuel as [|fuel]; [cbn in Hfuel; lia|].
    cbn [app star_loop run]. rewrite space_or_not_true.
    replace (List.length b <? List.length (125%N :: b))%nat with true
      by (symmetry; apply Nat.ltb_lt; cbn; lia).
    rewrite star_any_none by (cbn in Hfuel; try lia; assumption).
    reflexivity.
  - destruct fuel as [|fuel]; [cbn in Hfuel; lia|].
    cbn [app star_loop run]. rewrite space_or_not_true.
    replace (List.length (a ++ 125%N :: b) <? List.length (c :: a ++ 125%N :: b))%nat
      with true by (symmetry; apply Nat.ltb_lt; cbn; lia).
    rewrite IH by (cbn in Hfuel; try lia; assumption).
    reflexivity.
Qed.

Lemma braces_span inner rest :
  brace_free rest = true ->
  exec_at total braces_re ((123 :: inner ++ [125]) ++ rest)
  = Some (List.length (123 :: inner ++ [125])).
Proof.
  intros Hfree. apply exec_at_run.
  unfold braces_re. cbn [Seq]. cbn [app run Chr N.eqb Pos.eqb].
  rewrite <- app_assoc. cbn [app].
  apply (star_any_last inner rest); [lia|exact Hfree].
Qed.

End Braces.

Lemma match_braces inner rest :
  brace_free rest = true ->
  match_ braces_re ((123 :: inner ++ [125]) ++ rest) = Some (123 :: inner ++ [125]).
Proof.
  intros Hfree. unfold match_.
  set (total := List.length _).
  change (search total braces_re ((123 :: inner ++ [125]) ++ rest))
    with (match exec_at total braces_re ((123 :: inner ++ [125]) ++ rest) with
          | Some n => Some ([], firstn n ((123 :: inner ++ [125]) ++ rest),
                            skipn n ((123 :: inner ++ [125]) ++ rest))
          | None =>
              match search total braces_re ((inner ++ [125]) ++ rest) with
              | Some (before, m, after) => Some (123 :: before, m, after)
              | None => None
              end
          end).
  rewrite braces_span by assumption.
  rewrite firstn_app, Nat.sub_diag, firstn_all. cbn [firstn]. rewrite app_nil_r.
  reflexivity.
Qed.

(* ================================================================== *)
(** * The parser after a complete object *)
(* ================================================================== *)

Lemma steps_app st a b : steps st (a ++ b) = steps (steps st a) b.
Proof.
  revert st. induction a as [|c a IH]; intros st; [reflexivity|].
  cbn [app steps]. apply IH.
Qed.

Lemma steps_failed s : steps failed s = failed.
Proof. induction s as [|c s IH]; [reflexivity|]. cbn [steps]. exact IH. Qed.

Lemma complete_not_in_number v stk : in_number (complete v stk) = false.
Proof.
  destruct stk as [|[done|fields [k|]] rest]; reflexivity.
Qed.

Lemma step_after_brace st :
  in_number st = false -> in_number (step_after st 125) = false.
Proof.
  intros H. unfold step_after. cbn [is_ws N.eqb Pos.eqb orb].
  destruct (stack st) as [|[done|fields [k|]] rest]; cbn [N.eqb Pos.eqb];
    try reflexivity.
  apply complete_not_in_number.
Qed.

(** A closing brace never leaves the parser inside a number. *)
Lemma step_brace_not_in_number st : in_number (step st 125) = false.
Proof.
  destruct st as [m stk res]. unfold step. cbn [mode_of stack].
  destruct m; cbn [is_ws N.eqb Pos.eqb orb N.ltb N.compare Pos.compare Pos.compare_cont];
    try reflexivity.
  - destruct stk as [|[done|fields [k|]] rest]; try reflexivity.
    apply complete_not_in_number.
  - apply step_after_brace. reflexivity.
  - destruct (step_number st 125) eqn:E.
    + destruct st; discriminate E.
    + destruct (accepting st); [|reflexivity].
      apply step_after_brace. apply complete_not_in_number.
  - destruct rest as [|x rest]; [reflexivity|].
    destruct x as [|q]; [reflexivity|].
    destruct (125 =? q)%positive; [|reflexivity].
    destruct rest; [apply complete_not_in_number|reflexivity].
Qed.

(** A text that ends with a brace and parses leaves the parser with the
    value and nothing open. *)
Lemma parse_to_brace body v :
  parse (body ++ [125]) = Some v ->
  steps initial (body ++ [125]) = mkState After [] (Some v).
Proof.
  unfold parse. rewrite steps_app. cbn [steps].
  pose proof (step_brace_not_in_number (steps initial body)) as Hn.
  destruct (step (steps initial body) 125) as [m stk res].
  unfold in_number in Hn. cbn [mode_of] in Hn.
  unfold finish. cbn [mode_of stack result].
  destruct m; try discriminate; destruct stk; try discriminate.
  intros ->. reflexivity.
Qed.

(** After the value only white space may follow. *)
Lemma junk_after_value v s :
  existsb (fun c => negb (is_ws c)) s = true ->
  finish (steps (mkState After [] (Some v)) s) = None.
Proof.
  induction s as [|c s IH]; cbn [existsb steps]; [discriminate|].
  unfold step at 1. cbn [mode_of]. unfold step_after. cbn [stack].
  destruct (is_ws c); cbn [negb orb].
  - exact IH.
  - intros _. rewrite steps_failed. reflexivity.
Qed.

Lemma is_ws_is_space c : is_ws c = true -> is_space c = true.
Proof.
  unfold is_ws, is_space. intros H.
  repeat (apply orb_prop in H; destruct H as [H|H]);
    apply N.eqb_eq in H; subst c; reflexivity.
Qed.

Lemma parse_object_then_prose body v prose :
  parse (body ++ [125]) = Some v ->
  visible prose = true ->
  parse ((body ++ [125]) ++ prose) = None.
Proof.
  intros Hv Hp. unfold parse. rewrite steps_app, (parse_to_brace body v Hv).
  apply junk_after_value.
  unfold visible in Hp. apply existsb_exists in Hp. destruct Hp as (c & Hin & Hc).
  apply existsb_exists. exists c. split; [exact Hin|].
  destruct (is_ws c) eqn:E; [|reflexivity].
  apply is_ws_is_space in E. rewrite E in Hc. discriminate Hc.
Qed.

(* ================================================================== *)
(** * The handler, block by block *)
(* ================================================================== *)

Lemma bind_ret {A B} (a : A) (f : A -> M B) l : bind (ret a) f l = f a l.
Proof. reflexivity. Qed.

Lemma bind_throw {A B} e (f : A -> M B) l : bind (throw e) f l = (Throw e, l).
Proof. reflexivity. Qed.

(** ** The layers of the document extraction *)

Section Layers.

Variable w : world.
Variable buffer : buffer.

Lemma raw_text_layer_run x l :
  raw_text_layer w buffer x l =
  (Normal (match extractRawText w buffer with
           | Ok v => mkExtraction v (js "raw-text")
           | Throws _ => x
           end),
   mkLocals (fileName l) (trace l ++ [CallExtractRawText])).
Proof.
  unfold raw_text_layer, try_catch, bind, emit.
  destruct (extractRawText w buffer); reflexivity.
Qed.

Lemma html_layer_run x l :
  (List.length (textContent x) < 50)%nat ->
  html_layer w buffer x l =
  (Normal (match convertToHtml w buffer with
           | Ok v => mkExtraction (html_to_text v) (js "html-fallback")
           | Throws _ => x
           end),
   mkLocals (fileName l) (trace l ++ [CallConvertToHtml])).
Proof.
  intros H. unfold html_layer.
  apply Nat.ltb_lt in H. rewrite H.
  unfold try_catch, bind, emit.
  destruct (convertToHtml w buffer); reflexivity.
Qed.

Lemma html_layer_skip x l :
  (50 <= List.length (textContent x))%nat -> html_layer w buffer x l = (Normal x, l).
Proof.
  intros H. unfold html_layer.
  apply Nat.ltb_ge in H. rewrite H. reflexivity.
Qed.

Lemma plain_text_layer_skip x l :
  (20 <= List.length (textContent x))%nat -> plain_text_layer buffer x l = (Normal x, l).
Proof.
  intros H. unfold plain_text_layer.
  apply Nat.ltb_ge in H. rewrite H. reflexivity.
Qed.

Lemma plain_text_layer_run x l :
  (List.length (textContent x) < 20)%nat ->
  plain_text_layer buffer x l =
  (Normal (if (List.length (textContent x) <? List.length (toString_utf8 buffer))%nat
           then mkExtraction (salvage (toString_utf8 buffer)) (js "plain-text-fallback")
           else x),
   mkLocals (fileName l) (trace l ++ [DecodePlainText])).
Proof.
  intros H. unfold plain_text_layer.
  apply Nat.ltb_lt in H. rewrite H.
  unfold bind, emit, ret.
  destruct (List.length (textContent x) <? List.length (toString_utf8 buffer))%nat;
    reflexivity.
Qed.

(** The layers always end normally, start with the raw-text call, and do
    not call the model. *)
Lemma extract_layers_result l :
  exists x evs,
    extract_layers w buffer l =
    (Normal x, mkLocals (fileName l) (trace l ++ CallExtractRawText :: evs))
    /\ attempts evs = 0%nat.
Proof.
  unfold extract_layers, bind.
  rewrite raw_text_layer_run.
  set (x1 := match extractRawText w buffer with
             | Ok v => mkExtraction v (js "raw-text")
             | Throws _ => mkExtraction [] (js "unknown")
             end).
  set (l1 := mkLocals (fileName l) (trace l ++ [CallExtractRawText])).
  assert (H2 : exists x2 evs2,
             html_layer w buffer x1 l1 =
             (Normal x2, mkLocals (fileName l)
                           (trace l ++ CallExtractRawText :: evs2))
             /\ attempts evs2 = 0%nat).
  { destruct (Nat.lt_ge_cases (List.length (textContent x1)) 50) as [H|H].
    - rewrite html_layer_run by assumption.
      eexists; exists [CallConvertToHtml]. split; [|reflexivity].
      unfold l1; cbn [fileName trace]. rewrite <- app_assoc. reflexivity.
    - rewrite html_layer_skip by assumption.
      exists x1, []. split; reflexivity. }
  destruct H2 as (x2 & evs2 & -> & Hevs2).
  destruct (Nat.lt_ge_cases (List.length (textContent x2)) 20) as [H|H].
  - rewrite plain_text_layer_run by assumption.
    eexists; exists (evs2 ++ [DecodePlainText]). split.
    + cbn [fileName trace]. rewrite <- app_assoc. reflexivity.
    + unfold attempts in *. rewrite filter_app, length_app, Hevs2. reflexivity.
  - rewrite plain_text_layer_skip by assumption.
    exists x2, evs2. split; [reflexivity|assumption].
Qed.

End Layers.

Lemma validate_text_result text l :
  exists c, validate_text text l = (c, l)
            /\ (c = Normal tt \/ exists e, c = Throw e).
Proof.
  unfold validate_text.
  destruct (List.length text <? 10)%nat; [eexists; split; [reflexivity|eauto]|].
  destruct ((List.length text <? 2 * count_class special_char text)%nat
            && (List.length text <? 100)%nat);
    eexists; split; try reflexivity; eauto.
Qed.

(** The document branch gives a prompt or the document fallback. *)
Lemma doc_branch_result w buffer l :
  exists c evs,
    doc_branch w buffer l =
    (c, mkLocals (fileName l) (trace l ++ CallExtractRawText :: evs))
    /\ attempts evs = 0%nat
    /\ ((exists prompt, c = Normal prompt)
        \/ (exists e, c = Return (doc_error_response (fileName l) e))).
Proof.
  unfold doc_branch, try_catch, bind at 1.
  destruct (extract_layers_result w buffer l) as (x & evs & -> & Hevs).
  unfold bind.
  destruct (validate_text_result (textContent x)
              (mkLocals (fileName l) (trace l ++ CallExtractRawText :: evs)))
    as (c & -> & [->|[e ->]]).
  - eexists; exists evs. split; [reflexivity|]. split; [assumption|eauto].
  - eexists; exists evs. split; [reflexivity|]. split; [assumption|].
    right. exists e. reflexivity.
Qed.

(** ** The model call with retries *)

Section RetryLoop.

Variable w : world.
Variable prompt : jstr.
Variable fileData : option inlineData.

(** One iteration of the loop, by the outcome of the model's invocation. *)
Lemma retry_loop_step fuel retryCount l :
  (retryCount <= maxRetries)%nat ->
  retry_loop w prompt fileData (S fuel) retryCount l =
  let l1 := mkLocals (fileName l)
              (trace l ++ [CallGenerateContent retryCount prompt fileData]) in
  match generateContent w retryCount prompt fileData with
  | Ok result => (Normal (Some result), l1)
  | Throws retryError =>
      if retryable retryError && (S retryCount <=? maxRetries)%nat
      then retry_loop w prompt fileData fuel (S retryCount)
             (mkLocals (fileName l) (trace l1 ++ [Sleep (delay (S retryCount))]))
      else (Throw retryError, l1)
  end.
Proof.
  intros H. apply Nat.leb_le in H.
  cbn [retry_loop]. rewrite H.
  unfold bind, emit, try_catch.
  destruct (generateContent w retryCount prompt fileData) as [result|e];
    cbn [await ret throw]; [reflexivity|].
  destruct (retryable e && (S retryCount <=? maxRetries)%nat); reflexivity.
Qed.

Lemma retry_loop_done fuel retryCount l :
  (maxRetries < retryCount)%nat ->
  retry_loop w prompt fileData fuel retryCount l = (Normal None, l).
Proof.
  intros H. apply Nat.leb_gt in H.
  destruct fuel; cbn [retry_loop]; rewrite H; reflexivity.
Qed.

(** The fuel the handler gives the loop is never used up: any fuel that
    covers the attempts still allowed gives the same completion. *)
Lemma retry_loop_fuel fuel retryCount l :
  (S maxRetries - retryCount <= fuel)%nat ->
  retry_loop w prompt fileData fuel retryCount l =
  retry_loop w prompt fileData (S maxRetries - retryCount) retryCount l.
Proof.
  revert retryCount l.
  induction fuel as [|fuel IH]; intros retryCount l H.
  - replace (S maxRetries - retryCount)%nat with 0%nat by lia. reflexivity.
  - destruct (Nat.le_gt_cases retryCount maxRetries) as [Hle|Hgt].
    + replace (S maxRetries - retryCount)%nat
        with (S (maxRetries - retryCount)) by lia.
      rewrite !retry_loop_step by assumption.
      cbv zeta.
      destruct (generateContent w retryCount prompt fileData); [reflexivity|].
      destruct (retryable e && (S retryCount <=? maxRetries)%nat); [|reflexivity].
      rewrite IH by lia.
      replace (maxRetries - retryCount)%nat with (S maxRetries - S retryCount)%nat by lia.
      reflexivity.
    + rewrite !retry_loop_done by assumption. reflexivity.
Qed.

(** The loop never ends on its condition: it leaves by [break] or [throw]. *)
Lemma retry_loop_result fuel retryCount l :
  (retryCount <= maxRetries)%nat ->
  (S maxRetries - retryCount <= fuel)%nat ->
  exists c evs,
    retry_loop w prompt fileData fuel retryCount l =
    (c, mkLocals (fileName l)
          (trace l ++ CallGenerateContent retryCount prompt fileData :: evs))
    /\ ((exists result, c = Normal (Some result)) \/ (exists e, c = Throw e)).
Proof.
  revert retryCount l.
  induction fuel as [|fuel IH]; intros retryCount l Hle Hfuel; [lia|].
  rewrite retry_loop_step by assumption. cbv zeta.
  destruct (generateContent w retryCount prompt fileData) as [result|e].
  - exists (Normal (Some result)), []. split; [reflexivity|eauto].
  - destruct (retryable e && (S retryCount <=? maxRetries)%nat) eqn:E.
    + apply andb_prop in E. destruct E as [_ E]. apply Nat.leb_le in E.
      destruct (IH (S retryCount)
                  (mkLocals (fileName l)
                     ((trace l ++ [CallGenerateContent retryCount prompt fileData])
                      ++ [Sleep (delay (S retryCount))])))
        as (c & evs & Heq & Hc); [assumption|lia|].
      cbn [fileName trace] in *. rewrite Heq.
      exists c, (Sleep (delay (S retryCount))
                 :: CallGenerateContent (S retryCount) prompt fileData :: evs).
      split; [|assumption].
      rewrite <- !app_assoc. reflexivity.
    + exists (Throw e), []. split; [reflexivity|eauto].
Qed.

Lemma call_model_run l :
  call_model w prompt fileData l =
  match retry_loop w prompt fileData (S maxRetries) 0 l with
  | (Normal (Some (Ok text)), l') => (Normal text, l')
  | (Normal (Some (Throws e)), l') => (Throw e, l')
  | (Normal None, l') =>
      (Throw (JsError (js "Failed to get AI response after all retry attempts")), l')
  | (Throw e, l') => (Throw e, l')
  | (Return r, l') => (Return r, l')
  end.
Proof.
  unfold call_model, bind.
  destruct (retry_loop w prompt fileData (S maxRetries) 0 l) as [[[[text|e]|]|e|r] l'];
    reflexivity.
Qed.

(** The model call ends with the reply or with an exception, and its first
    event is the first invocation. *)
Lemma call_model_result l :
  exists c evs,
    call_model w prompt fileData l =
    (c, mkLocals (fileName l)
          (trace l ++ CallGenerateContent 0 prompt fileData :: evs))
    /\ ((exists text, c = Normal text) \/ (exists e, c = Throw e)).
Proof.
  rewrite call_model_run.
  destruct (retry_loop_result (S maxRetries) 0 l)
    as (c & evs & Heq & Hc); [unfold maxRetries; lia|lia|].
  rewrite Heq. exists (match c with
                       | Normal (Some (Ok text)) => Normal text
                       | Normal (Some (Throws e)) => Throw e
                       | Normal None => Throw (JsError (js "Failed to get AI response after all retry attempts"))
                       | Throw e => Throw e
                       | Return r => Return r
                       end), evs.
  destruct Hc as [[[text|e] ->]|[e ->]]; split; eauto.
Qed.

End RetryLoop.

(** ** Reading the reply *)

Lemma direct_parse_result w text l :
  exists c, direct_parse w text l = (c, l)
            /\ ((exists v, c = Normal v) \/ (exists e, c = Throw e)).
Proof.
  unfold direct_parse.
  destruct (parse text) as [v|]; [|eexists; split; [reflexivity|eauto]].
  destruct v as [|b|lexeme|s|items|fields]; cbn [read_skills];
    rewrite ?bind_ret, ?bind_throw;
    try (eexists; split; [reflexivity|eauto]).
  destruct (negb (truthy (get fields (js "skills")))
            || negb (isArray (get fields (js "skills")))); cbn [write_skills];
    (eexists; split; [reflexivity|eauto]).
Qed.

Lemma repair_parse_result text parseError l :
  exists c, repair_parse text parseError l = (c, l)
            /\ ((exists v, c = Normal v)
                \/ (exists err, c = Return (parse_failure_response err text parseError))).
Proof.
  unfold repair_parse.
  destruct (match_ braces_re text) as [jsonMatch|].
  - destruct (parse jsonMatch); eexists; split; try reflexivity; eauto.
  - eexists; split; [reflexivity|eauto].
Qed.

(** Reading the reply gives the data or the 500 of a reply that does not
    parse; it makes no call and throws nothing. *)
Lemma read_reply_result w text l :
  exists c, read_reply w text l = (c, l)
            /\ ((exists v, c = Normal v)
                \/ (exists err e,
                      c = Return (parse_failure_response err (clean_reply text) e))).
Proof.
  unfold read_reply, try_catch.
  destruct (direct_parse_result w (clean_reply text) l) as (c & Heq & [[v ->]|[e ->]]);
    rewrite Heq.
  - eexists; split; [reflexivity|eauto].
  - destruct (repair_parse_result (clean_reply text) e l) as (c & Heq' & [[v ->]|[err ->]]);
      rewrite Heq'; eexists; split; try reflexivity; eauto.
Qed.

(** ** The branches, the inner block and [POST] *)

Lemma prepare_run w file l :
  prepare w file (fileExtension_of (name file)) (bytes file) l =
  match route file with
  | Binary => (Normal (binary_prompt file,
                       Some (mkInline (toString_base64 (bytes file)) (type file))), l)
  | Text => (Normal (text_prompt (toString_utf8 (bytes file)), None), l)
  | Document =>
      match doc_branch w (bytes file) l with
      | (Normal prompt, l') => (Normal (prompt, None), l')
      | (Throw e, l') => (Throw e, l')
      | (Return r, l') => (Return r, l')
      end
  | Unsupported => (Return unsupported_response, l)
  end.
Proof.
  unfold prepare, route.
  destruct (is_image_or_pdf file); [reflexivity|].
  destruct (is_text file (fileExtension_of (name file))); [reflexivity|].
  destruct (is_doc file (fileExtension_of (name file))); [|reflexivity].
  unfold bind. destruct (doc_branch w (bytes file) l) as [[prompt|e|r] l']; reflexivity.
Qed.


(** The inner [try] with its handler, once the credential is there. *)
Lemma process_run w file l :
  configured w = true ->
  process w file (fileExtension_of (name file)) (bytes file) l =
  match prepare w file (fileExtension_of (name file)) (bytes file) l with
  | (Normal p, l1) =>
      match call_model w (fst p ++ schema_prompt) (snd p) l1 with
      | (Normal text, l2) => read_reply w text l2
      | (Throw e, l2) => (Return (ai_error_response (fileName l2) e), l2)
      | (Return r, l2) => (Return r, l2)
      end
  | (Throw e, l1) => (Return (ai_error_response (fileName l1) e), l1)
  | (Return r, l1) => (Return r, l1)
  end.
Proof.
  intros Hc. unfold process, try_catch. rewrite Hc. cbn [negb].
  unfold bind at 1.
  destruct (prepare w file (fileExtension_of (name file)) (bytes file) l)
    as [[p|e|r] l1]; try reflexivity.
  unfold bind at 1.
  destruct (call_model w (fst p ++ schema_prompt) (snd p) l1) as [[text|e|r] l2];
    try reflexivity.
  destruct (read_reply_result w text l2) as (c & -> & [[v ->]|(err & e & ->)]);
    reflexivity.
Qed.

Lemma process_not_configured w file fileExtension buffer l :
  configured w = false ->
  process w file fileExtension buffer l = (Return not_configured_response, l).
Proof.
  intros Hc. unfold process, try_catch. rewrite Hc. reflexivity.
Qed.

(** [POST] on an upload: the allow-list, then the inner block. *)
Lemma POST_upload w file :
  POST w (upload file) =
  if accepted file then
    match process w file (fileExtension_of (name file)) (bytes file)
            (mkLocals (name file) []) with
    | (Normal extractedData, l) => (Return (success_response file extractedData), trace l)
    | (Throw e, l) => (Return (upload_error_response (fileName l)), trace l)
    | (Return r, l) => (Return r, trace l)
    end
  else (Return (invalid_type_response file (fileExtension_of (name file))), []).
Proof.
  unfold POST, POST_body, upload, accepted, try_catch.
  cbn [formData await]. unfold bind at 1. unfold ret at 1.
  unfold bind at 1. unfold set_fileName at 1.
  unfold bind at 1. unfold get_fileName at 1. cbn [fileName trace].
  destruct (isValidMimeType file); cbn [negb andb orb].
  - unfold bind.
    destruct (process w file (fileExtension_of (name file)) (bytes file)
                (mkLocals (name file) [])) as [[v|e|r] l]; reflexivity.
  - destruct (isValidExtension (fileExtension_of (name file))); cbn [negb].
    + unfold bind.
      destruct (process w file (fileExtension_of (name file)) (bytes file)
                  (mkLocals (name file) [])) as [[v|e|r] l]; reflexivity.
    + reflexivity.
Qed.

(** From the prompt on: the model call and the reading of the reply. *)
Lemma model_then_reply w file (p : jstr * option inlineData) l1 :
  configured w = true ->
  fileName l1 = name file ->
  (trace l1 = [] \/ extraction_attempted (trace l1) = true) ->
  exists c l3,
    match call_model w (fst p ++ schema_prompt) (snd p) l1 with
    | (Normal text, l2) => read_reply w text l2
    | (Throw e, l2) => (Return (ai_error_response (fileName l2) e), l2)
    | (Return r, l2) => (Return r, l2)
    end = (c, l3)
    /\ (exists evs, trace l3 = trace l1
                     ++ CallGenerateContent 0 (fst p ++ schema_prompt) (snd p) :: evs)
    /\ extraction_attempted (trace l3) = true
    /\ ((exists v reply l, c = Normal v /\ read_reply w reply l = (Normal v, l))
        \/ (exists r, c = Return r /\ answer w file r (trace l3))).
Proof.
  intros Hc Hname Htr.
  destruct (call_model_result w (fst p ++ schema_prompt) (snd p) l1)
    as (c & evs & Hcall & Hcases).
  rewrite Hcall.
  assert (Hatt : extraction_attempted
                   (trace l1 ++ CallGenerateContent 0 (fst p ++ schema_prompt) (snd p) :: evs)
                 = true).
  { unfold extraction_attempted. rewrite existsb_app. cbn [existsb].
    apply orb_true_r. }
  destruct Hcases as [[text ->]|[e ->]].
  - destruct (read_reply_result w text
                (mkLocals (fileName l1)
                   (trace l1 ++ CallGenerateContent 0 (fst p ++ schema_prompt) (snd p) :: evs)))
      as (c & Heq & [[v ->]|(err & e & ->)]); rewrite Heq.
    + do 2 eexists. split; [reflexivity|]. split; [exists evs; reflexivity|]. split; [exact Hatt|].
      left. do 3 eexists. split; [reflexivity|exact Heq].
    + do 2 eexists. split; [reflexivity|]. split; [exists evs; reflexivity|]. split; [exact Hatt|].
      right. eexists. split; [reflexivity|].
      eapply parse_failure_answer; eassumption.
  - do 2 eexists. split; [reflexivity|]. split; [exists evs; reflexivity|]. split; [exact Hatt|].
    right. eexists. split; [reflexivity|].
    cbn [fileName trace]. rewrite Hname.
    eapply ai_error_answer; eassumption.
Qed.

(** Every upload that passes the allow-list is answered, in one of the ways
    of [answer]. *)
Lemma POST_answers w file :
  accepted file = true ->
  exists r tr, POST w (upload file) = (Return r, tr) /\ answer w file r tr.
Proof.
  intros Hacc. rewrite POST_upload, Hacc.
  destruct (configured w) eqn:Hc.
  2:{ rewrite process_not_configured by assumption.
      do 2 eexists. split; [reflexivity|]. apply not_configured_answer; assumption. }
  rewrite process_run by assumption.
  rewrite prepare_run.
  destruct (route file) eqn:Hroute; cbv beta iota.
  - destruct (model_then_reply w file
                (binary_prompt file,
                 Some (mkInline (toString_base64 (bytes file)) (type file)))
                (mkLocals (name file) []) Hc eq_refl (or_introl eq_refl))
      as (c & l3 & -> & _ & Hatt & [(v & reply & l & -> & Hr)|(r & -> & Hans)]).
    + do 2 eexists. split; [reflexivity|]. eapply success_answer; eassumption.
    + do 2 eexists. split; [reflexivity|]. exact Hans.
  - destruct (model_then_reply w file
                (text_prompt (toString_utf8 (bytes file)), None)
                (mkLocals (name file) []) Hc eq_refl (or_introl eq_refl))
      as (c & l3 & -> & _ & Hatt & [(v & reply & l & -> & Hr)|(r & -> & Hans)]).
    + do 2 eexists. split; [reflexivity|]. eapply success_answer; eassumption.
    + do 2 eexists. split; [reflexivity|]. exact Hans.
  - destruct (doc_branch_result w (bytes file) (mkLocals (name file) []))
      as (c & evs & -> & _ & [[prompt ->]|[e ->]]); cbv beta iota; cbn [fileName trace].
    + destruct (model_then_reply w file (prompt, None)
                  (mkLocals (name file) ([] ++ CallExtractRawText :: evs)) Hc eq_refl
                  (or_intror eq_refl))
        as (c & l3 & -> & _ & Hatt & [(v & reply & l & -> & Hr)|(r & -> & Hans)]).
      * do 2 eexists. split; [reflexivity|]. eapply success_answer; eassumption.
      * do 2 eexists. split; [reflexivity|]. exact Hans.
    + do 2 eexists. split; [reflexivity|].
      apply document_answer; try assumption. reflexivity.
  - do 2 eexists. split; [reflexivity|]. apply unsupported_answer; assumption.
Qed.
(* ================================================================== *)
(** * The answers of the handler *)
(* ================================================================== *)

Import Sample Notions Cases.

(** The handler answers every request: it never throws. *)
Lemma POST_always_responds w request :
  exists r tr, POST w request = (Return r, tr).
Proof.
  destruct request as [[[[file|[|c value]]|]|e]].
  - destruct (accepted file) eqn:Hacc.
    + destruct (POST_answers w file Hacc) as (r & tr & Heq & _). eauto.
    + change (mkRequest (Ok (Some (Uploaded file)))) with (upload file).
      rewrite POST_upload, Hacc. eauto.
  - do 2 eexists. reflexivity.
  - do 2 eexists. reflexivity.
  - do 2 eexists. reflexivity.
  - do 2 eexists. reflexivity.
Qed.

Lemma attempts_app tr tr' : attempts (tr ++ tr') = (attempts tr + attempts tr')%nat.
Proof. unfold attempts. rewrite filter_app, length_app. reflexivity. Qed.

(** ** The document layers in closed form *)

Lemma raw_yield_extraction w buffer :
  textContent (raw_extraction w buffer) = raw_yield w buffer.
Proof.
  unfold raw_extraction, raw_yield, yield.
  destruct (extractRawText w buffer); reflexivity.
Qed.

(** The layers as a function of what the collaborators give, and the calls
    that are made. *)
Lemma extract_layers_run w buffer l :
  extract_layers w buffer l =
  (Normal (extraction_of_layers w buffer),
   mkLocals (fileName l)
     (trace l ++ layer_calls
                   (List.length (raw_yield w buffer) <? 50)%nat
                   (List.length (textContent (extraction_before_salvage w buffer)) <? 20)%nat)).
Proof.
  unfold extract_layers, bind.
  rewrite raw_text_layer_run.
  change (match extractRawText w buffer with
          | Ok v => mkExtraction v (js "raw-text")
          | Throws _ => mkExtraction [] (js "unknown")
          end) with (raw_extraction w buffer).
  unfold extraction_of_layers, extraction_before_salvage, layer_calls.
  rewrite <- (raw_yield_extraction w buffer).
  destruct (List.length (textContent (raw_extraction w buffer)) <? 50)%nat eqn:E50.
  - rewrite html_layer_run by (apply Nat.ltb_lt; exact E50).
    unfold html_yield.
    set (x2 := match convertToHtml w buffer with
               | Ok v => mkExtraction (html_to_text v) (js "html-fallback")
               | Throws _ => raw_extraction w buffer
               end).
    replace (match convertToHtml w buffer with
             | Ok _ => mkExtraction
                         match convertToHtml w buffer with
                         | Ok htmlContent => html_to_text htmlContent
                         | Throws _ => []
                         end (js "html-fallback")
             | Throws _ => raw_extraction w buffer
             end) with x2
      by (unfold x2; destruct (convertToHtml w buffer); reflexivity).
    cbn [fileName trace].
    destruct (List.length (textContent x2) <? 20)%nat eqn:E20.
    + rewrite plain_text_layer_run by (apply Nat.ltb_lt; exact E20).
      cbn [fileName trace andb]. rewrite <- !app_assoc.
      destruct (List.length (textContent x2) <? List.length (toString_utf8 buffer))%nat;
        reflexivity.
    + rewrite plain_text_layer_skip by (apply Nat.ltb_ge; exact E20).
      cbn [andb]. rewrite <- app_assoc. reflexivity.
  - rewrite html_layer_skip by (apply Nat.ltb_ge; exact E50).
    destruct (List.length (textContent (raw_extraction w buffer)) <? 20)%nat eqn:E20.
    + apply Nat.ltb_lt in E20. apply Nat.ltb_ge in E50. lia.
    + rewrite plain_text_layer_skip by (apply Nat.ltb_ge; exact E20).
      reflexivity.
Qed.

(* ================================================================== *)
(** * The calls of a request *)
(* ================================================================== *)

Section Schedule.

Variable w : world.
Variable prompt : jstr.
Variable fileData : option inlineData.

(** The loop from the state in which [retryCount] invocations have failed:
    it makes [n] more, of which all but the last fail with an error that is
    retried; the last one gives the result, or fails with an error that is
    not retried or that is the last one allowed. *)
Lemma retry_loop_schedule fuel retryCount l :
  (retryCount <= maxRetries)%nat ->
  (S maxRetries - retryCount <= fuel)%nat ->
  exists c n,
    (1 <= n <= S maxRetries - retryCount)%nat
    /\ retry_loop w prompt fileData fuel retryCount l
       = (c, mkLocals (fileName l)
               (trace l ++ schedule prompt fileData retryCount n))
    /\ (forall j, (j < n - 1)%nat ->
          exists e, generateContent w (retryCount + j) prompt fileData = Throws e
                    /\ retryable e = true)
    /\ ((exists result,
           generateContent w (retryCount + n - 1) prompt fileData = Ok result
           /\ c = Normal (Some result))
        \/ (exists e,
              generateContent w (retryCount + n - 1) prompt fileData = Throws e
              /\ c = Throw e
              /\ (retryable e = false \/ (retryCount + n = S maxRetries)%nat))).
Proof.
  revert retryCount l.
  induction fuel as [|fuel IH]; intros retryCount l Hle Hfuel; [lia|].
  rewrite retry_loop_step by assumption. cbv zeta.
  destruct (generateContent w retryCount prompt fileData) as [result|e] eqn:Egen.
  - exists (Normal (Some result)), 1%nat. split; [lia|]. split; [reflexivity|].
    split; [intros j Hj; lia|]. left. exists result.
    replace (retryCount + 1 - 1)%nat with retryCount by lia. auto.
  - destruct (retryable e) eqn:Er; cbn [andb].
    + destruct (S retryCount <=? maxRetries)%nat eqn:Em.
      * apply Nat.leb_le in Em.
        destruct (IH (S retryCount)
                    (mkLocals (fileName l)
                       (trace (mkLocals (fileName l)
                                 (trace l ++ [CallGenerateContent retryCount prompt fileData]))
                        ++ [Sleep (delay (S retryCount))])) Em ltac:(lia))
          as (c & n & Hn & Heq & Hfail & Hlast).
        exists c, (S n). split; [lia|]. split.
        { rewrite Heq. cbn [fileName trace]. rewrite <- !app_assoc.
          destruct n as [|n]; [lia|]. reflexivity. }
        split.
        { intros [|j] Hj.
          - rewrite Nat.add_0_r. exists e. auto.
          - destruct (Hfail j ltac:(lia)) as (e' & He' & Hr').
            exists e'. replace (retryCount + S j)%nat with (S retryCount + j)%nat by lia.
            auto. }
        replace (retryCount + S n - 1)%nat with (S retryCount + n - 1)%nat by lia.
        replace (retryCount + S n)%nat with (S retryCount + n)%nat by lia.
        exact Hlast.
      * apply Nat.leb_gt in Em.
        exists (Throw e), 1%nat. split; [lia|]. split; [reflexivity|].
        split; [intros j Hj; lia|]. right. exists e.
        replace (retryCount + 1 - 1)%nat with retryCount by lia.
        split; [assumption|]. split; [reflexivity|]. right. lia.
    + exists (Throw e), 1%nat. split; [lia|]. split; [reflexivity|].
      split; [intros j Hj; lia|]. right. exists e.
      replace (retryCount + 1 - 1)%nat with retryCount by lia. auto.
Qed.

(** The model call: between one and four invocations, by the schedule. *)
Lemma call_model_schedule l :
  exists c n,
    (1 <= n <= S maxRetries)%nat
    /\ call_model w prompt fileData l
       = (c, mkLocals (fileName l) (trace l ++ schedule prompt fileData 0 n))
    /\ all_retryable w prompt fileData (n - 1)
    /\ ((exists text, generateContent w (n - 1) prompt fileData = Ok (Ok text)
                      /\ c = Normal text)
        \/ (exists e, c = Throw e
                      /\ (generateContent w (n - 1) prompt fileData = Ok (Throws e)
                          \/ (generateContent w (n - 1) prompt fileData = Throws e
                              /\ (retryable e = false \/ n = S maxRetries))))).
Proof.
  rewrite call_model_run.
  destruct (retry_loop_schedule (S maxRetries) 0 l ltac:(unfold maxRetries; lia) ltac:(lia))
    as (c & n & Hn & -> & Hfail & Hlast).
  cbn [Nat.add] in Hlast.
  destruct Hlast as [(result & Hgen & ->)|(e & Hgen & -> & Hwhy)].
  - destruct result as [text|e].
    + exists (Normal text), n. split; [lia|]. split; [reflexivity|].
      split; [exact Hfail|]. left. eauto.
    + exists (Throw e), n. split; [lia|]. split; [reflexivity|].
      split; [exact Hfail|]. right. eauto.
  - exists (Throw e), n. split; [lia|]. split; [reflexivity|].
    split; [exact Hfail|]. right. exists e. split; [reflexivity|]. right.
    split; [assumption|]. destruct Hwhy; [left; assumption|right; lia].
Qed.

End Schedule.

Lemma sleeps_app tr tr' : sleeps (tr ++ tr') = sleeps tr ++ sleeps tr'.
Proof.
  induction tr as [|[| | |n p fd|ms] tr IH]; cbn [sleeps app];
    try assumption; [reflexivity|].
  rewrite IH. reflexivity.
Qed.

(** The waits of a schedule double from one second on. *)
Lemma sleeps_schedule prompt fileData n :
  (n <= S maxRetries)%nat ->
  sleeps (schedule prompt fileData 0 n) = firstn (n - 1) [1000; 2000; 4000].
Proof.
  intros Hn. do 5 (destruct n as [|n]; [reflexivity|]).
  unfold maxRetries in Hn. lia.
Qed.

Lemma sleeps_layer_calls html plain : sleeps (layer_calls html plain) = [].
Proof. destruct html, plain; reflexivity. Qed.

Lemma attempts_schedule prompt fileData from n :
  attempts (schedule prompt fileData from n) = n.
Proof.
  revert from. induction n as [|n IH]; intros from; [reflexivity|].
  cbn [schedule]. destruct n as [|n]; [reflexivity|].
  change (attempts (CallGenerateContent from prompt fileData
                    :: Sleep (delay (S from)) :: schedule prompt fileData (S from) (S n)))
    with (S (attempts (schedule prompt fileData (S from) (S n)))).
  rewrite IH. reflexivity.
Qed.

(** The document branch: the calls of the layers, and then the prompt or the
    document fallback. *)
Lemma doc_branch_run w buffer l :
  doc_branch w buffer l =
  let x := extraction_of_layers w buffer in
  let l1 := mkLocals (fileName l)
              (trace l ++ layer_calls
                 (List.length (raw_yield w buffer) <? 50)%nat
                 (List.length (textContent (extraction_before_salvage w buffer)) <? 20)%nat) in
  if (List.length (textContent x) <? 10)%nat
  then (Return (doc_error_response (fileName l) (JsError unreadable_message)), l1)
  else if (List.length (textContent x) <? 2 * count_class special_char (textContent x))%nat
          && (List.length (textContent x) <? 100)%nat
  then (Return (doc_error_response (fileName l) (JsError corrupted_message)), l1)
  else (Normal (doc_prompt x), l1).
Proof.
  unfold doc_branch, try_catch, bind at 1.
  rewrite extract_layers_run. cbv zeta.
  unfold bind, validate_text.
  destruct (List.length (textContent (extraction_of_layers w buffer)) <? 10)%nat;
    [reflexivity|].
  destruct ((List.length (textContent (extraction_of_layers w buffer))
             <? 2 * count_class special_char (textContent (extraction_of_layers w buffer)))%nat
            && (List.length (textContent (extraction_of_layers w buffer)) <? 100)%nat);
    reflexivity.
Qed.

(** Preparing the prompt makes the calls of the document layers, for a
    document, and no call otherwise. *)
Lemma prepare_trace w file l c l1 :
  prepare w file (fileExtension_of (name file)) (bytes file) l = (c, l1) ->
  fileName l1 = fileName l
  /\ (trace l1 = trace l
      \/ (route file = Document
          /\ exists html plain, trace l1 = trace l ++ layer_calls html plain)).
Proof.
  rewrite prepare_run.
  destruct (route file) eqn:Hroute.
  - intros H; inversion H; subst. auto.
  - intros H; inversion H; subst. auto.
  - rewrite doc_branch_run. cbv zeta.
    destruct (List.length (textContent (extraction_of_layers w (bytes file))) <? 10)%nat.
    { intros H; inversion H; subst. cbn [fileName trace]. split; [reflexivity|].
      right. split; [reflexivity|]. eauto. }
    destruct ((List.length (textContent (extraction_of_layers w (bytes file)))
               <? 2 * count_class special_char
                        (textContent (extraction_of_layers w (bytes file))))%nat
              && (List.length (textContent (extraction_of_layers w (bytes file))) <? 100)%nat).
    { intros H; inversion H; subst. cbn [fileName trace]. split; [reflexivity|].
      right. split; [reflexivity|]. eauto. }
    intros H; inversion H; subst. cbn [fileName trace]. split; [reflexivity|].
    right. split; [reflexivity|]. eauto.
  - intros H; inversion H; subst. auto.
Qed.

Lemma doc_error_fallback fileName e : fallback_shaped (doc_error_response fileName e).
Proof. repeat split. Qed.

Lemma ai_error_shape fileName e :
  (classify e <> Credential /\ fallback_shaped (ai_error_response fileName e))
  \/ (classify e = Credential /\ ai_error_response fileName e = credential_response).
Proof.
  unfold ai_error_response.
  destruct (classify e); [left|left|right|left];
    (split; [discriminate || reflexivity | repeat split]).
Qed.

Lemma direct_parse_object w text fields l :
  parse text = Some (JObject fields) ->
  direct_parse w text l = (Normal (JObject (skills_normalized fields)), l).
Proof.
  intros H. unfold direct_parse. rewrite H. cbn [read_skills].
  rewrite bind_ret. unfold skills_normalized.
  destruct (get fields (js "skills")) as [[| | | | |]|];
    cbn [truthy isArray negb orb]; rewrite ?orb_true_r; reflexivity.
Qed.

Lemma read_reply_object w reply fields l :
  parse (clean_reply reply) = Some (JObject fields) ->
  read_reply w reply l = (Normal (JObject (skills_normalized fields)), l).
Proof.
  intros H. unfold read_reply, try_catch.
  rewrite (direct_parse_object w _ fields l H). reflexivity.
Qed.

(** ** The whole of an accepted upload in closed form *)

(** Reading a reply gives its data, or the 500 of a reply without data; it
    makes no call and throws nothing. *)
Lemma read_reply_data w reply l :
  read_reply w reply l =
  match reply_data reply with
  | Some v => (Normal v, l)
  | None => (Return (unreadable_response w reply), l)
  end.
Proof.
  unfold reply_data, unreadable_response. cbv zeta.
  destruct (parse (clean_reply reply)) as [v|] eqn:Hp.
  - destruct v as [|b|value|s|items|fields];
      try (unfold read_reply, try_catch, direct_parse; rewrite Hp;
           cbn [read_skills write_skills truthy isArray negb orb];
           rewrite ?bind_ret, ?bind_throw; unfold ret, throw, repair_parse;
           cbn [truthy isArray negb orb write_skills];
           destruct (match_ braces_re (clean_reply reply)) as [span|];
           [destruct (parse span)|]; reflexivity).
    apply read_reply_object. exact Hp.
  - unfold read_reply, try_catch, direct_parse. rewrite Hp.
    unfold throw, repair_parse.
    destruct (match_ braces_re (clean_reply reply)) as [span|];
      [destruct (parse span)|]; reflexivity.
Qed.

(** The branches in closed form. *)
Lemma prepared_run w file :
  prepared w file =
  match route file with
  | Binary =>
      (Normal (binary_prompt file,
               Some (mkInline (toString_base64 (bytes file)) (type file))),
       mkLocals (name file) [])
  | Text =>
      (Normal (text_prompt (toString_utf8 (bytes file)), None), mkLocals (name file) [])
  | Document =>
      let x := extraction_of_layers w (bytes file) in
      let l1 :=
        mkLocals (name file)
          (layer_calls
             (List.length (raw_yield w (bytes file)) <? 50)%nat
             (List.length (textContent (extraction_before_salvage w (bytes file))) <? 20)%nat) in
      if (List.length (textContent x) <? 10)%nat
      then (Return (doc_error_response (name file) (JsError unreadable_message)), l1)
      else if (List.length (textContent x) <? 2 * count_class special_char (textContent x))%nat
              && (List.length (textContent x) <? 100)%nat
      then (Return (doc_error_response (name file) (JsError corrupted_message)), l1)
      else (Normal (doc_prompt x, None), l1)
  | Unsupported => (Return unsupported_response, mkLocals (name file) [])
  end.
Proof.
  unfold prepared. rewrite prepare_run.
  destruct (route file); try reflexivity.
  rewrite doc_branch_run. cbv zeta. cbn [fileName trace app].
  destruct (List.length (textContent (extraction_of_layers w (bytes file))) <? 10)%nat;
    [reflexivity|].
  destruct ((List.length (textContent (extraction_of_layers w (bytes file)))
             <? 2 * count_class special_char
                      (textContent (extraction_of_layers w (bytes file))))%nat
            && (List.length (textContent (extraction_of_layers w (bytes file))) <? 100)%nat);
    reflexivity.
Qed.

(** The branches end with a prompt, with the document fallback or with the
    400 of a file no branch takes; they leave [fileName] alone. *)
Lemma prepared_cases w file :
  (exists prompt0 fileData tr,
      prepared w file = (Normal (prompt0, fileData), mkLocals (name file) tr)
      /\ route file <> Unsupported)
  \/ (exists docError tr,
        prepared w file
        = (Return (doc_error_response (name file) docError), mkLocals (name file) tr)
        /\ route file = Document)
  \/ (prepared w file = (Return unsupported_response, mkLocals (name file) [])
      /\ route file = Unsupported).
Proof.
  rewrite prepared_run.
  destruct (route file); cbv zeta.
  - left. do 3 eexists. split; [reflexivity|discriminate].
  - left. do 3 eexists. split; [reflexivity|discriminate].
  - destruct (List.length (textContent (extraction_of_layers w (bytes file))) <? 10)%nat.
    { right; left. do 2 eexists. split; reflexivity. }
    destruct ((List.length (textContent (extraction_of_layers w (bytes file)))
               <? 2 * count_class special_char
                        (textContent (extraction_of_layers w (bytes file))))%nat
              && (List.length (textContent (extraction_of_layers w (bytes file))) <? 100)%nat).
    { right; left. do 2 eexists. split; reflexivity. }
    left. do 3 eexists. split; [reflexivity|discriminate].
  - right; right. split; reflexivity.
Qed.

(** An accepted upload, the credential being configured: the branches, the
    model call, the reading of the reply. *)
Lemma POST_accepted w file :
  accepted file = true ->
  configured w = true ->
  POST w (upload file) =
  match prepared w file with
  | (Normal p, l1) =>
      match call_model w (fst p ++ schema_prompt) (snd p) l1 with
      | (Normal reply, l2) =>
          (Return match reply_data reply with
                  | Some v => success_response file v
                  | None => unreadable_response w reply
                  end, trace l2)
      | (Throw e, l2) => (Return (ai_error_response (name file) e), trace l2)
      | (Return r, l2) => (Return r, trace l2)
      end
  | (Throw e, l1) => (Return (ai_error_response (name file) e), trace l1)
  | (Return r, l1) => (Return r, trace l1)
  end.
Proof.
  intros Hacc Hc. rewrite POST_upload, Hacc, process_run by assumption.
  unfold prepared.
  destruct (prepare w file (fileExtension_of (name file)) (bytes file)
              (mkLocals (name file) [])) as [[p|e|r] l1] eqn:Hprep;
    destruct (prepare_trace w file _ _ _ Hprep) as [Hname _]; cbn [fileName] in Hname.
  - destruct (call_model_schedule w (fst p ++ schema_prompt) (snd p) l1)
      as (c & n & _ & -> & _ & _).
    destruct c as [reply|e|r]; cbn [fileName trace]; rewrite ?Hname; try reflexivity.
    rewrite read_reply_data. destruct (reply_data reply); reflexivity.
  - rewrite Hname. reflexivity.
  - reflexivity.
Qed.

Lemma credential_error_classified e :
  credential_error e = true <-> classify e = Credential.
Proof.
  destruct e as [message|]; cbn [credential_error classify]; [|split; discriminate].
  cbv zeta.
  destruct (includes (toLowerCase message) (js "overloaded"));
    destruct (includes (toLowerCase message) (js "503"));
    destruct (includes (toLowerCase message) (js "quota"));
    destruct (includes (toLowerCase message) (js "limit"));
    destruct (includes (toLowerCase message) (js "api key"));
    destruct (includes (toLowerCase message) (js "unauthorized"));
    cbn [orb andb negb]; split; intros H; try reflexivity; discriminate H.
Qed.

(** C1, as amended.  For every uploaded file that passes the allow-list the
    handler returns a response and does not throw.  The response is the
    success response with the data of the model's reply, or a success-shaped
    fallback (status 200, [success:true], the empty record,
    [aiProcessed:false]), except in four cases the handler answers with an
    error status: the credential is not configured (500); no branch takes
    the file (400); the model call failed with a credential error (401); and
    the reply of the model holds no data (500).  The model call is the one
    of this request, made with the prompt and the payload of the file, and
    the reply is what that call gave. *)
Theorem accepted_upload_answer w file :
  accepted file = true ->
  exists r tr,
    POST w (upload file) = (Return r, tr)
    /\ ((configured w = false
         /\ r = not_configured_response /\ Handler.status r = 500)
        \/ (configured w = true /\ route file = Unsupported
            /\ r = unsupported_response /\ Handler.status r = 400)
        \/ (configured w = true
            /\ exists docError l1,
                 prepared w file = (Return r, l1)
                 /\ r = doc_error_response (name file) docError
                 /\ fallback_shaped r)
        \/ (configured w = true
            /\ exists prompt0 fileData l1,
                 prepared w file = (Normal (prompt0, fileData), l1)
                 /\ ((exists e l2,
                        call_model w (prompt0 ++ schema_prompt) fileData l1 = (Throw e, l2)
                        /\ r = ai_error_response (name file) e
                        /\ if credential_error e
                           then r = credential_response /\ Handler.status r = 401
                           else fallback_shaped r)
                     \/ (exists reply l2,
                           call_model w (prompt0 ++ schema_prompt) fileData l1
                           = (Normal reply, l2)
                           /\ match reply_data reply with
                              | Some v =>
                                  r = success_response file v /\ Handler.status r = 200
                              | None =>
                                  r = unreadable_response w reply
                                  /\ Handler.status r = 500
                              end)))).
Proof.
  intros Hacc.
  destruct (configured w) eqn:Hc.
  2:{ rewrite POST_upload, Hacc, process_not_configured by assumption.
      do 2 eexists. split; [reflexivity|]. left. repeat split. }
  rewrite (POST_accepted w file Hacc Hc).
  destruct (prepared_cases w file)
    as [(prompt0 & fileData & tr & Hprep & _)
       |[(docError & tr & Hprep & _)|[Hprep Hroute]]]; rewrite Hprep.
  - cbn [fst snd].
    destruct (call_model_schedule w (prompt0 ++ schema_prompt) fileData
                (mkLocals (name file) tr)) as (c & n & _ & Hcall & _ & Hlast).
    rewrite Hcall.
    destruct Hlast as [(reply & _ & ->)|(e & -> & _)];
      (do 2 eexists; split; [reflexivity|]);
      right; right; right; (split; [reflexivity|]);
      exists prompt0, fileData, (mkLocals (name file) tr);
      (split; [reflexivity|]); rewrite Hcall.
    + right. do 2 eexists. split; [reflexivity|].
      destruct (reply_data reply); split; reflexivity.
    + left. do 2 eexists. split; [reflexivity|]. split; [reflexivity|].
      destruct (ai_error_shape (name file) e) as [[Hk Hshape]|[Hk Heq]].
      * destruct (credential_error e) eqn:He; [|exact Hshape].
        apply credential_error_classified in He. contradiction.
      * apply credential_error_classified in Hk. rewrite Hk, Heq.
        split; reflexivity.
  - do 2 eexists. split; [reflexivity|].
    right; right; left. split; [reflexivity|].
    do 2 eexists. split; [reflexivity|]. split; [reflexivity|]. apply doc_error_fallback.
  - do 2 eexists. split; [reflexivity|].
    right; left. repeat split. exact Hroute.
Qed.

Lemma accepted_upload_answer_witness :
  exists r tr,
    POST (replying (js "{}")) (upload cv_txt) = (Return r, tr)
    /\ ((configured (replying (js "{}")) = false
         /\ r = not_configured_response /\ Handler.status r = 500)
        \/ (configured (replying (js "{}")) = true /\ route cv_txt = Unsupported
            /\ r = unsupported_response /\ Handler.status r = 400)
        \/ (configured (replying (js "{}")) = true
            /\ exists docError l1,
                 prepared (replying (js "{}")) cv_txt = (Return r, l1)
                 /\ r = doc_error_response (name cv_txt) docError
                 /\ fallback_shaped r)
        \/ (configured (replying (js "{}")) = true
            /\ exists prompt0 fileData l1,
                 prepared (replying (js "{}")) cv_txt = (Normal (prompt0, fileData), l1)
                 /\ ((exists e l2,
                        call_model (replying (js "{}")) (prompt0 ++ schema_prompt) fileData l1
                        = (Throw e, l2)
                        /\ r = ai_error_response (name cv_txt) e
                        /\ if credential_error e
                           then r = credential_response /\ Handler.status r = 401
                           else fallback_shaped r)
                     \/ (exists reply l2,
                           call_model (replying (js "{}")) (prompt0 ++ schema_prompt)
                             fileData l1
                           = (Normal reply, l2)
                           /\ match reply_data reply with
                              | Some v =>
                                  r = success_response cv_txt v /\ Handler.status r = 200
                              | None =>
                                  r = unreadable_response (replying (js "{}")) reply
                                  /\ Handler.status r = 500
                              end)))).
Proof.
  apply (accepted_upload_answer (replying (js "{}")) cv_txt).
  by_computation.
Defined.

(** C1, counterexample: a text file that passes the allow-list, a model that
    answers in prose: the response has status 500, carries no [success]
    flag, and is not the fallback. *)
Lemma unparseable_reply_is_a_500 :
  accepted cv_txt = true
  /\ exists r tr,
       POST (replying (js "I am sorry, I cannot read this resume.")) (upload cv_txt)
       = (Return r, tr)
       /\ Handler.status r = 500
       /\ field r "success" = None
       /\ ~ fallback_shaped r.
Proof.
  split; [by_computation|].
  eexists. eexists. split; [by_computation|].
  split; [reflexivity|]. split; [reflexivity|].
  intros (H & _). discriminate H.
Qed.

(** ** The allow-list *)

Lemma status_neq r r' : Handler.status r <> Handler.status r' -> r <> r'.
Proof. intros H E. apply H. rewrite E. reflexivity. Qed.

Lemma answer_is_not_invalid_type w file r tr file' ext' :
  answer w file r tr -> r <> invalid_type_response file' ext'.
Proof.
  intros Hans.
  destruct Hans as [Hc|Hc Hr|e tr Hc Hr Hatt|prompt fileData l l' e tr Hc Hatt Hcall
                   |reply l err e tr Hc Hatt Hread|reply l v tr Hc Hatt Hread];
    try (apply status_neq; discriminate).
  - intros E. apply (f_equal error_initial) in E. vm_compute in E. discriminate E.
  - unfold ai_error_response. destruct (classify e); apply status_neq; discriminate.
Qed.

(** C2, as amended.  The invalid-file-type 400 is returned exactly when both
    the declared type and the lower-cased extension are outside their
    allow-lists, and then nothing is extracted.  When one of the two checks
    passes, that response is not returned; and when moreover the credential
    is configured and a branch processes the file (by its type: image or
    PDF; by type or extension: text, DOC or DOCX), an extraction attempt is
    made: the document library or the model is called. *)
Theorem allow_list_gate w file :
  (accepted file = false ->
   POST w (upload file)
   = (Return (invalid_type_response file (fileExtension_of (name file))), []))
  /\ (accepted file = true ->
      exists r tr,
        POST w (upload file) = (Return r, tr)
        /\ (forall file' ext', r <> invalid_type_response file' ext')
        /\ (configured w = true -> route file <> Unsupported ->
            extraction_attempted tr = true)).
Proof.
  split.
  - intros Hacc. rewrite POST_upload, Hacc. reflexivity.
  - intros Hacc.
    destruct (POST_answers w file Hacc) as (r & tr & Heq & Hans).
    exists r, tr. split; [exact Heq|]. split.
    + intros file' ext'. eapply answer_is_not_invalid_type; eassumption.
    + intros Hc Hr.
      destruct Hans as [Hc'|Hc' Hr'|e tr Hc' Hr' Hatt
                       |prompt fileData l l' e tr Hc' Hatt Hcall
                       |reply l err e tr Hc' Hatt Hread|reply l v tr Hc' Hatt Hread];
        try assumption; congruence.
Qed.

Lemma allow_list_gate_witness :
  (POST (replying (js "{}")) (upload archive_zip)
   = (Return (invalid_type_response archive_zip (fileExtension_of (name archive_zip))), []))
  /\ (exists r tr,
        POST (replying (js "{}")) (upload cv_txt) = (Return r, tr)
        /\ (forall file' ext', r <> invalid_type_response file' ext')
        /\ (configured (replying (js "{}")) = true -> route cv_txt <> Unsupported ->
            extraction_attempted tr = true)).
Proof.
  split.
  - apply (proj1 (allow_list_gate (replying (js "{}")) archive_zip)).
    by_computation.
  - apply (proj2 (allow_list_gate (replying (js "{}")) cv_txt)).
    by_computation.
Defined.

(** C2, counterexample: [photo.png] sent as [application/octet-stream]
    passes the allow-list by its extension and is turned away with a 400
    before anything is extracted; and without the credential an accepted
    text file gets a 500 and no extraction either. *)
Lemma accepted_but_not_extracted :
  (accepted photo_png = true
   /\ POST (replying (js "{}")) (upload photo_png) = (Return unsupported_response, [])
   /\ Handler.status unsupported_response = 400)
  /\ (accepted cv_txt = true
      /\ POST unconfigured (upload cv_txt) = (Return not_configured_response, [])).
Proof.
  split; split; try by_computation; split; by_computation.
Qed.

(* ================================================================== *)
(** * The retry policy *)
(* ================================================================== *)









(* ================================================================== *)
(** * The reply in a fence *)
(* ================================================================== *)

Lemma forallb_prefix {A} (f : A -> bool) a b :
  forallb f (a ++ b) = true -> forallb f a = true.
Proof. rewrite forallb_app. intros H. apply andb_prop in H. apply H. Qed.

(** C4, as amended.  For every reply that is a code fence (with the [json]
    tag or bare) around a valid JSON object, followed by prose that has a
    visible code unit and no closing brace, neither the object nor the prose
    containing a fence of its own: stripping the fences leaves the object and
    the prose, the direct parse fails, the span from the first [{] to the
    last [}] of the text is the object, and parsing it succeeds with the
    object's value. *)
Theorem fenced_object_is_recovered w tagged inner prose fields l :
  let object := 123 :: inner ++ [125] in
  parse object = Some (JObject fields) ->
  fence_free object = true ->
  fence_free prose = true ->
  brace_free prose = true ->
  visible prose = true ->
  clean_reply (fenced tagged object prose) = object ++ trimEnd prose
  /\ parse (clean_reply (fenced tagged object prose)) = None
  /\ match_ braces_re (clean_reply (fenced tagged object prose)) = Some object
  /\ read_reply w (fenced tagged object prose) l = (Normal (JObject fields), l).
Proof.
  intros object Hparse Hobj Hprose Hbrace Hvisible.
  destruct (trimEnd_visible prose Hvisible) as (front & c & back & Hend & Hc & Hsplit).
  assert (Hclean : clean_reply (fenced tagged object prose) = object ++ trimEnd prose).
  { unfold clean_reply. rewrite strip_fences by assumption.
    assert (Htrim : trim ((if tagged then [] else nl) ++ object ++ prose)
                    = object ++ trimEnd prose).
    { unfold object.
      rewrite <- (trim_after_object 123 (inner ++ [125]) prose)
        by (reflexivity || assumption).
      destruct tagged; reflexivity. }
    rewrite Htrim. reflexivity. }
  assert (Hdirect : parse (object ++ trimEnd prose) = None).
  { unfold object. change (123 :: inner ++ [125]) with ((123 :: inner) ++ [125]).
    apply (parse_object_then_prose (123 :: inner) (JObject fields)); [exact Hparse|].
    unfold visible. rewrite Hend, existsb_app. cbn [existsb]. rewrite Hc.
    apply orb_true_r. }
  assert (Hspan : match_ braces_re (object ++ trimEnd prose) = Some object).
  { unfold object. apply match_braces.
    unfold brace_free in *. rewrite Hsplit in Hbrace.
    exact (forallb_prefix _ _ _ Hbrace). }
  rewrite Hclean. repeat split; try assumption.
  unfold read_reply, try_catch. rewrite Hclean.
  unfold direct_parse. rewrite Hdirect.
  unfold throw, repair_parse. rewrite Hspan, Hparse. reflexivity.
Qed.

Lemma fenced_object_is_recovered_witness :
  clean_reply (fenced true jane_object plain_prose) = jane_object ++ trimEnd plain_prose
  /\ parse (clean_reply (fenced true jane_object plain_prose)) = None
  /\ match_ braces_re (clean_reply (fenced true jane_object plain_prose)) = Some jane_object
  /\ read_reply (replying (fenced true jane_object plain_prose))
       (fenced true jane_object plain_prose) (mkLocals (js "cv.txt") [])
     = (Normal (JObject [(js "name", str "Jane")]), mkLocals (js "cv.txt") []).
Proof.
  apply (fenced_object_is_recovered
           (replying (fenced true jane_object plain_prose))
           true jane_inner plain_prose [(js "name", str "Jane")]
           (mkLocals (js "cv.txt") [])).
  - by_computation.
  - by_computation.
  - by_computation.
  - by_computation.
  - by_computation.
Defined.

(** C4, counterexample: the object is valid and stands in a fence, and the
    prose after it has a brace of its own: the span runs to that last brace,
    does not parse, and the answer is a 500. *)
Lemma brace_in_prose_breaks_the_repair :
  parse jane_object = Some (JObject [(js "name", str "Jane")])
  /\ match_ braces_re (clean_reply (fenced true jane_object braced_prose))
     = Some (jane_object ++ nl ++ js "Fields in {braces}")
  /\ parse (jane_object ++ nl ++ js "Fields in {braces}") = None
  /\ exists r tr,
       POST (replying (fenced true jane_object braced_prose)) (upload cv_txt)
       = (Return r, tr)
       /\ Handler.status r = 500
       /\ field r "error" = Some (str "Failed to parse AI response").
Proof.
  split; [by_computation|].
  split; [by_computation|].
  split; [by_computation|].
  do 2 eexists. split; [by_computation|].
  split; reflexivity.
Qed.

(** A fence inside the object is stripped with the others: the value that
    is parsed is then not the value the model sent. *)
Lemma backticks_in_object_are_stripped :
  parse fenced_summary = Some (JObject [(js "summary", str "Uses ``` fences")])
  /\ read_reply (replying (fenced true fenced_summary plain_prose))
       (fenced true fenced_summary plain_prose) (mkLocals (js "cv.txt") [])
     = (Normal (JObject [(js "summary", str "Uses  fences")]),
        mkLocals (js "cv.txt") []).
Proof. split; by_computation. Qed.

(* ================================================================== *)
(** * The keys of [extractedData] *)
(* ================================================================== *)

(** C5, as amended.  For every accepted file the response is one of three
    kinds.  A fallback response ([aiProcessed:false]) carries
    [extractedData] with the seven keys [name, email, phone, skills,
    experience, education, summary] at their empty defaults.  The success
    response ([aiProcessed:true]) carries the data of the reply the model
    gave to this request, as [JSON.stringify] writes them, with the keys
    those data have.  A response with an error status carries no
    [extractedData]. *)
Theorem extractedData_of_answer w file :
  accepted file = true ->
  exists r tr,
    POST w (upload file) = (Return r, tr)
    /\ ((Handler.status r = 200
         /\ field r "aiProcessed" = Some (JBool false)
         /\ field r "extractedData"
            = Some (JObject [ (js "name", str ""); (js "email", str "");
                              (js "phone", str ""); (js "skills", JArray []);
                              (js "experience", JArray []); (js "education", JArray []);
                              (js "summary", str "") ])
         /\ has_required_keys empty_extractedData = true)
        \/ (exists prompt0 fileData l1 reply l2 v,
              prepared w file = (Normal (prompt0, fileData), l1)
              /\ call_model w (prompt0 ++ schema_prompt) fileData l1 = (Normal reply, l2)
              /\ reply_data reply = Some v
              /\ Handler.status r = 200
              /\ field r "aiProcessed" = Some (JBool true)
              /\ field r "extractedData" = Some (serialized v))
        \/ (Handler.status r <> 200 /\ field r "extractedData" = None)).
Proof.
  intros Hacc.
  destruct (configured w) eqn:Hc.
  2:{ rewrite POST_upload, Hacc, process_not_configured by assumption.
      do 2 eexists. split; [reflexivity|].
      right; right. split; [discriminate|reflexivity]. }
  rewrite (POST_accepted w file Hacc Hc).
  destruct (prepared_cases w file)
    as [(prompt0 & fileData & tr & Hprep & _)
       |[(docError & tr & Hprep & _)|[Hprep Hroute]]]; rewrite Hprep.
  - cbn [fst snd].
    destruct (call_model w (prompt0 ++ schema_prompt) fileData (mkLocals (name file) tr))
      as [[reply|e|r] l2] eqn:Hcall.
    + do 2 eexists. split; [reflexivity|].
      destruct (reply_data reply) as [v|] eqn:Hdata.
      * right; left. exists prompt0, fileData, (mkLocals (name file) tr), reply, l2, v.
        repeat split; assumption.
      * right; right. split; [discriminate|reflexivity].
    + do 2 eexists. split; [reflexivity|].
      unfold ai_error_response. destruct (classify e).
      * left. repeat split.
      * left. repeat split.
      * right; right. split; [discriminate|reflexivity].
      * left. repeat split.
    + destruct (call_model_schedule w (prompt0 ++ schema_prompt) fileData
                  (mkLocals (name file) tr)) as (c & n & _ & Heq & _ & Hlast).
      rewrite Hcall in Heq. injection Heq as <- _.
      destruct Hlast as [(text & _ & Habs)|(e & Habs & _)]; discriminate Habs.
  - do 2 eexists. split; [reflexivity|]. left. repeat split.
  - do 2 eexists. split; [reflexivity|].
    right; right. split; [discriminate|reflexivity].
Qed.

Lemma extractedData_of_answer_witness :
  exists r tr,
    POST (replying (js "{}")) (upload cv_txt) = (Return r, tr)
    /\ ((Handler.status r = 200
         /\ field r "aiProcessed" = Some (JBool false)
         /\ field r "extractedData"
            = Some (JObject [ (js "name", str ""); (js "email", str "");
                              (js "phone", str ""); (js "skills", JArray []);
                              (js "experience", JArray []); (js "education", JArray []);
                              (js "summary", str "") ])
         /\ has_required_keys empty_extractedData = true)
        \/ (exists prompt0 fileData l1 reply l2 v,
              prepared (replying (js "{}")) cv_txt = (Normal (prompt0, fileData), l1)
              /\ call_model (replying (js "{}")) (prompt0 ++ schema_prompt) fileData l1
                 = (Normal reply, l2)
              /\ reply_data reply = Some v
              /\ Handler.status r = 200
              /\ field r "aiProcessed" = Some (JBool true)
              /\ field r "extractedData" = Some (serialized v))
        \/ (Handler.status r <> 200 /\ field r "extractedData" = None)).
Proof.
  apply (extractedData_of_answer (replying (js "{}")) cv_txt).
  by_computation.
Defined.

(** C5, counterexample: the model answers [{}]; the response reports
    success and its [extractedData] has the key [skills] alone.  And a reply
    the handler cannot parse is answered without any [extractedData]. *)
Lemma empty_object_reply_lacks_keys :
  accepted cv_txt = true
  /\ (exists r tr,
        POST (replying (js "{}")) (upload cv_txt) = (Return r, tr)
        /\ Handler.status r = 200
        /\ field r "extractedData" = Some (JObject [(js "skills", JArray [])])
        /\ has_required_keys (JObject [(js "skills", JArray [])]) = false)
  /\ (exists r tr,
        POST (replying (js "no resume found")) (upload cv_txt) = (Return r, tr)
        /\ field r "extractedData" = None).
Proof.
  split; [by_computation|]. split.
  - do 2 eexists. split; [by_computation|]. repeat split.
  - do 2 eexists. split; [by_computation|]. reflexivity.
Qed.

(* ================================================================== *)
(** * The document branch *)
(* ================================================================== *)

(** A file the text or the document branch takes passes the allow-list. *)
Lemma routed_is_accepted file :
  route file = Text \/ route file = Document -> accepted file = true.
Proof.
  unfold route, accepted, is_text, is_doc, isValidMimeType, isValidExtension,
    array_includes, allowedTypes, allowedExtensions.
  cbn [existsb].
  destruct (is_image_or_pdf file); [intros [H|H]; discriminate H|].
  destruct (Str.eqb (type file) (js "text/plain")) eqn:E1;
    [intros _; rewrite !orb_true_r; reflexivity|].
  destruct (Str.eqb (type file) (js "application/msword")) eqn:E2;
    [intros _; rewrite !orb_true_r; reflexivity|].
  destruct (Str.eqb (type file)
              (js "application/vnd.openxmlformats-officedocument.wordprocessingml.document"))
    eqn:E3; [intros _; rewrite !orb_true_r; reflexivity|].
  destruct (fileExtension_of (name file)) as [ext|]; cbn [ext_is orb];
    [|intros [H|H]; discriminate H].
  destruct (Str.eqb ext (js "txt")) eqn:Et.
  { apply jstr_eqb_eq in Et. subst ext. intros _.
    apply orb_true_iff. right. vm_compute. reflexivity. }
  destruct (Str.eqb ext (js "doc")) eqn:Ed.
  { apply jstr_eqb_eq in Ed. subst ext. intros _.
    apply orb_true_iff. right. vm_compute. reflexivity. }
  destruct (Str.eqb ext (js "docx")) eqn:Ex.
  { apply jstr_eqb_eq in Ex. subst ext. intros _.
    apply orb_true_iff. right. vm_compute. reflexivity. }
  intros [H|H]; discriminate H.
Qed.

Lemma extract_layers_unreadable w buffer l :
  (List.length (raw_yield w buffer) < 10)%nat ->
  (List.length (html_yield w buffer) < 10)%nat ->
  (List.length (salvage_yield buffer) < 10)%nat ->
  exists x,
    extract_layers w buffer l =
    (Normal x, mkLocals (fileName l)
                 (trace l ++ [CallExtractRawText; CallConvertToHtml; DecodePlainText]))
    /\ (List.length (textContent x) < 10)%nat.
Proof.
  unfold raw_yield, html_yield, salvage_yield, yield. intros Hraw Hhtml Hsalvage.
  unfold extract_layers, bind.
  rewrite raw_text_layer_run.
  set (x1 := match extractRawText w buffer with
             | Ok v => mkExtraction v (js "raw-text")
             | Throws _ => mkExtraction [] (js "unknown")
             end).
  assert (H1 : (List.length (textContent x1) < 10)%nat).
  { unfold x1. destruct (extractRawText w buffer); cbn [textContent List.length]; lia. }
  rewrite html_layer_run by lia.
  set (x2 := match convertToHtml w buffer with
             | Ok v => mkExtraction (html_to_text v) (js "html-fallback")
             | Throws _ => x1
             end).
  assert (H2 : (List.length (textContent x2) < 10)%nat).
  { unfold x2. destruct (convertToHtml w buffer); cbn [textContent]; lia. }
  rewrite plain_text_layer_run by lia.
  eexists. split.
  - cbn [fileName trace]. rewrite <- !app_assoc. reflexivity.
  - destruct (List.length (textContent x2) <? List.length (toString_utf8 buffer))%nat;
      cbn [textContent]; assumption.
Qed.

(** C6, as amended.  For every file the document branch takes, the
    credential being configured, whose three layers each yield fewer than 10
    code units, the handler answers with status 200, [success:true],
    [aiProcessed:false], [parseError:true] and the record whose seven fields
    are empty, after the three layers and without calling the model. *)
Theorem unreadable_document_fallback w file :
  configured w = true ->
  route file = Document ->
  (List.length (raw_yield w (bytes file)) < 10)%nat ->
  (List.length (html_yield w (bytes file)) < 10)%nat ->
  (List.length (salvage_yield (bytes file)) < 10)%nat ->
  let r := doc_error_response (name file) (JsError unreadable_message) in
  POST w (upload file)
  = (Return r, [CallExtractRawText; CallConvertToHtml; DecodePlainText])
  /\ Handler.status r = 200
  /\ field r "success" = Some (JBool true)
  /\ field r "fileName" = Some (JString (name file))
  /\ field r "aiProcessed" = Some (JBool false)
  /\ field r "parseError" = Some (JBool true)
  /\ field r "extractedData"
     = Some (JObject [ (js "name", str ""); (js "email", str ""); (js "phone", str "");
                       (js "skills", JArray []); (js "experience", JArray []);
                       (js "education", JArray []); (js "summary", str "") ])
  /\ field r "error" = None.
Proof.
  intros Hc Hroute Hraw Hhtml Hsalvage r.
  split; [|repeat split].
  rewrite POST_upload, (routed_is_accepted file (or_intror Hroute)).
  rewrite process_run by assumption.
  rewrite prepare_run, Hroute.
  unfold doc_branch, try_catch, bind at 1.
  destruct (extract_layers_unreadable w (bytes file) (mkLocals (name file) [])
              Hraw Hhtml Hsalvage) as (x & -> & Hx).
  unfold bind, validate_text.
  apply Nat.ltb_lt in Hx. rewrite Hx.
  reflexivity.
Qed.

Lemma unreadable_document_fallback_witness :
  let r := doc_error_response (name cv_docx) (JsError unreadable_message) in
  POST empty_docx_world (upload cv_docx)
  = (Return r, [CallExtractRawText; CallConvertToHtml; DecodePlainText])
  /\ Handler.status r = 200
  /\ field r "success" = Some (JBool true)
  /\ field r "fileName" = Some (JString (name cv_docx))
  /\ field r "aiProcessed" = Some (JBool false)
  /\ field r "parseError" = Some (JBool true)
  /\ field r "extractedData"
     = Some (JObject [ (js "name", str ""); (js "email", str ""); (js "phone", str "");
                       (js "skills", JArray []); (js "experience", JArray []);
                       (js "education", JArray []); (js "summary", str "") ])
  /\ field r "error" = None.
Proof.
  apply (unreadable_document_fallback empty_docx_world cv_docx).
  - reflexivity.
  - by_computation.
  - vm_compute. lia.
  - vm_compute. lia.
  - vm_compute. lia.
Defined.

(** C6, counterexample: a DOCX file none of whose layers yields a
    character of text.  Without the credential the handler answers it with
    status 500 before any layer runs; and the same bytes under the name
    [cv.docx] but declared [text/plain] go to the model as a text file, the
    layers never being asked. *)
Lemma unreadable_document_without_credential :
  route cv_docx = Document
  /\ (List.length (raw_yield unconfigured (bytes cv_docx)) < 10)%nat
  /\ (List.length (html_yield unconfigured (bytes cv_docx)) < 10)%nat
  /\ (List.length (salvage_yield (bytes cv_docx)) < 10)%nat
  /\ POST unconfigured (upload cv_docx) = (Return not_configured_response, [])
  /\ Handler.status not_configured_response = 500
  /\ field not_configured_response "success" = None
  /\ (exists r,
        POST empty_docx_world (upload docx_as_text)
        = (Return r,
           [CallGenerateContent 0
              (text_prompt (toString_utf8 (bytes docx_as_text)) ++ schema_prompt) None])
        /\ field r "aiProcessed" = Some (JBool true)).
Proof.
  split; [by_computation|].
  split; [vm_compute; lia|]. split; [vm_compute; lia|]. split; [vm_compute; lia|].
  split; [by_computation|]. split; [reflexivity|]. split; [reflexivity|].
  eexists. split; [by_computation|reflexivity].
Qed.

(** C7.  The layers short-circuit in order.  If the raw-text extraction
    yields at least 50 code units, neither the HTML conversion nor the
    plain-text salvage is invoked and the text is the raw text.  If it yields
    fewer than 50 and the cleaned HTML text has at least 20, the salvage is
    not invoked and the text is the cleaned HTML text. *)
Theorem layers_short_circuit w buffer l :
  (forall raw,
      extractRawText w buffer = Ok raw ->
      (50 <= List.length raw)%nat ->
      extract_layers w buffer l =
      (Normal (mkExtraction raw (js "raw-text")),
       mkLocals (fileName l) (trace l ++ [CallExtractRawText])))
  /\
  (forall html,
      (List.length (yield (extractRawText w buffer)) < 50)%nat ->
      convertToHtml w buffer = Ok html ->
      (20 <= List.length (html_to_text html))%nat ->
      extract_layers w buffer l =
      (Normal (mkExtraction (html_to_text html) (js "html-fallback")),
       mkLocals (fileName l) (trace l ++ [CallExtractRawText; CallConvertToHtml]))).
Proof.
  split.
  - intros raw Hraw Hlen.
    unfold extract_layers, bind.
    rewrite raw_text_layer_run, Hraw.
    rewrite html_layer_skip by (cbn [textContent]; lia).
    rewrite plain_text_layer_skip by (cbn [textContent]; lia).
    reflexivity.
  - intros html Hraw Hhtml Hlen.
    unfold extract_layers, bind.
    rewrite raw_text_layer_run.
    rewrite html_layer_run.
    + rewrite Hhtml.
      rewrite plain_text_layer_skip by (cbn [textContent]; lia).
      cbn [trace fileName]. rewrite <- app_assoc. reflexivity.
    + destruct (extractRawText w buffer); cbn [textContent yield List.length] in *; lia.
Qed.


Lemma layers_short_circuit_witness :
  extract_layers long_raw_world (bytes cv_docx) (mkLocals (name cv_docx) [])
  = (Normal (mkExtraction
               (js "Jane Doe - Software Engineer - jane@example.com - Python, Rust")
               (js "raw-text")),
     mkLocals (name cv_docx) [CallExtractRawText])
  /\ extract_layers html_only_world (bytes cv_docx) (mkLocals (name cv_docx) [])
     = (Normal (mkExtraction
                  (html_to_text (js "<p>Jane Doe</p><p>Software Engineer, Python</p>"))
                  (js "html-fallback")),
        mkLocals (name cv_docx) [CallExtractRawText; CallConvertToHtml]).
Proof.
  split.
  - apply (proj1 (layers_short_circuit long_raw_world (bytes cv_docx)
                    (mkLocals (name cv_docx) []))).
    + reflexivity.
    + vm_compute. lia.
  - apply (proj2 (layers_short_circuit html_only_world (bytes cv_docx)
                    (mkLocals (name cv_docx) []))).
    + vm_compute. lia.
    + reflexivity.
    + vm_compute. lia.
Defined.

(* ================================================================== *)
(** * [skills] after the repair parse *)
(* ================================================================== *)

(** On the direct parse a missing or invalid [skills] becomes the empty
    array. *)
Lemma direct_parse_normalizes w text fields l :
  parse text = Some (JObject fields) ->
  exists fields',
    direct_parse w text l = (Normal (JObject fields'), l)
    /\ isArray (get fields' (js "skills")) = true.
Proof.
  intros H. exists (skills_normalized fields).
  split; [apply direct_parse_object; exact H|].
  unfold skills_normalized.
  destruct (isArray (get fields (js "skills"))) eqn:E; [exact E|].
  clear H E. induction fields as [|[k v] fields IH]; [reflexivity|].
  cbn [set get]. destruct (Str.eqb k (js "skills")) eqn:Ek; cbn [get]; rewrite Ek.
  - reflexivity.
  - exact IH.
Qed.

(** C8.  The claim fails on the repair path: the reply has a sentence before
    the object, so the direct parse fails and the span from [{] to [}] is
    parsed; the response reports success and its [extractedData] has no
    [skills] at all, where the direct parse of the same object adds the
    empty array. *)
Theorem repaired_reply_keeps_skills_missing :
  parse (clean_reply prose_then_json) = None
  /\ match_ braces_re (clean_reply prose_then_json) = Some jane_object
  /\ POST (replying prose_then_json) (upload cv_txt)
     = (Return (success_response cv_txt (JObject [(js "name", str "Jane")])),
        [cv_attempt 0])
  /\ property (JObject [(js "name", str "Jane")]) "skills" = None
  /\ POST (replying jane_object) (upload cv_txt)
     = (Return (success_response cv_txt
                  (JObject [(js "name", str "Jane"); (js "skills", JArray [])])),
        [cv_attempt 0]).
Proof.
  split; [by_computation|].
  split; [by_computation|].
  split; [by_computation|].
  split; [reflexivity|by_computation].
Qed.

(* ================================================================== *)
(** * The text branch *)
(* ================================================================== *)

Lemma answer_of_text_is_not_doc_error w file r tr e :
  route file = Text -> answer w file r tr -> r <> doc_error_response (name file) e.
Proof.
  intros Hroute Hans.
  destruct Hans as [Hc|Hc Hr|e' tr Hc Hr Hatt|prompt fileData l l' e' tr Hc Hatt Hcall
                   |reply l err e' tr Hc Hatt Hread|reply l v tr Hc Hatt Hread];
    try congruence; try (apply status_neq; discriminate).
  - unfold ai_error_response.
    destruct (classify e'); intros E;
      apply (f_equal has_six_properties) in E; discriminate E.
  - intros E. apply (f_equal has_six_properties) in E. discriminate E.
Qed.

(** C10, as amended.  For every file the text branch takes (declared type
    [text/plain] or extension [txt], and a declared type that is neither an
    image type nor [application/pdf]), the credential being configured, the
    first thing the handler does is to call the model with the prompt that
    embeds the UTF-8 decoding of the bytes, whatever they are; and its
    response is never the unreadable-document fallback. *)
Theorem text_file_is_sent_unvalidated w file :
  configured w = true ->
  route file = Text ->
  exists r evs,
    POST w (upload file)
    = (Return r,
       CallGenerateContent 0
         (text_prompt (toString_utf8 (bytes file)) ++ schema_prompt) None :: evs)
    /\ forall e, r <> doc_error_response (name file) e.
Proof.
  intros Hc Hroute.
  rewrite POST_upload, (routed_is_accepted file (or_introl Hroute)).
  rewrite process_run by assumption.
  rewrite prepare_run, Hroute. cbv beta iota.
  destruct (model_then_reply w file
              (text_prompt (toString_utf8 (bytes file)), None)
              (mkLocals (name file) []) Hc eq_refl (or_introl eq_refl))
    as (c & l3 & -> & (evs & Htr) & Hatt & [(v & reply & l & -> & Hr)|(r & -> & Hans)]);
    rewrite Htr; do 2 eexists; (split; [reflexivity|]); intros e.
  - intros E. apply (f_equal has_six_properties) in E. discriminate E.
  - eapply answer_of_text_is_not_doc_error; eassumption.
Qed.

Lemma text_file_is_sent_unvalidated_witness :
  exists r evs,
    POST (replying (js "{}")) (upload empty_txt)
    = (Return r,
       CallGenerateContent 0
         (text_prompt (toString_utf8 (bytes empty_txt)) ++ schema_prompt) None :: evs)
    /\ forall e, r <> doc_error_response (name empty_txt) e.
Proof.
  apply (text_file_is_sent_unvalidated (replying (js "{}")) empty_txt).
  - reflexivity.
  - by_computation.
Defined.

(** C10, counterexample: a file named [notes.txt] whose declared type is
    [application/pdf] is not decoded: its bytes go to the model in base64,
    as a PDF. *)
Lemma txt_extension_sent_as_pdf :
  ext_is (fileExtension_of (name notes_txt_as_pdf)) "txt" = true
  /\ snd (POST (replying (js "{}")) (upload notes_txt_as_pdf))
     = [ CallGenerateContent 0 (binary_prompt notes_txt_as_pdf ++ schema_prompt)
           (Some (mkInline (js "aGVsbG8=") (js "application/pdf"))) ]
  /\ binary_prompt notes_txt_as_pdf
     <> text_prompt (toString_utf8 (bytes notes_txt_as_pdf)).
Proof.
  split; [by_computation|].
  split; [by_computation|].
  vm_compute. discriminate.
Qed.

(* ================================================================== *)
(** * [Promise.all] and [uploadMultipleFiles] *)
(* ================================================================== *)

Section PromiseAll.

Context {A : Type}.

Lemma write_slot_length i (v : A) slots :
  List.length (Hook.write_slot i v slots) = List.length slots.
Proof.
  revert i. induction slots as [|s slots IH]; intros [|i]; cbn; auto.
Qed.

Lemma write_slot_same i (v : A) slots :
  (i < List.length slots)%nat -> nth_error (Hook.write_slot i v slots) i = Some (Some v).
Proof.
  revert i. induction slots as [|s slots IH]; intros [|i] H; cbn in *; try lia; auto.
  apply IH. lia.
Qed.

Lemma write_slot_other i j (v : A) slots :
  i <> j -> nth_error (Hook.write_slot i v slots) j = nth_error slots j.
Proof.
  revert i j. induction slots as [|s slots IH]; intros [|i] [|j] H; cbn; auto.
  congruence.
Qed.

Lemma fulfil_agree (promises : list A) order slots :
  slots_agree promises slots -> slots_agree promises (Hook.fulfil promises order slots).
Proof.
  revert slots. induction order as [|i order IH]; intros slots H; cbn [Hook.fulfil];
    [assumption|].
  destruct (nth_error promises i) as [v|] eqn:E; [|apply IH; assumption].
  apply IH. destruct H as [Hlen Hval]. split.
  - rewrite write_slot_length. assumption.
  - intros j v' Hj. destruct (Nat.eq_dec i j) as [->|Hne].
    + rewrite write_slot_same in Hj.
      * inversion Hj; subst. assumption.
      * rewrite Hlen. apply nth_error_Some. congruence.
    + rewrite write_slot_other in Hj by assumption. apply Hval. assumption.
Qed.

(** A filled slot stays filled. *)
Lemma fulfil_keeps (promises : list A) order slots j (v : A) :
  slots_agree promises slots ->
  nth_error slots j = Some (Some v) ->
  nth_error (Hook.fulfil promises order slots) j = Some (Some v).
Proof.
  revert slots. induction order as [|i order IH]; intros slots Hag Hj; cbn [Hook.fulfil];
    [assumption|].
  destruct (nth_error promises i) as [v'|] eqn:E; [|apply IH; assumption].
  pose proof (fulfil_agree promises [i] slots Hag) as Hag'.
  cbn [Hook.fulfil] in Hag'. rewrite E in Hag'.
  apply IH; [assumption|].
  destruct (Nat.eq_dec i j) as [->|Hne].
  - destruct Hag as [Hlen Hval]. rewrite (Hval _ _ Hj) in E. inversion E; subst.
    apply write_slot_same. rewrite Hlen. apply nth_error_Some.
    rewrite (Hval _ _ Hj). discriminate.
  - rewrite write_slot_other by assumption. assumption.
Qed.

End PromiseAll.

Lemma all_filled_map {A} (l : list A) : Hook.all_filled (map Some l) = Some l.
Proof.
  induction l as [|x l IH]; cbn [map Hook.all_filled]; [reflexivity|].
  rewrite IH. reflexivity.
Qed.

(** Once every promise has fulfilled, in whatever order, the array handed
    over is the array of their values, by index. *)
Lemma Promise_all_resolves {A} (promises : list A) order :
  Permutation order (seq 0 (List.length promises)) ->
  Hook.Promise_all promises order = Some promises.
Proof.
  intros Hperm. unfold Hook.Promise_all.
  set (slots0 := map (fun _ : A => @None A) promises).
  assert (H0 : slots_agree promises slots0).
  { split.
    - unfold slots0. apply length_map.
    - intros j v Hj. unfold slots0 in Hj. rewrite nth_error_map in Hj.
      destruct (nth_error promises j); discriminate Hj. }
  clearbody slots0.
  replace (Hook.fulfil promises order slots0) with (map Some promises);
    [apply all_filled_map|].
  apply nth_error_ext. intros j.
  rewrite nth_error_map.
  destruct (nth_error promises j) as [v|] eqn:Ev; cbn [option_map].
  - assert (Hin : In j order).
    { eapply Permutation_in; [apply Permutation_sym; exact Hperm|].
      apply in_seq. split; [lia|].
      cbn. apply nth_error_Some. congruence. }
    clear Hperm. revert slots0 H0.
    induction order as [|i order IH]; intros slots Hag; [destruct Hin|].
    cbn [Hook.fulfil].
    destruct (Nat.eq_dec i j) as [->|Hne].
    + rewrite Ev. symmetry. apply fulfil_keeps.
      * pose proof (fulfil_agree promises [j] slots Hag) as Hag'.
        cbn [Hook.fulfil] in Hag'. rewrite Ev in Hag'. exact Hag'.
      * apply write_slot_same. destruct Hag as [-> _].
        apply nth_error_Some. congruence.
    + destruct Hin as [Hin|Hin]; [contradiction|].
      destruct (nth_error promises i) as [vi|] eqn:Ei.
      * apply IH; [assumption|].
        pose proof (fulfil_agree promises [i] slots Hag) as Hag'.
        cbn [Hook.fulfil] in Hag'. rewrite Ei in Hag'. exact Hag'.
      * apply IH; assumption.
  - symmetry. apply nth_error_None.
    destruct (fulfil_agree promises order slots0 H0) as [-> _].
    apply nth_error_None. assumption.
Qed.

(** C9.  For every list of files, once every upload has completed (in
    whatever order), [uploadMultipleFiles] resolves to a list with one
    element per file, in the order of the files.  Where [fetch] resolved to
    a response that is ok, the element is the body of that response (with
    its [extractedData]).  Where the upload failed the element is marked
    [success:false], names the file and carries the message of the captured
    error: the error with which [fetch] or the reading of the body rejected,
    or, for a response that is not ok, the [error] of its body (the text
    "Upload failed" where the body has none).  No failure keeps the list
    from being returned. *)
Theorem uploadMultipleFiles_in_input_order b order files :
  Permutation order (seq 0 (List.length files)) ->
  let failed (file : File) (message : jstr) :=
    JObject [ (js "success", JBool false); (js "fileName", JString (name file));
              (js "filePath", str ""); (js "extractedData", JObject []);
              (js "error", JString message) ] in
  exists results,
    Hook.uploadMultipleFiles b order files = Some results
    /\ List.length results = List.length files
    /\ forall i file,
         nth_error files i = Some file ->
         exists result,
           nth_error results i = Some result
           /\ (forall response data,
                 Hook.fetch b file = Ok response ->
                 Hook.ok response = true ->
                 Hook.json_body response = Ok data ->
                 result = data)
           /\ (forall e,
                 Hook.fetch b file = Throws e ->
                 result = failed file (message_or e (js "Upload failed")))
           /\ (forall response e,
                 Hook.fetch b file = Ok response ->
                 Hook.json_body response = Throws e ->
                 result = failed file (message_or e (js "Upload failed")))
           /\ (forall response errorData,
                 Hook.fetch b file = Ok response ->
                 Hook.ok response = false ->
                 Hook.json_body response = Ok errorData ->
                 result = failed file (message_or (Hook.upload_error b errorData)
                                         (js "Upload failed"))
                 /\ (forall fields m,
                       errorData = JObject fields ->
                       get fields (js "error") = Some (JString m) ->
                       m <> [] ->
                       result = failed file m)
                 /\ (forall fields,
                       errorData = JObject fields ->
                       get fields (js "error") = None ->
                       result = failed file (js "Upload failed"))).
Proof.
  intros Hperm failed.
  exists (map (Hook.upload_task b) files).
  split; [|split].
  - unfold Hook.uploadMultipleFiles. apply Promise_all_resolves.
    rewrite length_map. assumption.
  - apply length_map.
  - intros i file Hi.
    exists (Hook.upload_task b file).
    split; [rewrite nth_error_map, Hi; reflexivity|].
    unfold Hook.upload_task, Hook.post_file.
    split; [|split; [|split]].
    + intros response data Hf Hok Hj. rewrite Hf, Hok, Hj. reflexivity.
    + intros e Hf. rewrite Hf. reflexivity.
    + intros response e Hf Hj. rewrite Hf, Hj.
      destruct (negb (Hook.ok response)); reflexivity.
    + intros response errorData Hf Hok Hj. rewrite Hf, Hok, Hj. cbn [negb].
      split; [reflexivity|]. split.
      * intros fields m -> Hm Hne. unfold Hook.upload_error. rewrite Hm.
        cbn [truthy]. destruct m as [|c m]; [contradiction|reflexivity].
      * intros fields -> Hm. unfold Hook.upload_error. rewrite Hm. reflexivity.
Qed.

Lemma uploadMultipleFiles_in_input_order_witness :
  let failed (file : File) (message : jstr) :=
    JObject [ (js "success", JBool false); (js "fileName", JString (name file));
              (js "filePath", str ""); (js "extractedData", JObject []);
              (js "error", JString message) ] in
  exists results,
    Hook.uploadMultipleFiles (browser_of (replying jane_object)) [2; 0; 1]%nat three_files
    = Some results
    /\ List.length results = List.length three_files
    /\ forall i file,
         nth_error three_files i = Some file ->
         exists result,
           nth_error results i = Some result
           /\ (forall response data,
                 Hook.fetch (browser_of (replying jane_object)) file = Ok response ->
                 Hook.ok response = true ->
                 Hook.json_body response = Ok data ->
                 result = data)
           /\ (forall e,
                 Hook.fetch (browser_of (replying jane_object)) file = Throws e ->
                 result = failed file (message_or e (js "Upload failed")))
           /\ (forall response e,
                 Hook.fetch (browser_of (replying jane_object)) file = Ok response ->
                 Hook.json_body response = Throws e ->
                 result = failed file (message_or e (js "Upload failed")))
           /\ (forall response errorData,
                 Hook.fetch (browser_of (replying jane_object)) file = Ok response ->
                 Hook.ok response = false ->
                 Hook.json_body response = Ok errorData ->
                 result = failed file (message_or (Hook.upload_error (browser_of (replying jane_object)) errorData)
                                         (js "Upload failed"))
                 /\ (forall fields m,
                       errorData = JObject fields ->
                       get fields (js "error") = Some (JString m) ->
                       m <> [] ->
                       result = failed file m)
                 /\ (forall fields,
                       errorData = JObject fields ->
                       get fields (js "error") = None ->
                       result = failed file (js "Upload failed"))).
Proof.
  apply (uploadMultipleFiles_in_input_order
           (browser_of (replying jane_object)) [2; 0; 1]%nat three_files).
  apply perm_trans with [0; 2; 1]%nat; [apply perm_swap|].
  apply perm_skip. apply perm_swap.
Defined.

(** Three files of which the second is turned away by the allow-list, their
    uploads completing in the order third, first, second. *)
Example three_files_second_fails :
  Hook.uploadMultipleFiles (browser_of (replying jane_object)) [2; 0; 1]%nat three_files
  = Some [ body (success_response cv_txt
                   (JObject [(js "name", str "Jane"); (js "skills", JArray [])]));
           Hook.failed_result archive_zip
             (JsError (js "Invalid file type. Supported formats: PDF, DOC, DOCX, TXT, JPEG, JPG, PNG. Received: application/zip (zip)"));
           body (success_response empty_txt
                   (JObject [(js "name", str "Jane"); (js "skills", JArray [])])) ].
Proof. by_computation. Qed.

(* ================================================================== *)
(** * Further properties of the handler and of the hook *)
(* ================================================================== *)


(* ================================================================== *)
(** * Every request is answered: the shape of the responses *)
(* ================================================================== *)

Lemma fallback_body_reports fileName rest :
  reports_success (mkResponse 200 (fallback_body fileName rest)).
Proof.
  split; [reflexivity|]. split; [reflexivity|].
  split; [eexists; reflexivity|]. split; [eexists; reflexivity|].
  eexists; reflexivity.
Qed.

Lemma ai_error_reports fileName e :
  reports_success (ai_error_response fileName e)
  \/ ai_error_response fileName e = credential_response.
Proof.
  unfold ai_error_response.
  destruct (classify e); [left|left|right|left];
    try reflexivity; apply fallback_body_reports.
Qed.

(** How reading the reply fails: the direct parse threw [e], and the text has
    no span in braces, or has one that does not parse. *)
Lemma read_reply_failure w reply l r l' :
  read_reply w reply l = (Return r, l') ->
  l' = l
  /\ exists e,
       direct_parse w (clean_reply reply) l = (Throw e, l)
       /\ ((match_ braces_re (clean_reply reply) = None
            /\ r = parse_failure_response
                     "Failed to parse AI response - no valid JSON found"
                     (clean_reply reply) e)
           \/ (exists jsonMatch,
                 match_ braces_re (clean_reply reply) = Some jsonMatch
                 /\ parse jsonMatch = None
                 /\ r = parse_failure_response "Failed to parse AI response"
                          (clean_reply reply) e)).
Proof.
  unfold read_reply, try_catch. cbv zeta.
  destruct (direct_parse_result w (clean_reply reply) l) as (c & -> & [[v ->]|[e ->]]);
    [discriminate|].
  unfold repair_parse.
  destruct (match_ braces_re (clean_reply reply)) as [jsonMatch|] eqn:Em.
  - destruct (parse jsonMatch) eqn:Ep; [discriminate|].
    unfold return_. intros H. inversion H; subst. split; [reflexivity|].
    exists e. split; [reflexivity|]. right. exists jsonMatch. auto.
  - unfold return_. intros H. inversion H; subst. split; [reflexivity|].
    exists e. split; [reflexivity|]. left. auto.
Qed.

Lemma answer_reports w file r tr :
  answer w file r tr -> reports_success r \/ reports_error r.
Proof.
  intros H.
  destruct H as [Hc|Hc Hr|e tr Hc Hr Hatt|prompt fileData l l' e tr Hc Hatt Hcall
                |reply l err e tr Hc Hatt Hread|reply l v tr Hc Hatt Hread].
  - right. split; [cbn; auto|]. split; [reflexivity|]. eexists. split; [reflexivity|by_computation].
  - right. split; [cbn; auto|]. split; [reflexivity|]. eexists. split; [reflexivity|by_computation].
  - left. split; [reflexivity|]. split; [reflexivity|].
    split; [eexists; reflexivity|]. split; [eexists; reflexivity|].
    eexists; reflexivity.
  - destruct (ai_error_reports (name file) e) as [H| ->]; [left; exact H|].
    right. split; [cbn; auto|]. split; [reflexivity|]. eexists. split; [reflexivity|by_computation].
  - destruct (read_reply_failure _ _ _ _ _ Hread) as (_ & e' & _ & [[_ ->]|(m & _ & _ & ->)]);
      right; (split; [cbn; auto|]); (split; [reflexivity|]); eexists; (split; [reflexivity|by_computation]).
  - left. split; [reflexivity|]. split; [reflexivity|].
    split; [eexists; reflexivity|]. split; [eexists; reflexivity|].
    eexists; reflexivity.
Qed.

(** Every upload is answered with a response of one of the two shapes. *)
Lemma upload_reports w file :
  exists r tr,
    POST w (upload file) = (Return r, tr)
    /\ (reports_success r \/ reports_error r).
Proof.
  destruct (accepted file) eqn:Hacc.
  - destruct (POST_answers w file Hacc) as (r & tr & Heq & Hans).
    exists r, tr. split; [exact Heq|]. eapply answer_reports; exact Hans.
  - rewrite POST_upload, Hacc. do 2 eexists. split; [reflexivity|].
    right. split; [cbn; auto|]. split; [reflexivity|].
    eexists. split; [reflexivity|by_computation].
Qed.

(** X1.  The handler answers every request, whatever the collaborators do
    and whatever the form holds: it never throws.  The response either
    reports success (status 200 with [success:true], a [fileName], an
    [extractedData] and an [aiProcessed] flag) or reports an error (status
    400, 401 or 500, no [success] property, and a non-empty message under
    [error]).  The one exception is a form whose field [file] is a string
    that is not empty: a string has no name, the [TypeError] this leads to
    is caught, and the answer is the success-shaped fallback without a
    [fileName], no call having been made. *)
Theorem POST_answers_every_request w request :
  exists r tr,
    POST w request = (Return r, tr)
    /\ (reports_success r
        \/ reports_error r
        \/ (exists value,
              formData request = Ok (Some (Field value))
              /\ value <> []
              /\ tr = []
              /\ fallback_shaped r
              /\ field r "fileName" = None
              /\ field r "parseError" = Some (JBool true)
              /\ field r "error"
                 = Some (str "AI processing failed, manual entry required"))).
Proof.
  destruct request as [[[[file|[|c value]]|]|e]].
  - destruct (upload_reports w file) as (r & tr & Heq & [H|H]);
      exists r, tr; (split; [exact Heq|]); [left|right; left]; exact H.
  - do 2 eexists. split; [reflexivity|].
    right; left. split; [cbn; auto|]. split; [reflexivity|].
    eexists. split; [reflexivity|by_computation].
  - do 2 eexists. split; [reflexivity|].
    right; right. exists (c :: value).
    split; [reflexivity|]. split; [discriminate|]. repeat split.
  - do 2 eexists. split; [reflexivity|].
    right; left. split; [cbn; auto|]. split; [reflexivity|].
    eexists. split; [reflexivity|by_computation].
  - do 2 eexists. split; [reflexivity|]. left. apply fallback_body_reports.
Qed.

(** X2.  No collaborator is called unless the request holds a file that
    passes the allow-list and that a branch takes, and the credential is
    configured.  A request whose form data cannot be read is answered with
    the success-shaped fallback that names the file [unknown], and a form
    without a [file] field with status 400, in both cases without any call
    and without a look at the credential. *)
Theorem calls_need_an_accepted_file w request :
  (snd (POST w request) <> [] ->
   exists file,
     request = upload file /\ accepted file = true /\ configured w = true
     /\ route file <> Unsupported)
  /\ (forall e,
        request = mkRequest (Throws e) ->
        POST w request = (Return (upload_error_response (js "unknown")), [])
        /\ fallback_shaped (upload_error_response (js "unknown"))
        /\ field (upload_error_response (js "unknown")) "fileName" = Some (str "unknown"))
  /\ (request = mkRequest (Ok None) ->
      POST w request
      = (Return (mkResponse 400 (JObject [(js "error", str "No file uploaded")])), [])).
Proof.
  split; [|split].
  - destruct request as [[[[file|[|c value]]|]|e]]; [|intros H; destruct H; reflexivity..].
    change (mkRequest (Ok (Some (Uploaded file)))) with (upload file).
    rewrite POST_upload.
    destruct (accepted file) eqn:Hacc; [|intros H; destruct H; reflexivity].
    destruct (configured w) eqn:Hc;
      [|rewrite process_not_configured by assumption; intros H; destruct H; reflexivity].
    rewrite process_run, prepare_run by assumption.
    destruct (route file) eqn:Hroute;
      try (intros _; exists file; split; [reflexivity|]; split; [exact Hacc|];
           split; [reflexivity|]; rewrite Hroute; discriminate).
    intros H; destruct H; reflexivity.
  - intros e ->. split; [reflexivity|]. split; [|reflexivity]. repeat split.
  - intros ->. reflexivity.
Qed.

(* ================================================================== *)
(** * The document layers in closed form *)
(* ================================================================== *)

(** X3.  The three layers of the DOC/DOCX extraction never throw and are
    gated by lengths alone.  The raw-text extraction is always called; the
    HTML conversion is called exactly when the raw text has fewer than 50
    code units (none, when the extraction threw), and where it gives a text
    that text replaces the raw one, whatever its length, while a conversion
    that throws leaves the raw text in place; the bytes are read as plain
    text exactly when fewer than 20 code units are left, and the salvaged
    text is taken when the decoded bytes are more than those.  The
    [extractionMethod] names the layer whose text was kept. *)
Theorem layers_are_gated w buffer l :
  exists x html plain,
    extract_layers w buffer l
    = (Normal x, mkLocals (fileName l) (trace l ++ layer_calls html plain))
    /\ (html = true <-> (List.length (raw_yield w buffer) < 50)%nat)
    /\ (plain = true
        <-> (List.length (textContent (extraction_before_salvage w buffer)) < 20)%nat)
    /\ x = extraction_of_layers w buffer
    /\ (html = true -> forall htmlContent,
          convertToHtml w buffer = Ok htmlContent ->
          extraction_before_salvage w buffer
          = mkExtraction (html_to_text htmlContent) (js "html-fallback"))
    /\ (html = true -> forall e,
          convertToHtml w buffer = Throws e ->
          extraction_before_salvage w buffer = raw_extraction w buffer)
    /\ (html = false -> extraction_of_layers w buffer = raw_extraction w buffer).
Proof.
  do 3 eexists. split; [apply extract_layers_run|].
  split; [apply Nat.ltb_lt|]. split; [apply Nat.ltb_lt|]. split; [reflexivity|].
  unfold extraction_of_layers, extraction_before_salvage, html_yield.
  split; [|split].
  - intros -> htmlContent ->. reflexivity.
  - intros -> e ->. reflexivity.
  - intros H. rewrite H.
    rewrite <- (raw_yield_extraction w buffer) in H.
    apply Nat.ltb_ge in H.
    destruct (List.length (textContent (raw_extraction w buffer)) <? 20)%nat eqn:E20;
      [apply Nat.ltb_lt in E20; lia|reflexivity].
Qed.

(** X4.  Whatever the request and the collaborators, the calls the handler
    makes are the calls of the document layers (for a document only: the raw
    text, then possibly the HTML conversion, then possibly the plain-text
    reading, each at most once), followed by at most four invocations of the
    model, all with the same prompt (which ends with the schema) and the
    same payload, numbered from 0.  The
    model is invoked again only after a failure that is retried, and the
    waits between the invocations are 1000, 2000 and 4000 ms: no request
    waits more than 7 seconds in all. *)
Theorem trace_of_a_request w request :
  exists layers prompt fileData n,
    snd (POST w request) = layers ++ schedule prompt fileData 0 n
    /\ (layers = [] \/ exists html plain, layers = layer_calls html plain)
    /\ (n <= S maxRetries)%nat
    /\ (n = 0%nat \/ exists prompt0, prompt = prompt0 ++ schema_prompt)
    /\ all_retryable w prompt fileData (n - 1)
    /\ attempts (snd (POST w request)) = n
    /\ sleeps (snd (POST w request)) = firstn (n - 1) [1000; 2000; 4000].
Proof.
  assert (Hshape : forall layers prompt fileData n,
             (layers = [] \/ exists html plain, layers = layer_calls html plain) ->
             (n <= S maxRetries)%nat ->
             attempts (layers ++ schedule prompt fileData 0 n) = n
             /\ sleeps (layers ++ schedule prompt fileData 0 n)
                = firstn (n - 1) [1000; 2000; 4000]).
  { intros layers prompt fileData n Hl Hn.
    rewrite attempts_app, sleeps_app, attempts_schedule, sleeps_schedule by assumption.
    destruct Hl as [->|(html & plain & ->)]; [auto|].
    rewrite sleeps_layer_calls. destruct html, plain; auto. }
  assert (Hnone : forall tr, tr = [] ->
             exists layers prompt fileData n,
               tr = layers ++ schedule prompt fileData 0 n
               /\ (layers = [] \/ exists html plain, layers = layer_calls html plain)
               /\ (n <= S maxRetries)%nat
               /\ (n = 0%nat \/ exists prompt0, prompt = prompt0 ++ schema_prompt)
               /\ all_retryable w prompt fileData (n - 1)
               /\ attempts tr = n
               /\ sleeps tr = firstn (n - 1) [1000; 2000; 4000]).
  { intros tr ->. exists [], [], None, 0%nat.
    split; [reflexivity|]. split; [auto|]. split; [lia|]. split; [auto|].
    split; [intros j Hj; lia|]. split; reflexivity. }
  destruct request as [[[[file|[|c value]]|]|e]]; [|apply Hnone; reflexivity..].
  change (mkRequest (Ok (Some (Uploaded file)))) with (upload file).
  rewrite POST_upload.
  destruct (accepted file); [|apply Hnone; reflexivity].
  destruct (configured w) eqn:Hc;
    [|rewrite process_not_configured by assumption; apply Hnone; reflexivity].
  rewrite process_run by assumption.
  destruct (prepare w file (fileExtension_of (name file)) (bytes file)
              (mkLocals (name file) [])) as [c l1] eqn:Eprep.
  destruct (prepare_trace _ _ _ _ _ Eprep) as [Hname Htr].
  cbn [trace app] in Htr.
  assert (Hl1 : trace l1 = [] \/ exists html plain, trace l1 = layer_calls html plain).
  { destruct Htr as [->|(_ & html & plain & ->)]; eauto. }
  clear Htr.
  destruct c as [p|e|r].
  - destruct (call_model_schedule w (fst p ++ schema_prompt) (snd p) l1)
      as (c & n & Hn & -> & Hfail & Hlast).
    exists (trace l1), (fst p ++ schema_prompt), (snd p), n.
    assert (Hdone : snd (Return (A:=unit) unsupported_response,
                         trace l1 ++ schedule (fst p ++ schema_prompt) (snd p) 0 n)
                    = trace l1 ++ schedule (fst p ++ schema_prompt) (snd p) 0 n
                    /\ (trace l1 = [] \/ exists html plain, trace l1 = layer_calls html plain)
                    /\ (n <= S maxRetries)%nat
                    /\ (n = 0%nat \/ exists prompt0,
                                       fst p ++ schema_prompt = prompt0 ++ schema_prompt)
                    /\ all_retryable w (fst p ++ schema_prompt) (snd p) (n - 1)
                    /\ attempts (trace l1 ++ schedule (fst p ++ schema_prompt) (snd p) 0 n) = n
                    /\ sleeps (trace l1 ++ schedule (fst p ++ schema_prompt) (snd p) 0 n)
                       = firstn (n - 1) [1000; 2000; 4000]).
    { split; [reflexivity|]. split; [exact Hl1|]. split; [lia|].
      split; [right; exists (fst p); reflexivity|]. split; [exact Hfail|].
      apply Hshape; [exact Hl1|lia]. }
    destruct c as [text|e|r].
    + destruct (read_reply_result w text
                  (mkLocals (fileName l1)
                     (trace l1 ++ schedule (fst p ++ schema_prompt) (snd p) 0 n)))
        as (c & -> & [[v ->]|(err & e & ->)]); exact Hdone.
    + exact Hdone.
    + exact Hdone.
  - exists (trace l1), [], None, 0%nat. cbn [schedule snd trace].
    rewrite app_nil_r.
    split; [reflexivity|]. split; [exact Hl1|]. split; [lia|]. split; [auto|].
    split; [intros j Hj; lia|].
    rewrite <- (app_nil_r (trace l1)). apply (Hshape _ [] None 0%nat); [exact Hl1|lia].
  - exists (trace l1), [], None, 0%nat. cbn [schedule snd trace].
    rewrite app_nil_r.
    split; [reflexivity|]. split; [exact Hl1|]. split; [lia|]. split; [auto|].
    split; [intros j Hj; lia|].
    rewrite <- (app_nil_r (trace l1)). apply (Hshape _ [] None 0%nat); [exact Hl1|lia].
Qed.

(* ================================================================== *)
(** * A document whose raw text is long enough *)
(* ================================================================== *)

Lemma raw_text_is_kept w buffer raw :
  extractRawText w buffer = Ok raw ->
  (50 <= List.length raw)%nat ->
  extraction_of_layers w buffer = mkExtraction raw (js "raw-text")
  /\ (List.length (raw_yield w buffer) <? 50)%nat = false
  /\ (List.length (textContent (extraction_before_salvage w buffer)) <? 20)%nat = false.
Proof.
  intros Hraw Hlen.
  unfold extraction_of_layers, extraction_before_salvage, raw_extraction, raw_yield.
  rewrite Hraw. cbn [yield].
  assert (E50 : (List.length raw <? 50)%nat = false) by (apply Nat.ltb_ge; lia).
  assert (E20 : (List.length raw <? 20)%nat = false) by (apply Nat.ltb_ge; lia).
  rewrite E50. cbn [textContent]. rewrite E20. auto.
Qed.

(** X5.  For a file the document branch takes, the credential being
    configured, whose raw-text extraction gives at least 50 code units: the
    raw-text call is the only call to the document library.  If the text has
    fewer than 100 code units and more than half of them are special
    characters, the handler answers with the corrupted-document fallback and
    the model is not called; otherwise every other call is an invocation of
    the model, one to four of them, with the prompt that embeds the raw
    text.  A text of 100 code units or more is never rejected as
    corrupted. *)
Theorem document_with_raw_text w file raw :
  configured w = true ->
  route file = Document ->
  extractRawText w (bytes file) = Ok raw ->
  (50 <= List.length raw)%nat ->
  let garbled :=
    (List.length raw <? 2 * count_class special_char raw)%nat
    && (List.length raw <? 100)%nat in
  (garbled = true ->
   POST w (upload file)
   = (Return (doc_error_response (name file) (JsError corrupted_message)),
      [CallExtractRawText]))
  /\ (garbled = false ->
      exists r n,
        POST w (upload file)
        = (Return r,
           CallExtractRawText
           :: schedule (doc_prompt (mkExtraction raw (js "raw-text")) ++ schema_prompt)
                None 0 n)
        /\ (1 <= n <= S maxRetries)%nat)
  /\ ((100 <= List.length raw)%nat -> garbled = false).
Proof.
  intros Hc Hroute Hraw Hlen garbled.
  destruct (raw_text_is_kept w (bytes file) raw Hraw Hlen) as (Hx & E50 & E20).
  assert (Hprep : prepare w file (fileExtension_of (name file)) (bytes file)
                    (mkLocals (name file) [])
                  = if garbled
                    then (Return (doc_error_response (name file) (JsError corrupted_message)),
                          mkLocals (name file) [CallExtractRawText])
                    else (Normal (doc_prompt (mkExtraction raw (js "raw-text")), None),
                          mkLocals (name file) [CallExtractRawText])).
  { rewrite prepare_run, Hroute, doc_branch_run. cbv zeta.
    rewrite Hx, E50, E20. cbn [textContent fileName trace layer_calls app].
    assert (E10 : (List.length raw <? 10)%nat = false) by (apply Nat.ltb_ge; lia).
    rewrite E10. fold garbled. destruct garbled; reflexivity. }
  rewrite POST_upload, (routed_is_accepted file (or_intror Hroute)).
  rewrite process_run by assumption. rewrite Hprep.
  split; [|split].
  - intros ->. reflexivity.
  - intros ->. cbn [fst snd].
    destruct (call_model_schedule w
                (doc_prompt (mkExtraction raw (js "raw-text")) ++ schema_prompt) None
                (mkLocals (name file) [CallExtractRawText]))
      as (c & n & Hn & -> & _ & _).
    cbn [fileName trace app].
    destruct c as [text|e|r].
    + rewrite read_reply_data. destruct (reply_data text);
        do 2 eexists; (split; [reflexivity|exact Hn]).
    + do 2 eexists. split; [reflexivity|exact Hn].
    + do 2 eexists. split; [reflexivity|exact Hn].
  - intros H. unfold garbled.
    replace (List.length raw <? 100)%nat with false
      by (symmetry; apply Nat.ltb_ge; exact H).
    apply andb_false_r.
Qed.

Lemma document_with_raw_text_witness :
  let raw := js "Jane Doe - Software Engineer - jane@example.com - Python, Rust" in
  let garbled :=
    (List.length raw <? 2 * count_class special_char raw)%nat
    && (List.length raw <? 100)%nat in
  (garbled = true ->
   POST long_raw_world (upload cv_docx)
   = (Return (doc_error_response (name cv_docx) (JsError corrupted_message)),
      [CallExtractRawText]))
  /\ (garbled = false ->
      exists r n,
        POST long_raw_world (upload cv_docx)
        = (Return r,
           CallExtractRawText
           :: schedule (doc_prompt (mkExtraction raw (js "raw-text")) ++ schema_prompt)
                None 0 n)
        /\ (1 <= n <= S maxRetries)%nat)
  /\ ((100 <= List.length raw)%nat -> garbled = false).
Proof.
  apply (document_with_raw_text long_raw_world cv_docx
           (js "Jane Doe - Software Engineer - jane@example.com - Python, Rust")).
  - reflexivity.
  - by_computation.
  - reflexivity.
  - vm_compute. lia.
Defined.

(* ================================================================== *)
(** * The extension of a file name *)
(* ================================================================== *)

Lemma split_nonempty sep s : split sep s <> [].
Proof.
  destruct s as [|c s]; cbn [split]; [discriminate|].
  destruct (c =? sep); [discriminate|].
  destruct (split sep s); discriminate.
Qed.

Lemma split_app sep a b : split sep (a ++ sep :: b) = split sep a ++ split sep b.
Proof.
  induction a as [|c a IH]; cbn [app split].
  - rewrite N.eqb_refl. reflexivity.
  - destruct (c =? sep); [rewrite IH; reflexivity|].
    rewrite IH.
    pose proof (split_nonempty sep a) as Hne.
    destruct (split sep a) as [|field fields]; [contradiction|reflexivity].
Qed.

Lemma split_without sep s :
  forallb (fun c => negb (c =? sep)) s = true -> split sep s = [s].
Proof.
  induction s as [|c s IH]; cbn [forallb split]; [reflexivity|].
  intros H. apply andb_prop in H. destruct H as [Hc Hs].
  apply negb_true_iff in Hc. rewrite Hc, (IH Hs). reflexivity.
Qed.

Lemma pop_app l l' : l' <> [] -> pop (l ++ l') = pop l'.
Proof.
  intros Hne. unfold pop. rewrite rev_app_distr.
  destruct (rev l') as [|x r] eqn:E; [|reflexivity].
  apply (f_equal (@rev jstr)) in E. rewrite rev_involutive in E. contradiction.
Qed.

(** ** Lower case *)

Lemma code_points_eq hi lo rest :
  code_points (hi :: lo :: rest) =
  if (0xD800 <=? hi) && (hi <=? 0xDBFF) && (0xDC00 <=? lo) && (lo <=? 0xDFFF)
  then (0x10000 + (hi - 0xD800) * 0x400 + (lo - 0xDC00)) :: code_points rest
  else hi :: code_points (lo :: rest).
Proof. reflexivity. Qed.

(** A full stop pairs with no surrogate: the code points before it and
    after it are those of the two parts. *)
Lemma code_points_app_dot a b :
  code_points (a ++ 46 :: b) = code_points a ++ 46 :: code_points b.
Proof.
  remember (List.length a) as n eqn:Hn. revert a Hn.
  induction n as [n IH] using lt_wf_ind. intros a Hn.
  destruct a as [|hi [|lo a]].
  - destruct b; reflexivity.
  - cbn [app]. rewrite code_points_eq.
    change (0xDC00 <=? 46) with false. rewrite andb_false_r. cbn [andb].
    destruct b; reflexivity.
  - cbn [app]. rewrite !code_points_eq.
    destruct ((0xD800 <=? hi) && (hi <=? 0xDBFF) && (0xDC00 <=? lo) && (lo <=? 0xDFFF)).
    + cbn [app]. f_equal. apply (IH (List.length a)); [subst n; cbn; lia|reflexivity].
    + cbn [app]. f_equal.
      apply (IH (List.length (lo :: a)) ltac:(subst n; cbn; lia) (lo :: a) eq_refl).
Qed.

Lemma code_points_ascii s : ascii s = true -> code_points s = s.
Proof.
  induction s as [|hi s IH]; [reflexivity|].
  cbn [ascii forallb]. intros H. apply andb_prop in H. destruct H as [Hhi Hs].
  apply N.ltb_lt in Hhi.
  destruct s as [|lo s]; [reflexivity|].
  rewrite code_points_eq.
  replace (0xD800 <=? hi) with false by (symmetry; apply N.leb_gt; lia).
  cbn [andb]. rewrite (IH Hs). reflexivity.
Qed.

(** What precedes a text is lower-cased on its own, but for the final
    sigmas, which look at what follows. *)
Lemma lower_from_app before a rest :
  exists x, lower_from before (a ++ rest) = x ++ lower_from (rev a ++ before) rest.
Proof.
  revert before. induction a as [|c a IH]; intros before.
  - exists []. reflexivity.
  - cbn [app lower_from rev]. destruct (IH (c :: before)) as (x & ->).
    rewrite <- (app_assoc (rev a) [c] before). cbn [app].
    eexists. apply app_assoc.
Qed.

Lemma lower_from_dot before s :
  lower_from before (46 :: s) = 46 :: lower_from (46 :: before) s.
Proof. reflexivity. Qed.

Lemma below_128 (P : N -> bool) :
  forallb P (map N.of_nat (seq 0 128)) = true -> forall c, c < 128 -> P c = true.
Proof.
  intros H c Hc. rewrite forallb_forall in H. apply H.
  apply in_map_iff. exists (N.to_nat c). split; [apply N2Nat.id|].
  apply in_seq. lia.
Qed.

(** On ASCII the mapping is that of the 26 letters, whatever stands around. *)
Lemma lower_from_ascii before s :
  ascii s = true -> lower_from before s = map lower_ascii s.
Proof.
  revert before. induction s as [|c s IH]; intros before; [reflexivity|].
  cbn [ascii forallb]. intros H. apply andb_prop in H. destruct H as [Hc Hs].
  apply N.ltb_lt in Hc.
  cbn [lower_from map].
  replace (c =? 0x3A3) with false by (symmetry; apply N.eqb_neq; lia).
  replace (c =? 0x130) with false by (symmetry; apply N.eqb_neq; lia).
  rewrite (IH _ Hs). cbn [app]. f_equal.
  apply N.eqb_eq.
  apply (below_128 (fun c => simple_lower c =? lower_ascii c)); [by_computation|exact Hc].
Qed.

Lemma flat_map_utf16_bmp l :
  forallb (fun c => c <? 0x10000) l = true -> flat_map utf16 l = l.
Proof.
  induction l as [|c l IH]; [reflexivity|].
  cbn [forallb flat_map]. intros H. apply andb_prop in H. destruct H as [Hc Hl].
  unfold utf16 at 1. rewrite Hc, (IH Hl). reflexivity.
Qed.

Lemma lower_ascii_bmp s :
  ascii s = true -> forallb (fun c => c <? 0x10000) (map lower_ascii s) = true.
Proof.
  induction s as [|c s IH]; [reflexivity|].
  cbn [ascii forallb map]. intros H. apply andb_prop in H. destruct H as [Hc Hs].
  rewrite (IH Hs), andb_true_r. apply N.ltb_lt in Hc. apply N.ltb_lt.
  unfold lower_ascii. destruct ((65 <=? c) && (c <=? 90)); lia.
Qed.

Lemma toLowerCase_ascii s : ascii s = true -> toLowerCase s = map lower_ascii s.
Proof.
  intros H. unfold toLowerCase.
  rewrite (code_points_ascii s H), (lower_from_ascii [] s H).
  apply flat_map_utf16_bmp, lower_ascii_bmp, H.
Qed.

(** An ASCII text after a full stop is lower-cased as it is on its own. *)
Lemma toLowerCase_before_ascii base ext :
  ascii ext = true ->
  exists x, toLowerCase (base ++ 46 :: ext) = x ++ 46 :: toLowerCase ext.
Proof.
  intros H. rewrite (toLowerCase_ascii ext H). unfold toLowerCase.
  rewrite code_points_app_dot, (code_points_ascii ext H).
  destruct (lower_from_app [] (code_points base) (46 :: ext)) as (x & ->).
  rewrite lower_from_dot, (lower_from_ascii _ ext H).
  exists (flat_map utf16 x).
  rewrite flat_map_app. cbn [flat_map].
  rewrite (flat_map_utf16_bmp _ (lower_ascii_bmp ext H)). reflexivity.
Qed.

Lemma dot_free_lower_ascii s : dot_free (map lower_ascii s) = dot_free s.
Proof.
  unfold dot_free.
  induction s as [|c s IH]; cbn [map forallb]; [reflexivity|].
  rewrite IH. f_equal. f_equal. unfold lower_ascii.
  destruct ((65 <=? c) && (c <=? 90)) eqn:E; [|reflexivity].
  apply andb_prop in E. destruct E as [H1 H2].
  apply N.leb_le in H1. apply N.leb_le in H2.
  transitivity false; [apply N.eqb_neq; lia|symmetry; apply N.eqb_neq; lia].
Qed.

Lemma listed_extension_is_valid ext :
  In ext allowedExtensions -> isValidExtension (Some ext) = true.
Proof.
  intros H. repeat (destruct H as [<-|H]; [by_computation|]). destruct H.
Qed.

(** X6.  The extension the handler checks is what follows the last full
    stop of the file name, in lower case, and a name that has no full stop
    is its own extension.  For an ASCII extension the lower case is that of
    its letters, whatever the name has before the full stop.  So a file
    passes the allow-list by its name alone, whatever its declared type,
    when the name ends with a full stop and a listed extension in any case,
    and also when the whole name is a listed extension. *)
Theorem extension_is_after_last_dot base ext :
  dot_free ext = true ->
  ascii ext = true ->
  toLowerCase ext = map lower_ascii ext
  /\ fileExtension_of (base ++ 46 :: ext) = Some (toLowerCase ext)
  /\ fileExtension_of ext = Some (toLowerCase ext)
  /\ (In (toLowerCase ext) allowedExtensions ->
      forall type bytes,
        accepted (mkFile (base ++ 46 :: ext) type bytes) = true
        /\ accepted (mkFile ext type bytes) = true).
Proof.
  intros Hext Hascii.
  pose proof (toLowerCase_ascii ext Hascii) as Hlow.
  assert (Hlast : pop (split 46 (toLowerCase ext)) = Some (toLowerCase ext)).
  { rewrite split_without; [reflexivity|].
    fold (dot_free (toLowerCase ext)). rewrite Hlow, dot_free_lower_ascii. exact Hext. }
  assert (Hdot : fileExtension_of (base ++ 46 :: ext) = Some (toLowerCase ext)).
  { unfold fileExtension_of.
    destruct (toLowerCase_before_ascii base ext Hascii) as (x & ->).
    rewrite split_app, pop_app by apply split_nonempty.
    exact Hlast. }
  split; [exact Hlow|]. split; [exact Hdot|]. split; [exact Hlast|].
  intros Hin type bytes. unfold accepted. cbn [name].
  rewrite Hdot. change (fileExtension_of ext) with (pop (split 46 (toLowerCase ext))).
  rewrite Hlast, (listed_extension_is_valid _ Hin), !orb_true_r. auto.
Qed.

Lemma extension_is_after_last_dot_witness :
  toLowerCase (js "PDF") = map lower_ascii (js "PDF")
  /\ fileExtension_of (js "My.Resume" ++ 46 :: js "PDF") = Some (toLowerCase (js "PDF"))
  /\ fileExtension_of (js "PDF") = Some (toLowerCase (js "PDF"))
  /\ (In (toLowerCase (js "PDF")) allowedExtensions ->
      forall type bytes,
        accepted (mkFile (js "My.Resume" ++ 46 :: js "PDF") type bytes) = true
        /\ accepted (mkFile (js "PDF") type bytes) = true).
Proof.
  apply (extension_is_after_last_dot (js "My.Resume") (js "PDF")); reflexivity.
Defined.

(** Beyond ASCII the lower case looks at what stands around: a capital
    sigma after a cased letter and before none is the final sigma, also
    across the full stop of a file name; the Kelvin sign becomes the letter
    k, so that an error message spelled with it is read as naming the API
    key. *)
Example lower_case_beyond_ascii :
  toLowerCase [0x3A3] = [0x3C3]
  /\ fileExtension_of [0x391; 46; 0x3A3] = Some [0x3C2]
  /\ toLowerCase [0x130] = [0x69; 0x307]
  /\ toLowerCase [0xD801; 0xDC00] = [0xD801; 0xDC28]
  /\ toLowerCase (js "API " ++ 0x212A :: js "EY not valid") = js "api key not valid"
  /\ classify (JsError (js "API " ++ 0x212A :: js "EY not valid")) = Credential.
Proof. repeat apply conj; by_computation. Qed.

(* ================================================================== *)
(** * The allow-list and the branches *)
(* ================================================================== *)

Lemma listed_type_is_routed name type bytes :
  In type allowedTypes -> route (mkFile name type bytes) <> Unsupported.
Proof.
  intros H. unfold route, is_text, is_doc. cbn [Handler.name Handler.type].
  generalize (ext_is (fileExtension_of name) "txt").
  generalize (ext_is (fileExtension_of name) "doc").
  generalize (ext_is (fileExtension_of name) "docx").
  intros docx doc txt.
  repeat (destruct H as [<-|H];
          [vm_compute; destruct txt; discriminate|]).
  destruct H.
Qed.

Lemma array_includes_In l s : array_includes l s = true <-> In s l.
Proof.
  unfold array_includes. rewrite existsb_exists. split.
  - intros (x & Hin & Heq). apply jstr_eqb_eq in Heq. subst. exact Hin.
  - intros Hin. exists s. split; [exact Hin|]. apply jstr_eqb_eq. reflexivity.
Qed.

(** X7.  Every declared type of the allow-list is taken by a branch: a file
    accepted by its type is never answered "Unsupported file type".  That
    answer is for the files accepted by their extension alone whose
    extension is [pdf], [jpeg], [jpg] or [png]: the image and PDF branch
    looks at the declared type only. *)
Theorem unsupported_is_by_extension file :
  (isValidMimeType file = true -> route file <> Unsupported)
  /\ (accepted file = true -> route file = Unsupported ->
      isValidMimeType file = false
      /\ exists ext,
           fileExtension_of (name file) = Some ext
           /\ In ext [js "pdf"; js "jpeg"; js "jpg"; js "png"]).
Proof.
  assert (Hlisted : isValidMimeType file = true -> route file <> Unsupported).
  { intros H. destruct file as [name type bytes].
    apply listed_type_is_routed. apply array_includes_In. exact H. }
  split; [exact Hlisted|].
  intros Hacc Hroute.
  destruct (isValidMimeType file) eqn:Hmime; [destruct (Hlisted eq_refl Hroute)|].
  split; [reflexivity|].
  unfold accepted in Hacc. rewrite Hmime in Hacc. cbn [orb] in Hacc.
  unfold route, is_text, is_doc in Hroute.
  destruct (fileExtension_of (name file)) as [ext|]; [|discriminate Hacc].
  exists ext. split; [reflexivity|].
  cbn [isValidExtension] in Hacc. apply andb_prop in Hacc. destruct Hacc as [_ Hin].
  apply array_includes_In in Hin.
  cbn [ext_is] in Hroute.
  destruct (is_image_or_pdf file); [discriminate Hroute|].
  destruct (Str.eqb (type file) (js "text/plain") || Str.eqb ext (js "txt")) eqn:Et;
    [discriminate Hroute|].
  destruct (Str.eqb (type file) (js "application/msword")
            || Str.eqb (type file)
                 (js "application/vnd.openxmlformats-officedocument.wordprocessingml.document")
            || Str.eqb ext (js "doc") || Str.eqb ext (js "docx")) eqn:Ed;
    [discriminate Hroute|].
  apply orb_false_iff in Et. destruct Et as [_ Et].
  apply orb_false_iff in Ed. destruct Ed as [Ed Edocx].
  apply orb_false_iff in Ed. destruct Ed as [_ Edoc].
  assert (Hne : forall s, Str.eqb ext s = false -> s <> ext).
  { intros s E <-. rewrite (proj2 (jstr_eqb_eq s s) eq_refl) in E. discriminate E. }
  apply Hne in Et, Edoc, Edocx.
  unfold allowedExtensions in Hin. cbn [In] in Hin |- *.
  destruct Hin as [H|[H|[H|[H|[H|[H|[H|[]]]]]]]]; auto; contradiction.
Qed.

Lemma unsupported_is_by_extension_witness :
  (isValidMimeType photo_png = true -> route photo_png <> Unsupported)
  /\ (isValidMimeType photo_png = false
      /\ exists ext,
           fileExtension_of (name photo_png) = Some ext
           /\ In ext [js "pdf"; js "jpeg"; js "jpg"; js "png"]).
Proof.
  split.
  - apply (proj1 (unsupported_is_by_extension photo_png)).
  - apply (proj2 (unsupported_is_by_extension photo_png)); by_computation.
Defined.

(** X8.  For an accepted file whose declared type is an image type or
    [application/pdf], the credential being configured, the invocations of
    the model are the only calls the handler makes: the document library is
    not called and the bytes are not decoded.  There is at least one
    invocation, and every invocation carries the same prompt and, as inline
    data, the base64 encoding of the bytes under the declared type, whatever
    that type is. *)
Theorem binary_file_is_forwarded w file :
  configured w = true ->
  accepted file = true ->
  route file = Binary ->
  exists r n,
    POST w (upload file)
    = (Return r,
       schedule (binary_prompt file ++ schema_prompt)
         (Some (mkInline (toString_base64 (bytes file)) (type file))) 0 n)
    /\ (1 <= n <= S maxRetries)%nat.
Proof.
  intros Hc Hacc Hroute.
  rewrite POST_upload, Hacc, process_run by assumption.
  rewrite prepare_run, Hroute. cbv beta iota. cbn [fst snd].
  destruct (call_model_schedule w (binary_prompt file ++ schema_prompt)
              (Some (mkInline (toString_base64 (bytes file)) (type file)))
              (mkLocals (name file) []))
    as (c & n & Hn & -> & _ & _).
  cbn [fileName trace app].
  destruct c as [text|e|r].
  - destruct (read_reply_result w text
                (mkLocals (name file)
                   (schedule (binary_prompt file ++ schema_prompt)
                      (Some (mkInline (toString_base64 (bytes file)) (type file))) 0 n)))
      as (c & -> & [[v ->]|(err & e & ->)]); do 2 eexists; (split; [reflexivity|exact Hn]).
  - do 2 eexists. split; [reflexivity|exact Hn].
  - do 2 eexists. split; [reflexivity|exact Hn].
Qed.

Lemma binary_file_is_forwarded_witness :
  exists r n,
    POST (replying (js "{}")) (upload notes_txt_as_pdf)
    = (Return r,
       schedule (binary_prompt notes_txt_as_pdf ++ schema_prompt)
         (Some (mkInline (toString_base64 (bytes notes_txt_as_pdf))
                  (type notes_txt_as_pdf))) 0 n)
    /\ (1 <= n <= S maxRetries)%nat.
Proof.
  apply (binary_file_is_forwarded (replying (js "{}")) notes_txt_as_pdf).
  - reflexivity.
  - by_computation.
  - by_computation.
Defined.

(* ================================================================== *)
(** * Searching a string *)
(* ================================================================== *)

Lemma startsWith_prefix s p : startsWith s p = true <-> exists b, s = p ++ b.
Proof.
  revert s. induction p as [|x p IH]; intros s; cbn [startsWith].
  - split; [intros _; exists s; reflexivity|reflexivity].
  - destruct s as [|y s].
    + split; [discriminate|intros [b Hb]; discriminate Hb].
    + split.
      * intros H. apply andb_prop in H. destruct H as [Hxy Hs].
        apply N.eqb_eq in Hxy. apply IH in Hs. destruct Hs as [b ->].
        exists b. subst. reflexivity.
      * intros [b Hb]. inversion Hb; subst. rewrite N.eqb_refl.
        apply IH. exists b. reflexivity.
Qed.

Lemma includes_infix s p : includes s p = true <-> exists a b, s = a ++ p ++ b.
Proof.
  split.
  - induction s as [|c s IH]; cbn [includes]; intros H;
      apply orb_prop in H; destruct H as [H|H].
    + apply startsWith_prefix in H. destruct H as [b ->]. exists [], b. reflexivity.
    + discriminate H.
    + apply startsWith_prefix in H. destruct H as [b ->]. exists [], b. reflexivity.
    + destruct (IH H) as (a & b & ->). exists (c :: a), b. reflexivity.
  - intros (a & b & ->). induction a as [|c a IH].
    + assert (H : startsWith (p ++ b) p = true)
        by (apply startsWith_prefix; exists b; reflexivity).
      cbn [app]. destruct (p ++ b); cbn [includes]; rewrite H; reflexivity.
    + cbn [app includes]. rewrite IH. apply orb_true_r.
Qed.

(** A text that has a string has every piece of it. *)
Lemma includes_piece s a p b : includes s (a ++ p ++ b) = true -> includes s p = true.
Proof.
  intros H. apply includes_infix in H. destruct H as (x & y & ->).
  apply includes_infix. exists (x ++ a), (b ++ y).
  rewrite <- !app_assoc. reflexivity.
Qed.

(** A piece of a text has only what the text has. *)
Lemma includes_within a s b p : includes s p = true -> includes (a ++ s ++ b) p = true.
Proof.
  intros H. apply includes_infix in H. destruct H as (x & y & ->).
  apply includes_infix. exists (a ++ x), (y ++ b).
  rewrite <- !app_assoc. reflexivity.
Qed.

(* ================================================================== *)
(** * A rate limit is reported as an exhausted quota *)
(* ================================================================== *)

Lemma rate_limited_is_quota e :
  rate_limited e = true -> retryable e = true /\ classify e = Quota.
Proof.
  destruct e as [message|]; [|discriminate].
  unfold rate_limited, retryable, classify. cbv zeta.
  intros H. apply andb_prop in H. destruct H as [H H503].
  apply andb_prop in H. destruct H as [Hrate Hover].
  apply negb_true_iff in H503, Hover.
  rewrite Hrate, Hover, H503. cbn [orb].
  split; [reflexivity|].
  rewrite (includes_piece _ (js "rate ") (js "limit") [] Hrate).
  rewrite orb_true_r. reflexivity.
Qed.

(** X9.  An error of the model that speaks of a rate limit (and neither of
    an overload nor of status 503) is one the loop retries, and once the four
    invocations have all failed in that way the handler reports it as an
    exhausted daily quota: the response is the quota fallback, with
    [quotaExceeded:true] and [retryRecommended:false], after four
    invocations and waits of 1, 2 and 4 seconds. *)
Theorem rate_limit_is_reported_as_quota w file (prompt0 : jstr)
  (fileData : option inlineData) l1 :
  accepted file = true ->
  configured w = true ->
  prepare w file (fileExtension_of (name file)) (bytes file) (mkLocals (name file) [])
  = (Normal (prompt0, fileData), l1) ->
  (forall j, (j < 4)%nat ->
     exists e, generateContent w j (prompt0 ++ schema_prompt) fileData = Throws e
               /\ rate_limited e = true) ->
  POST w (upload file)
  = (Return (quota_response (name file)),
     trace l1 ++ schedule (prompt0 ++ schema_prompt) fileData 0 4)
  /\ field (quota_response (name file)) "quotaExceeded" = Some (JBool true)
  /\ field (quota_response (name file)) "retryRecommended" = Some (JBool false)
  /\ sleeps (schedule (prompt0 ++ schema_prompt) fileData 0 4) = [1000; 2000; 4000].
Proof.
  intros Hacc Hc Hprep Hfail.
  split; [|split; [reflexivity|split; reflexivity]].
  destruct (prepare_trace _ _ _ _ _ Hprep) as [Hname _]. cbn [fileName] in Hname.
  rewrite POST_upload, Hacc, process_run, Hprep by assumption. cbn [fst snd].
  destruct (call_model_schedule w (prompt0 ++ schema_prompt) fileData l1)
    as (c & n & Hn & -> & Hretry & Hlast).
  unfold maxRetries in Hn.
  destruct (Hfail (n - 1)%nat ltac:(lia)) as (e & Hgen & Hrate).
  destruct (rate_limited_is_quota e Hrate) as [Hre Hcl].
  destruct Hlast as [(text & Hgen' & _)|(e' & -> & [Hgen'|(Hgen' & Hwhy)])];
    rewrite Hgen in Hgen'; try discriminate Hgen'.
  inversion Hgen'; subst e'.
  destruct Hwhy as [Hwhy|Hwhy]; [rewrite Hre in Hwhy; discriminate Hwhy|].
  unfold maxRetries in Hwhy. subst n.
  cbn [fileName trace]. rewrite Hname.
  unfold ai_error_response. rewrite Hcl. reflexivity.
Qed.

Lemma rate_limit_is_reported_as_quota_witness :
  POST (failing_first 4 rate_limit_error (js "{}")) (upload cv_txt)
  = (Return (quota_response (name cv_txt)),
     trace (mkLocals (name cv_txt) [])
     ++ schedule (text_prompt (toString_utf8 (bytes cv_txt)) ++ schema_prompt) None 0 4)
  /\ field (quota_response (name cv_txt)) "quotaExceeded" = Some (JBool true)
  /\ field (quota_response (name cv_txt)) "retryRecommended" = Some (JBool false)
  /\ sleeps (schedule (text_prompt (toString_utf8 (bytes cv_txt)) ++ schema_prompt) None 0 4)
     = [1000; 2000; 4000].
Proof.
  apply (rate_limit_is_reported_as_quota (failing_first 4 rate_limit_error (js "{}"))
           cv_txt (text_prompt (toString_utf8 (bytes cv_txt))) None
           (mkLocals (name cv_txt) [])).
  - by_computation.
  - reflexivity.
  - rewrite prepare_run. replace (route cv_txt) with Text by by_computation. reflexivity.
  - intros j Hj. exists rate_limit_error. split; [|by_computation].
    unfold failing_first, world_of. cbn [generateContent].
    apply Nat.ltb_lt in Hj. rewrite Hj. reflexivity.
Defined.

(* ================================================================== *)
(** * Global replacement, and the plain-text salvage *)
(* ================================================================== *)

Section Replace.

Variable total : nat.
Variable r : re.
Variable rep : jstr.

Lemma exec_at_bound s n : exec_at total r s = Some n -> (n <= List.length s)%nat.
Proof.
  unfold exec_at. destruct (run total r s (fun rest => Some rest)); [|discriminate].
  intros H. apply (f_equal (fun o => match o with Some n => n | None => 0%nat end)) in H.
  cbv beta iota in H. lia.
Qed.

(** What stands in the result of a global replacement: code units of the
    replacement, and code units of the text at which no match of one code
    unit or more starts. *)
Lemma replace_from_In x skip s :
  In x (replace_from total r rep skip s) ->
  In x rep
  \/ (In x s /\ exists s', exec_at total r (x :: s') = None
                          \/ exec_at total r (x :: s') = Some 0%nat).
Proof.
  revert skip. induction s as [|c s IH]; intros skip; cbn [replace_from].
  - destruct skip; [|intros []].
    destruct (exec_at total r []) as [[|n]|]; rewrite ?app_nil_r; auto. intros [].
  - destruct skip as [|skip].
    + destruct (exec_at total r (c :: s)) as [[|n]|] eqn:E; intros H.
      * apply in_app_or in H. destruct H as [H|[<-|H]]; [auto| |].
        { right. split; [left; reflexivity|]. exists s. auto. }
        destruct (IH _ H) as [H'|[H' Hs]]; [auto|]. right. split; [right; exact H'|exact Hs].
      * apply in_app_or in H. destruct H as [H|H]; [auto|].
        destruct (IH _ H) as [H'|[H' Hs]]; [auto|]. right. split; [right; exact H'|exact Hs].
      * destruct H as [<-|H].
        { right. split; [left; reflexivity|]. exists s. auto. }
        destruct (IH _ H) as [H'|[H' Hs]]; [auto|]. right. split; [right; exact H'|exact Hs].
    + intros H. destruct (IH _ H) as [H'|[H' Hs]]; [auto|].
      right. split; [right; exact H'|exact Hs].
Qed.

(** A replacement of at most one code unit for matches of at least one
    makes the text no longer. *)
Lemma replace_from_length skip s :
  (List.length rep <= 1)%nat ->
  (forall s', exec_at total r s' <> Some 0%nat) ->
  (List.length (replace_from total r rep skip s) <= List.length s - skip)%nat.
Proof.
  intros Hrep Hne. revert skip.
  induction s as [|c s IH]; intros skip; cbn [replace_from].
  - destruct skip; [|cbn; lia].
    destruct (exec_at total r []) as [[|n]|] eqn:E; [destruct (Hne _ E)| |cbn; lia].
    apply exec_at_bound in E. cbn in E. lia.
  - destruct skip as [|skip].
    + destruct (exec_at total r (c :: s)) as [[|n]|] eqn:E; [destruct (Hne _ E)| |].
      * rewrite length_app. specialize (IH n). cbn [List.length]. lia.
      * specialize (IH 0%nat). cbn [List.length]. lia.
    + specialize (IH skip). cbn [List.length]. lia.
Qed.

End Replace.

Section Classes.

Variable total : nat.
Variable p : N -> bool.

Lemma exec_at_Cls c s :
  exec_at total (Cls p) (c :: s) = if p c then Some 1%nat else None.
Proof.
  unfold exec_at. cbn [run]. destruct (p c); [|reflexivity].
  f_equal. cbn [List.length]. lia.
Qed.

Lemma run_Cls s k :
  run total (Cls p) s k
  = match s with
    | c :: s' => if p c then k s' else None
    | [] => None
    end.
Proof. reflexivity. Qed.

(** The star of a class always matches, and leaves no more than it found. *)
Lemma star_Cls fuel s :
  exists rest,
    star_loop (run total (Cls p)) (fun rest => Some rest) fuel s = Some rest
    /\ (List.length rest <= List.length s)%nat.
Proof.
  revert s. induction fuel as [|fuel IH]; intros s; cbn [star_loop].
  - exists s. auto.
  - rewrite run_Cls. destruct s as [|c s]; [exists []; auto|].
    destruct (p c); [|exists (c :: s); auto].
    replace (List.length s <? List.length (c :: s))%nat with true
      by (symmetry; apply Nat.ltb_lt; cbn; lia).
    destruct (IH s) as (rest & -> & Hlen). exists rest. split; [reflexivity|].
    cbn [List.length]. lia.
Qed.

Lemma run_Plus s k :
  run total (Plus (Cls p)) s k
  = match s with
    | c :: s' => if p c then star_loop (run total (Cls p)) k (List.length s') s' else None
    | [] => None
    end.
Proof. destruct s; reflexivity. Qed.

Lemma exec_at_Plus_positive s : exec_at total (Plus (Cls p)) s <> Some 0%nat.
Proof.
  unfold exec_at. rewrite run_Plus.
  destruct s as [|c s]; [discriminate|].
  destruct (p c); [|discriminate].
  destruct (star_Cls (List.length s) s) as (rest & -> & Hlen).
  change (List.length (c :: s)) with (S (List.length s)).
  intros H. apply (f_equal (fun o => match o with Some n => n | None => 0%nat end)) in H.
  cbv beta iota in H. lia.
Qed.

Lemma exec_at_Plus_class c s :
  exec_at total (Plus (Cls p)) (c :: s) = None
  \/ exec_at total (Plus (Cls p)) (c :: s) = Some 0%nat ->
  p c = false.
Proof.
  intros [H|H]; [|destruct (exec_at_Plus_positive _ H)].
  destruct (p c) eqn:E; [|reflexivity].
  revert H. unfold exec_at. rewrite run_Plus, E.
  destruct (star_Cls (List.length s) s) as (rest & -> & _). discriminate.
Qed.

Lemma exec_at_Cls_positive s : exec_at total (Cls p) s <> Some 0%nat.
Proof.
  destruct s as [|c s]; [discriminate|].
  rewrite exec_at_Cls. destruct (p c); discriminate.
Qed.

End Classes.

Lemma trimStart_In x s : In x (trimStart s) -> In x s.
Proof.
  destruct (trimStart_suffix s) as [pre H]. intros Hx. rewrite H.
  apply in_or_app. right. exact Hx.
Qed.

Lemma trimStart_length s : (List.length (trimStart s) <= List.length s)%nat.
Proof.
  destruct (trimStart_suffix s) as [pre H]. rewrite H at 2. rewrite length_app. lia.
Qed.

Lemma trim_In x s : In x (trim s) -> In x s.
Proof.
  unfold trim, trimEnd. intros H.
  apply in_rev in H. apply trimStart_In in H. apply in_rev in H.
  apply trimStart_In. exact H.
Qed.

Lemma trim_length s : (List.length (trim s) <= List.length s)%nat.
Proof.
  unfold trim, trimEnd. rewrite length_rev.
  pose proof (trimStart_length (rev (trimStart s))) as H1.
  rewrite length_rev in H1.
  pose proof (trimStart_length s). lia.
Qed.

Lemma not_space_not_control c :
  is_space c = false -> ((9 <=? c) && (c <=? 13)) = false.
Proof.
  unfold is_space. intros H.
  repeat (apply orb_false_iff in H; destruct H as [H _]). exact H.
Qed.

(** X10.  The text the plain-text salvage makes of a document's bytes has
    printable ASCII characters only (U+0020 to U+007E: no control character
    and no line break is left), and it has no more code units than the
    decoded text. *)
Theorem salvage_is_printable plainText :
  forallb printable (salvage plainText) = true
  /\ (List.length (salvage plainText) <= List.length plainText)%nat.
Proof.
  unfold salvage, replace_all. split.
  - apply forallb_forall. intros x Hx. apply trim_In in Hx.
    apply replace_from_In in Hx.
    destruct Hx as [Hx|[Hx [s' Hs']]];
      [destruct Hx as [<-|[]]; reflexivity|].
    apply exec_at_Plus_class in Hs'.
    apply replace_from_In in Hx.
    destruct Hx as [Hx|[_ [s'' Hs'']]];
      [destruct Hx as [<-|[]]; reflexivity|].
    rewrite exec_at_Cls in Hs''.
    destruct (non_printable x) eqn:Enp; [destruct Hs'' as [H|H]; discriminate H|].
    apply not_space_not_control in Hs'.
    unfold non_printable in Enp. apply negb_false_iff in Enp.
    unfold printable.
    destruct ((32 <=? x) && (x <=? 126)); [reflexivity|]. cbn [orb] in Enp.
    exfalso.
    destruct (N.eqb_spec x 10) as [->|_]; [discriminate Hs'|].
    destruct (N.eqb_spec x 13) as [->|_]; [discriminate Hs'|].
    destruct (N.eqb_spec x 9) as [->|_]; [discriminate Hs'|].
    discriminate Enp.
  - etransitivity; [apply trim_length|].
    etransitivity;
      [apply replace_from_length; [cbn; lia|apply exec_at_Plus_positive]|].
    rewrite Nat.sub_0_r.
    etransitivity;
      [apply replace_from_length; [cbn; lia|apply exec_at_Cls_positive]|].
    lia.
Qed.

(* ================================================================== *)
(** * Reading the reply: the failures and the direct parse *)
(* ================================================================== *)

(** X11.  When the reply cannot be read the handler answers with status
    500 and makes no further call.  The body carries no [extractedData]; its
    [rawResponse] is the first 1000 code units of the reply as it was
    cleaned; its [details] is the message of the first failure, that of the
    direct parse or of the check of [skills], also where a span in braces was
    tried afterwards; and its [error] tells whether such a span was found. *)
Theorem unreadable_reply_response w reply l r l' :
  read_reply w reply l = (Return r, l') ->
  l' = l
  /\ Handler.status r = 500
  /\ field r "extractedData" = None
  /\ field r "rawResponse" = Some (JString (firstn 1000 (clean_reply reply)))
  /\ (List.length (firstn 1000 (clean_reply reply)) <= 1000)%nat
  /\ (exists e,
        direct_parse w (clean_reply reply) l = (Throw e, l)
        /\ field r "details"
           = Some (JString (message_or e (js "Unknown parsing error"))))
  /\ field r "error"
     = Some (str match match_ braces_re (clean_reply reply) with
                 | Some _ => "Failed to parse AI response"
                 | None => "Failed to parse AI response - no valid JSON found"
                 end).
Proof.
  intros H.
  destruct (read_reply_failure _ _ _ _ _ H)
    as (-> & e & Hdirect & [[Hm ->]|(m & Hm & _ & ->)]);
    rewrite Hm;
    (split; [reflexivity|]); (split; [reflexivity|]); (split; [reflexivity|]);
    (split; [reflexivity|]); (split; [apply firstn_le_length|]);
    (split; [exists e; split; [exact Hdirect|reflexivity]|reflexivity]).
Qed.

Lemma unreadable_reply_response_witness :
  let reply := js "I am sorry, I cannot read this resume." in
  let w := replying reply in
  let l := mkLocals (js "cv.txt") [] in
  let r := parse_failure_response "Failed to parse AI response - no valid JSON found"
             reply (JsError (js "Unexpected token")) in
  l = l
  /\ Handler.status r = 500
  /\ field r "extractedData" = None
  /\ field r "rawResponse" = Some (JString (firstn 1000 (clean_reply reply)))
  /\ (List.length (firstn 1000 (clean_reply reply)) <= 1000)%nat
  /\ (exists e,
        direct_parse w (clean_reply reply) l = (Throw e, l)
        /\ field r "details"
           = Some (JString (message_or e (js "Unknown parsing error"))))
  /\ field r "error"
     = Some (str match match_ braces_re (clean_reply reply) with
                 | Some _ => "Failed to parse AI response"
                 | None => "Failed to parse AI response - no valid JSON found"
                 end).
Proof.
  intros reply w l r.
  apply (unreadable_reply_response w reply l r l).
  by_computation.
Defined.

Lemma get_set_same fields k v : get (set fields k v) k = Some v.
Proof.
  induction fields as [|[k' v'] fields IH]; cbn [set get].
  - rewrite (proj2 (jstr_eqb_eq k k) eq_refl). reflexivity.
  - destruct (Str.eqb k' k) eqn:E; cbn [get]; rewrite E; [reflexivity|exact IH].
Qed.

Lemma get_set_other fields k v k' :
  k' <> k -> get (set fields k v) k' = get fields k'.
Proof.
  intros Hne. induction fields as [|[k0 v0] fields IH]; cbn [set get].
  - destruct (Str.eqb k k') eqn:E; [|reflexivity].
    apply jstr_eqb_eq in E. congruence.
  - destruct (Str.eqb k0 k) eqn:E; cbn [get].
    + apply jstr_eqb_eq in E. subst k0.
      destruct (Str.eqb k k') eqn:E'; [|reflexivity].
      apply jstr_eqb_eq in E'. congruence.
    + rewrite IH. reflexivity.
Qed.

(** X12.  When the cleaned reply parses to an object, the handler reports
    success with that object, in which [skills] is an array: the array the
    model sent, or the empty array where [skills] was missing or was not an
    array.  Every other property of the object is passed on as it was
    parsed, and an object whose [skills] is an array is passed on whole. *)
Theorem direct_parse_touches_skills_only w reply fields l :
  parse (clean_reply reply) = Some (JObject fields) ->
  exists fields',
    read_reply w reply l = (Normal (JObject fields'), l)
    /\ isArray (get fields' (js "skills")) = true
    /\ (forall k, k <> js "skills" -> get fields' k = get fields k)
    /\ (isArray (get fields (js "skills")) = true -> fields' = fields)
    /\ (isArray (get fields (js "skills")) = false ->
        get fields' (js "skills") = Some (JArray [])).
Proof.
  intros Hparse. exists (skills_normalized fields).
  split; [apply read_reply_object; exact Hparse|].
  unfold skills_normalized.
  destruct (isArray (get fields (js "skills"))) eqn:E.
  - split; [exact E|]. split; [reflexivity|]. split; [reflexivity|discriminate].
  - rewrite get_set_same. split; [reflexivity|].
    split; [intros k Hk; apply get_set_other; exact Hk|].
    split; [discriminate|reflexivity].
Qed.

Lemma direct_parse_touches_skills_only_witness :
  exists fields',
    read_reply (replying jane_object) jane_object (mkLocals (js "cv.txt") [])
    = (Normal (JObject fields'), mkLocals (js "cv.txt") [])
    /\ isArray (get fields' (js "skills")) = true
    /\ (forall k, k <> js "skills" -> get fields' k = get [(js "name", str "Jane")] k)
    /\ (isArray (get [(js "name", str "Jane")] (js "skills")) = true ->
        fields' = [(js "name", str "Jane")])
    /\ (isArray (get [(js "name", str "Jane")] (js "skills")) = false ->
        get fields' (js "skills") = Some (JArray [])).
Proof.
  apply (direct_parse_touches_skills_only (replying jane_object) jane_object
           [(js "name", str "Jane")] (mkLocals (js "cv.txt") [])).
  by_computation.
Defined.

(** ** A reply that is valid JSON and no object *)

Lemma search_none total r s :
  (forall a b, s = a ++ b -> exec_at total r b = None) -> search total r s = None.
Proof.
  induction s as [|c s IH]; intros H; cbn [search].
  - rewrite (H [] [] eq_refl). reflexivity.
  - rewrite (H [] (c :: s) eq_refl).
    rewrite IH; [reflexivity|].
    intros a b ->. apply (H (c :: a) b). reflexivity.
Qed.

Lemma brace_free_suffix a b : brace_free (a ++ b) = true -> brace_free b = true.
Proof.
  unfold brace_free. rewrite forallb_app. intros H.
  apply andb_prop in H. apply H.
Qed.

(** A text without a closing brace has no span in braces. *)
Lemma no_brace_no_match s : brace_free s = true -> match_ braces_re s = None.
Proof.
  intros Hfree. unfold match_. rewrite search_none; [reflexivity|].
  intros a b ->. apply brace_free_suffix in Hfree.
  apply exec_at_none.
  destruct b as [|c b]; [reflexivity|].
  unfold braces_re. cbn [Seq]. cbn [run Chr].
  destruct (123 =? c); [|reflexivity].
  apply (star_any_none (List.length (a ++ c :: b)) b (List.length b)); [lia|].
  cbn [brace_free forallb] in Hfree. apply andb_prop in Hfree. apply Hfree.
Qed.

(** X13.  A reply that is valid JSON but no object.  An array is reported
    as a success, and is the [extractedData] of the response as it stands.
    [null], a boolean, a number or a string makes the check of [skills]
    throw; where the text has no closing brace the answer is then the 500
    for a reply without JSON, with the message of that [TypeError] as
    [details], although the text did parse. *)
Theorem reply_that_is_no_object w reply l :
  (forall items,
      parse (clean_reply reply) = Some (JArray items) ->
      read_reply w reply l = (Normal (JArray items), l))
  /\ (forall v,
        parse (clean_reply reply) = Some v ->
        is_primitive v = true ->
        brace_free (clean_reply reply) = true ->
        read_reply w reply l
        = (Return (parse_failure_response
                     "Failed to parse AI response - no valid JSON found"
                     (clean_reply reply) (JsError (type_error_message w v))), l)).
Proof.
  unfold read_reply, try_catch, direct_parse. cbv zeta. split.
  - intros items ->. reflexivity.
  - intros v -> Hprim Hfree.
    assert (Hthrow : (skills <- read_skills w v;;
                      (if negb (truthy skills) || negb (isArray skills)
                       then write_skills w v else ret v)) l
                     = (Throw (JsError (type_error_message w v)), l))
      by (destruct v; try discriminate Hprim; reflexivity).
    rewrite Hthrow. unfold repair_parse.
    rewrite (no_brace_no_match _ Hfree). reflexivity.
Qed.

Example replies_that_are_no_objects :
  read_reply (replying (js "[1, 2]")) (js "[1, 2]") (mkLocals (js "cv.txt") [])
  = (Normal (JArray [JNumber (SpecFloat.S754_finite false 4503599627370496 (-52));
                     JNumber (SpecFloat.S754_finite false 4503599627370496 (-51))]),
     mkLocals (js "cv.txt") [])
  /\ read_reply (replying (js "null")) (js "null") (mkLocals (js "cv.txt") [])
     = (Return (parse_failure_response
                  "Failed to parse AI response - no valid JSON found"
                  (js "null") (JsError (js "Cannot read properties"))),
        mkLocals (js "cv.txt") []).
Proof. split; by_computation. Qed.

(** ** A reply without a fence *)

Lemma trimEnd_prefix s : exists post, s = trimEnd s ++ post.
Proof.
  unfold trimEnd. destruct (trimStart_suffix (rev s)) as [pre H].
  exists (rev pre). rewrite <- rev_app_distr, <- H, rev_involutive. reflexivity.
Qed.

Lemma trim_infix s : exists pre post, s = pre ++ trim s ++ post.
Proof.
  unfold trim. destruct (trimStart_suffix s) as [pre H].
  destruct (trimEnd_prefix (trimStart s)) as [post H'].
  exists pre, post. rewrite <- H'. exact H.
Qed.

Lemma replace_all_fence_free s : fence_free s = true -> replace_all fence_re [] s = s.
Proof.
  intros H. unfold replace_all.
  rewrite <- (app_nil_r s) at 2. rewrite (fence_copy _ s []) by (exact H || exact I).
  cbn [replace_from]. destruct (exec_at _ fence_re []) as [[|n]|]; rewrite ?app_nil_r; reflexivity.
Qed.

(** X14.  A reply that has no fence (no three backticks in a row) is only
    trimmed before it is parsed: nothing else of it is removed.  If the
    trimmed reply parses to an object, the handler reports success with it,
    [skills] being normalized. *)
Theorem reply_without_fence w reply l :
  fence_free reply = true ->
  clean_reply reply = trim reply
  /\ (forall fields,
        parse (trim reply) = Some (JObject fields) ->
        read_reply w reply l = (Normal (JObject (skills_normalized fields)), l)).
Proof.
  intros Hfree.
  assert (Hclean : clean_reply reply = trim reply).
  { unfold clean_reply. cbv zeta. rewrite replace_all_fence_free by exact Hfree.
    destruct (startsWith (trim reply) (js "```")) eqn:E; [|reflexivity].
    exfalso. unfold fence_free in Hfree. apply negb_true_iff in Hfree.
    destruct (trim_infix reply) as (pre & post & Hreply).
    rewrite Hreply, includes_within in Hfree; [discriminate Hfree|].
    destruct (trim reply); cbn [includes]; unfold fence; rewrite E; reflexivity. }
  split; [exact Hclean|].
  intros fields Hparse. apply read_reply_object. rewrite Hclean. exact Hparse.
Qed.

Lemma reply_without_fence_witness :
  clean_reply (nl ++ jane_object ++ nl) = trim (nl ++ jane_object ++ nl)
  /\ (forall fields,
        parse (trim (nl ++ jane_object ++ nl)) = Some (JObject fields) ->
        read_reply (replying jane_object) (nl ++ jane_object ++ nl)
          (mkLocals (js "cv.txt") [])
        = (Normal (JObject (skills_normalized fields)), mkLocals (js "cv.txt") [])).
Proof.
  apply (reply_without_fence (replying jane_object) (nl ++ jane_object ++ nl)
           (mkLocals (js "cv.txt") [])).
  by_computation.
Defined.

(* ================================================================== *)
(** * The hook over the handler *)
(* ================================================================== *)

(** What [fetch] gives when it reaches the handler. *)
Lemma fetch_reaches_handler w file r tr :
  POST w (upload file) = (Return r, tr) ->
  Hook.fetch (browser_of w) file
  = Ok (Hook.mkFetched ((200 <=? Handler.status r) && (Handler.status r <? 300))
          (Handler.status r) (Ok (body r))).
Proof. intros H. unfold browser_of. cbn [Hook.fetch]. rewrite H. reflexivity. Qed.

Lemma error_status_is_not_ok r :
  In (Handler.status r) [400; 401; 500] ->
  (200 <=? Handler.status r) && (Handler.status r <? 300) = false.
Proof. intros [<-|[<-|[<-|[]]]]; reflexivity. Qed.

(** [uploadSingleFile] by the response of the handler. *)
Lemma single_over_handler w not_a_function file r tr :
  POST w (upload file) = (Return r, tr) ->
  (reports_success r ->
   Single.uploadSingleFile (browser_of w) not_a_function file = Ok (body r))
  /\ (reports_error r ->
      exists m,
        field r "error" = Some (JString m)
        /\ Hook.upload_error (browser_of w) (body r) = JsError m
        /\ Single.uploadSingleFile (browser_of w) not_a_function file
           = if (Handler.status r =? 400) && includes m (js "Word document")
             then Ok (Single.manual_entry_result (browser_of w) file (JString m))
             else Throws (JsError m)).
Proof.
  intros Hpost.
  pose proof (fetch_reaches_handler w file r tr Hpost) as Hfetch.
  unfold Single.uploadSingleFile.
  rewrite Hfetch. cbn [Hook.ok Hook.json_body Hook.status].
  split.
  - intros (Hstatus & _). rewrite Hstatus. reflexivity.
  - intros (Hstatus & _ & m & Hm & Htruthy).
    rewrite (error_status_is_not_ok r Hstatus). cbn [negb].
    exists m. split; [exact Hm|].
    unfold field in Hm. destruct (body r) as [| | | | |fields]; try discriminate Hm.
    unfold Hook.upload_error, Single.word_document_error.
    rewrite Hm, Htruthy. cbn [Hook.status Hook.ToString Single.includes_word_document].
    split; [reflexivity|].
    destruct (Handler.status r =? 400); [|reflexivity].
    destruct (includes m (js "Word document")); reflexivity.
Qed.

(** X15.  The hook over the handler, for one file.  Where the handler
    reports success (status 200, which includes the fallbacks for manual
    entry), [uploadSingleFile] resolves to the body of the response and the
    file's element in the list of [uploadMultipleFiles] is that body.  Where
    the handler reports an error, with message [m], the element in the list
    is the failed result that carries [m], no failure being thrown; and
    [uploadSingleFile] throws an [Error] with message [m], unless the status
    is 400 and [m] has the words "Word document", in which case it resolves
    to the result for manual entry. *)
Theorem hook_over_handler w not_a_function file :
  let b := browser_of w in
  exists r tr,
    POST w (upload file) = (Return r, tr)
    /\ (reports_success r \/ reports_error r)
    /\ (reports_success r ->
        Single.uploadSingleFile b not_a_function file = Ok (body r)
        /\ Hook.upload_task b file = body r)
    /\ (reports_error r ->
        exists m,
          field r "error" = Some (JString m)
          /\ Hook.upload_task b file = Hook.failed_result file (JsError m)
          /\ Single.uploadSingleFile b not_a_function file
             = if (Handler.status r =? 400) && includes m (js "Word document")
               then Ok (Single.manual_entry_result b file (JString m))
               else Throws (JsError m)).
Proof.
  intros b.
  destruct (upload_reports w file) as (r & tr & Hpost & Hshape).
  exists r, tr. split; [exact Hpost|]. split; [exact Hshape|].
  destruct (single_over_handler w not_a_function file r tr Hpost) as [Hok Herr].
  pose proof (fetch_reaches_handler w file r tr Hpost) as Hfetch. fold b in Hfetch.
  unfold Hook.upload_task, Hook.post_file.
  rewrite Hfetch. cbn [Hook.ok Hook.json_body].
  split.
  - intros Hs. split; [exact (Hok Hs)|].
    destruct Hs as (Hstatus & _). rewrite Hstatus. reflexivity.
  - intros He. destruct (Herr He) as (m & Hm & Hmsg & Hsingle).
    exists m. split; [exact Hm|]. split; [|exact Hsingle].
    destruct He as (Hstatus & _).
    rewrite (error_status_is_not_ok r Hstatus). cbn [negb].
    fold b. unfold b. rewrite Hmsg. reflexivity.
Qed.

(** ** The words "Word document" in the message of the handler *)

Lemma word_document_units :
  js "Word document" = [87; 111; 114; 100; 32; 100; 111; 99; 117; 109; 101; 110; 116].
Proof. by_computation. Qed.

Lemma skip_w_free p s :
  w_free p = true ->
  includes (p ++ s) (js "Word document") = includes s (js "Word document").
Proof.
  rewrite word_document_units.
  induction p as [|c p IH]; cbn [w_free forallb app]; intros H; [reflexivity|].
  apply andb_prop in H. destruct H as [Hc Hp]. apply negb_true_iff in Hc.
  cbn [includes startsWith]. rewrite N.eqb_sym, Hc. cbn [andb orb].
  apply IH. exact Hp.
Qed.

(** The words do not end in what follows the declared type in the message. *)
Lemma no_straddle t rest :
  startsWith (t ++ 32 :: 40 :: rest) (js "Word document") = true ->
  startsWith t (js "Word document") = true.
Proof.
  rewrite word_document_units.
  do 13 (destruct t as [|? t];
         [cbn [app startsWith N.eqb Pos.eqb]; rewrite ?andb_false_r;
          intros H; discriminate H|]).
  cbn [app startsWith]. intros H; exact H.
Qed.

Lemma word_document_in_type t rest :
  w_free rest = true ->
  includes (t ++ 32 :: 40 :: rest) (js "Word document") = true ->
  includes t (js "Word document") = true.
Proof.
  intros Hrest. induction t as [|c t IH].
  - cbn [app]. change (32 :: 40 :: rest) with ([32; 40] ++ rest).
    rewrite <- (app_nil_r rest), app_assoc, skip_w_free.
    + rewrite word_document_units. discriminate.
    + unfold w_free in *. rewrite forallb_app, Hrest. reflexivity.
  - change ((c :: t) ++ 32 :: 40 :: rest) with (c :: (t ++ 32 :: 40 :: rest)).
    cbn [includes]. intros H. apply orb_prop in H. destruct H as [H|H].
    + change (c :: (t ++ 32 :: 40 :: rest)) with ((c :: t) ++ 32 :: 40 :: rest) in H.
      apply no_straddle in H. rewrite H. reflexivity.
    + rewrite (IH H). apply orb_true_r.
Qed.

(** The run of the table that maps a code point. *)
Lemma mapped_within runs c l :
  mapped runs c = Some l ->
  exists first last stride target,
    In (first, last, stride, target) runs
    /\ first <= c <= last /\ l = target + (c - first).
Proof.
  induction runs as [|[[[first last] stride] target] runs IH]; cbn [mapped];
    [discriminate|].
  destruct (c <? first) eqn:E1; [discriminate|].
  destruct ((c <=? last) && ((c - first) mod stride =? 0)) eqn:E2.
  - intros H. injection H as <-. exists first, last, stride, target.
    split; [left; reflexivity|].
    apply andb_prop in E2. destruct E2 as [E2 _].
    apply N.leb_le in E2. apply N.ltb_ge in E1. split; [lia|reflexivity].
  - intros H. destruct (IH H) as (f & la & st & t & Hin & Hc & Hl).
    exists f, la, st, t. split; [right; exact Hin|]. split; assumption.
Qed.

(** No code point is mapped to the capital W. *)
Lemma simple_lower_no_W c : (simple_lower c =? 87) = false.
Proof.
  unfold simple_lower. destruct (mapped lower_ranges c) as [l|] eqn:E.
  - destruct (mapped_within _ _ _ E) as (first & last & stride & target & Hin & Hc & ->).
    assert (Hok : forallb (fun run : N * N * N * N =>
                             let '(first, last, _, target) := run in
                             (87 <? target) || (target + (last - first) <? 87))
                    lower_ranges = true) by by_computation.
    rewrite forallb_forall in Hok. specialize (Hok _ Hin). cbv beta iota in Hok.
    apply N.eqb_neq. apply orb_prop in Hok.
    destruct Hok as [H|H]; apply N.ltb_lt in H; lia.
  - apply N.eqb_neq. intros ->. vm_compute in E. discriminate E.
Qed.

Lemma lower_from_no_W before cps cp :
  In cp (lower_from before cps) -> (cp =? 87) = false.
Proof.
  revert before. induction cps as [|c cps IH]; intros before; cbn [lower_from];
    [intros []|].
  intros H. apply in_app_or in H. destruct H as [H|H]; [|exact (IH _ H)].
  destruct (c =? 0x3A3).
  - destruct (final_sigma before cps); destruct H as [<-|[]]; reflexivity.
  - destruct (c =? 0x130).
    + destruct H as [<-|[<-|[]]]; reflexivity.
    + destruct H as [<-|[]]. apply simple_lower_no_W.
Qed.

(** A text in lower case has no capital W. *)
Lemma toLowerCase_no_W s c : In c (toLowerCase s) -> (c =? 87) = false.
Proof.
  unfold toLowerCase. intros H. apply in_flat_map in H.
  destruct H as (cp & Hcp & Hc). apply lower_from_no_W in Hcp.
  unfold utf16 in Hc. destruct (cp <? 0x10000).
  - destruct Hc as [<-|[]]. exact Hcp.
  - generalize dependent (N.shiftr (cp - 0x10000) 10).
    generalize dependent (N.land (cp - 0x10000) 0x3FF).
    intros lo hi [<-|[<-|[]]]; apply N.eqb_neq; lia.
Qed.

Lemma split_In sep s x c : In x (split sep s) -> In c x -> In c s.
Proof.
  revert x. induction s as [|a s IH]; intros x; cbn [split].
  - intros [<-|[]] [].
  - destruct (a =? sep).
    + intros [<-|H] Hc; [destruct Hc|]. right. eapply IH; eassumption.
    + destruct (split sep s) as [|field fields] eqn:E.
      * intros [<-|[]] [<-|[]]. left. reflexivity.
      * intros [<-|H] Hc.
        { destruct Hc as [<-|Hc]; [left; reflexivity|].
          right. apply (IH field); [left; reflexivity|exact Hc]. }
        right. apply (IH x); [right; exact H|exact Hc].
Qed.

Lemma pop_In l x : pop l = Some x -> In x l.
Proof.
  unfold pop. destruct (rev l) as [|y r] eqn:E; [discriminate|].
  intros H. inversion H; subst. apply in_rev. rewrite E. left. reflexivity.
Qed.

(** The extension is in lower case: it has no capital W. *)
Lemma extension_w_free fileName ext :
  fileExtension_of fileName = Some ext -> w_free ext = true.
Proof.
  intros H. apply forallb_forall. intros c Hc. apply negb_true_iff.
  apply pop_In in H. pose proof (split_In _ _ _ _ H Hc) as Hin.
  exact (toLowerCase_no_W _ _ Hin).
Qed.

Lemma status_400_is_unsupported w file r tr :
  answer w file r tr -> Handler.status r = 400 -> r = unsupported_response.
Proof.
  intros H.
  destruct H as [Hc|Hc Hr|e tr Hc Hr Hatt|prompt fileData l l' e tr Hc Hatt Hcall
                |reply l err e tr Hc Hatt Hread|reply l v tr Hc Hatt Hread];
    try discriminate; [reflexivity|].
  unfold ai_error_response. destruct (classify e); discriminate.
Qed.

Lemma unsupported_message :
  field unsupported_response "error" = Some (str "Unsupported file type").
Proof. reflexivity. Qed.

Lemma invalid_type_message file ext :
  field (invalid_type_response file ext) "error"
  = Some (JString (js "Invalid file type. Supported formats: PDF, DOC, DOCX, TXT, JPEG, JPG, PNG. Received: "
                   ++ type file ++ js " (" ++ show_ext ext ++ js ")")).
Proof. reflexivity. Qed.

(** X16.  The fallback of [uploadSingleFile] for "Word document" errors,
    with [fetch] reaching the handler.  It is taken exactly for the files
    that the allow-list turns away and whose declared type has the words
    "Word document", the handler quoting the declared type in its message;
    no accepted file and no other answer of the handler leads to it.  So a
    file whose declared type has no capital W never takes it: as the File
    API puts the declared type of a file in lower case, the branch is dead
    behind a browser. *)
Theorem word_document_fallback w not_a_function file :
  let b := browser_of w in
  ((exists error,
       Single.uploadSingleFile b not_a_function file
       = Ok (Single.manual_entry_result b file error))
   <-> (accepted file = false /\ includes (type file) (js "Word document") = true))
  /\ (w_free (type file) = true -> includes (type file) (js "Word document") = false).
Proof.
  intros b. unfold b.
  split.
  2:{ intros Hfree. rewrite <- (app_nil_r (type file)), skip_w_free by exact Hfree.
      rewrite word_document_units. reflexivity. }
  assert (Hnot : forall r error,
             reports_success r -> body r <> Single.manual_entry_result b file error).
  { intros r error (_ & Hsuccess & _) Heq. unfold field in Hsuccess.
    rewrite Heq in Hsuccess. discriminate Hsuccess. }
  destruct (accepted file) eqn:Hacc.
  - split; [|intros [H _]; discriminate H].
    intros [error Hsingle]. exfalso.
    destruct (POST_answers w file Hacc) as (r & tr & Hpost & Hans).
    destruct (single_over_handler w not_a_function file r tr Hpost) as [Hok Herr].
    destruct (answer_reports w file r tr Hans) as [Hs|He].
    + rewrite (Hok Hs) in Hsingle. inversion Hsingle as [Hbody].
      exact (Hnot r error Hs Hbody).
    + destruct (Herr He) as (m & Hm & _ & Hres). rewrite Hres in Hsingle.
      destruct (Handler.status r =? 400) eqn:E400; [|discriminate Hsingle].
      apply N.eqb_eq in E400.
      rewrite (status_400_is_unsupported w file r tr Hans E400) in Hm.
      rewrite unsupported_message in Hm.
      assert (Hm' : m = js "Unsupported file type") by (unfold str in Hm; congruence).
      rewrite Hm' in Hsingle.
      replace (includes (js "Unsupported file type") (js "Word document")) with false
        in Hsingle by by_computation.
      discriminate Hsingle.
  - assert (Hpost : POST w (upload file)
                    = (Return (invalid_type_response file (fileExtension_of (name file))), []))
      by (rewrite POST_upload, Hacc; reflexivity).
    destruct (single_over_handler w not_a_function file _ _ Hpost) as [_ Herr].
    destruct Herr as (m & Hm & _ & Hres).
    { split; [cbn; auto|]. split; [reflexivity|].
      eexists. split; [reflexivity|by_computation]. }
    set (prefix := js "Invalid file type. Supported formats: PDF, DOC, DOCX, TXT, JPEG, JPG, PNG. Received: ").
    rewrite invalid_type_message in Hm. fold prefix in Hm.
    assert (Hm' : m = prefix ++ type file ++ js " ("
                      ++ show_ext (fileExtension_of (name file)) ++ js ")")
      by congruence.
    clear Hm. rewrite Hres, Hm'. clear Hres Hm' m.
    change (Handler.status (invalid_type_response file (fileExtension_of (name file))))
      with 400.
    cbn [N.eqb Pos.eqb andb].
    assert (Hprefix : w_free prefix = true) by by_computation.
    rewrite (skip_w_free prefix _ Hprefix).
    split.
    + intros [error Hsingle]. split; [reflexivity|].
      destruct (includes (type file ++ js " (" ++ show_ext (fileExtension_of (name file))
                          ++ js ")") (js "Word document")) eqn:E;
        [|discriminate Hsingle].
      revert E. change (js " (") with [32; 40]. cbn [app].
      apply word_document_in_type.
      unfold w_free. rewrite forallb_app.
      destruct (fileExtension_of (name file)) as [ext|] eqn:Eext; cbn [show_ext].
      * fold (w_free ext). rewrite (extension_w_free _ _ Eext). reflexivity.
      * by_computation.
    + intros [_ Htype].
      pose proof (includes_within []
                    (type file)
                    (js " (" ++ show_ext (fileExtension_of (name file)) ++ js ")")
                    _ Htype) as H.
      rewrite app_nil_l in H. rewrite H.
      eexists. reflexivity.
Qed.

(** A file turned away, with the words in its declared type. *)
Example word_file_is_for_manual_entry :
  accepted word_file = false
  /\ Single.uploadSingleFile (browser_of (replying (js "{}"))) (fun _ => []) word_file
     = Ok (Single.manual_entry_result (browser_of (replying (js "{}"))) word_file
             (str "Invalid file type. Supported formats: PDF, DOC, DOCX, TXT, JPEG, JPG, PNG. Received: application/x-Word document (wps)")).
Proof. split; by_computation. Qed.

(* ================================================================== *)
(** * The simulated progress and its timers *)
(* ================================================================== *)

Lemma own_write_same p k v : Progress.own (Progress.write p k v) k = Some v.
Proof.
  induction p as [|[k' v'] p IH]; cbn [Progress.write Progress.own].
  - rewrite (proj2 (jstr_eqb_eq k k) eq_refl). reflexivity.
  - destruct (Str.eqb k' k) eqn:E; cbn [Progress.own]; rewrite E; [reflexivity|exact IH].
Qed.

Lemma own_write_other p k v k' :
  k' <> k -> Progress.own (Progress.write p k v) k' = Progress.own p k'.
Proof.
  intros Hne. induction p as [|[k0 v0] p IH]; cbn [Progress.write Progress.own].
  - destruct (Str.eqb k k') eqn:E; [|reflexivity].
    apply jstr_eqb_eq in E. congruence.
  - destruct (Str.eqb k0 k) eqn:E; cbn [Progress.own].
    + apply jstr_eqb_eq in E. subst k0.
      destruct (Str.eqb k k') eqn:E'; [|reflexivity].
      apply jstr_eqb_eq in E'. congruence.
    + rewrite IH. reflexivity.
Qed.

Lemma read_write_same p k v :
  Progress.read (Progress.write p k v) k = Progress.Stored v.
Proof. unfold Progress.read. rewrite own_write_same. reflexivity. Qed.

Lemma set_stage_length i s l :
  List.length (Progress.set_stage i s l) = List.length l.
Proof.
  revert i. induction l as [|x l IH]; intros [|i]; cbn; auto.
Qed.

Lemma set_stage_same i s l :
  (i < List.length l)%nat -> nth_error (Progress.set_stage i s l) i = Some s.
Proof.
  revert i. induction l as [|x l IH]; intros [|i] H; cbn in *; try lia; auto.
  apply IH. lia.
Qed.

Lemma set_stage_other i j s l :
  i <> j -> nth_error (Progress.set_stage i s l) j = nth_error l j.
Proof.
  revert i j. induction l as [|x l IH]; intros [|i] [|j] H; cbn; auto.
  congruence.
Qed.

Lemma existsb_eqb_In i l : existsb (Nat.eqb i) l = true <-> In i l.
Proof.
  rewrite existsb_exists. split.
  - intros (j & Hin & Heq). apply Nat.eqb_eq in Heq. subst. exact Hin.
  - intros Hin. exists i. split; [exact Hin|apply Nat.eqb_refl].
Qed.

Lemma filter_other_In i j l :
  In j (filter (fun j => negb (Nat.eqb i j)) l) <-> In j l /\ j <> i.
Proof.
  rewrite filter_In. split; intros [Hin H]; (split; [exact Hin|]).
  - apply negb_true_iff, Nat.eqb_neq in H. congruence.
  - apply negb_true_iff, Nat.eqb_neq. congruence.
Qed.

Lemma run_snoc c b evs e :
  Progress.run c b (evs ++ [e]) = Progress.step c b (Progress.run c b evs) e.
Proof. unfold Progress.run. rewrite fold_left_app. reflexivity. Qed.

Lemma all_done_nth l :
  Progress.all_done l = true <-> forall i s, nth_error l i = Some s -> s = Progress.Done.
Proof.
  unfold Progress.all_done. rewrite forallb_forall. split.
  - intros H i s Hi. apply nth_error_In in Hi. specialize (H s Hi).
    destruct s; try discriminate H. reflexivity.
  - intros H s Hs. apply In_nth_error in Hs. destruct Hs as [i Hi].
    rewrite (H i s Hi). reflexivity.
Qed.

(** ** What every state of a call satisfies *)

Section Invariant.

Variable c : Progress.call.
Variable b : Hook.browser.

(** The [finally] block after a task has settled. *)
Lemma settle_invariant up p ivs st pending :
  List.length st = List.length (Progress.files_of c) ->
  (forall i,
      In i ivs
      <-> exists file,
            nth_error (Progress.files_of c) i = Some file
            /\ (nth_error st i = Some Progress.Fetching \/ Progress.rejects b file)) ->
  up = true -> pending = false ->
  Progress.invariant c b (Progress.settle (Progress.mkHook up p ivs st pending)).
Proof.
  intros Hlen Hiv -> ->. unfold Progress.settle. cbn [Progress.stages].
  destruct (Progress.all_done st) eqn:E; unfold Progress.invariant;
    cbn [Progress.stages Progress.intervals Progress.isUploading Progress.reset_pending];
    rewrite E; repeat split; auto; try apply Hiv; discriminate.
Qed.

Lemma begin_invariant : Progress.invariant c b (Progress.begin c).
Proof.
  unfold Progress.begin. apply settle_invariant; try reflexivity.
  - apply length_map.
  - intros i. rewrite in_seq. split.
    + intros [_ Hi]. cbn in Hi.
      destruct (nth_error (Progress.files_of c) i) as [file|] eqn:E.
      * exists file. split; [reflexivity|]. left.
        rewrite nth_error_map, E. reflexivity.
      * apply nth_error_None in E. lia.
    + intros (file & Hfile & _). split; [lia|]. cbn.
      apply nth_error_Some. congruence.
Qed.

Lemma not_done_yet st i s :
  nth_error st i = Some s -> s <> Progress.Done -> Progress.all_done st = false.
Proof.
  intros Hi Hs. destruct (Progress.all_done st) eqn:E; [|reflexivity].
  destruct Hs. exact (proj1 (all_done_nth st) E i s Hi).
Qed.

Lemma step_invariant h e : Progress.invariant c b h -> Progress.invariant c b (Progress.step c b h e).
Proof.
  intros (Hlen & Hiv & Hup & Hpend).
  destruct e as [i|i|i|]; cbn [Progress.step].
  - destruct (nth_error (Progress.files_of c) i) as [file|];
      [|repeat split; auto; apply Hiv].
    destruct (existsb (Nat.eqb i) (Progress.intervals h));
      repeat split; auto; apply Hiv.
  - destruct (nth_error (Progress.files_of c) i) as [file|] eqn:Efile;
      [|repeat split; auto; apply Hiv].
    destruct (nth_error (Progress.stages h) i) as [[| |]|] eqn:Estage;
      try (repeat split; auto; apply Hiv).
    assert (Hi : (i < List.length (Progress.stages h))%nat)
      by (apply nth_error_Some; congruence).
    pose proof (not_done_yet _ _ _ Estage ltac:(discriminate)) as Hnot.
    destruct (Hook.fetch b file) as [response|err] eqn:Efetch.
    + unfold Progress.invariant.
      cbn [Progress.stages Progress.intervals Progress.isUploading Progress.reset_pending].
      assert (Hnot' : Progress.all_done (Progress.set_stage i Progress.Reading (Progress.stages h))
                      = false).
      { apply (not_done_yet _ i Progress.Reading); [|discriminate].
        apply set_stage_same. exact Hi. }
      rewrite Hnot'. rewrite Hnot in Hup.
      split; [rewrite set_stage_length; exact Hlen|].
      split; [|split; [exact Hup|intros _; apply Hpend; exact Hnot]].
      intros j. rewrite filter_other_In, Hiv. split.
      * intros [(fj & Hfj & Hwhy) Hne]. exists fj. split; [exact Hfj|].
        rewrite set_stage_other by congruence. exact Hwhy.
      * intros (fj & Hfj & Hwhy).
        destruct (Nat.eq_dec i j) as [->|Hne].
        { exfalso. rewrite Efile in Hfj. inversion Hfj; subst fj.
          rewrite set_stage_same in Hwhy by exact Hi.
          destruct Hwhy as [H|[e0 H]]; [discriminate H|].
          rewrite Efetch in H. discriminate H. }
        rewrite set_stage_other in Hwhy by exact Hne.
        split; [exists fj; auto|congruence].
    + apply settle_invariant.
      * rewrite set_stage_length. exact Hlen.
      * intros j. rewrite Hiv. split; intros (fj & Hfj & Hwhy); exists fj;
          (split; [exact Hfj|]).
        { destruct (Nat.eq_dec i j) as [->|Hne].
          - right. rewrite Efile in Hfj. inversion Hfj; subst fj. exists err. exact Efetch.
          - rewrite set_stage_other by exact Hne. exact Hwhy. }
        { destruct (Nat.eq_dec i j) as [->|Hne].
          - left. exact Estage.
          - rewrite set_stage_other in Hwhy by exact Hne. exact Hwhy. }
      * rewrite Hup, Hnot. reflexivity.
      * apply Hpend. exact Hnot.
  - destruct (nth_error (Progress.stages h) i) as [[| |]|] eqn:Estage;
      try (repeat split; auto; apply Hiv).
    assert (Hi : (i < List.length (Progress.stages h))%nat)
      by (apply nth_error_Some; congruence).
    pose proof (not_done_yet _ _ _ Estage ltac:(discriminate)) as Hnot.
    apply settle_invariant.
    + rewrite set_stage_length. exact Hlen.
    + intros j. rewrite Hiv. split; intros (fj & Hfj & Hwhy); exists fj;
        (split; [exact Hfj|]).
      * destruct (Nat.eq_dec i j) as [->|Hne].
        { destruct Hwhy as [H|H]; [rewrite Estage in H; discriminate H|right; exact H]. }
        rewrite set_stage_other by exact Hne. exact Hwhy.
      * destruct (Nat.eq_dec i j) as [->|Hne].
        { rewrite set_stage_same in Hwhy by exact Hi.
          destruct Hwhy as [H|H]; [discriminate H|right; exact H]. }
        rewrite set_stage_other in Hwhy by exact Hne. exact Hwhy.
    + rewrite Hup, Hnot. reflexivity.
    + apply Hpend. exact Hnot.
  - destruct (Progress.reset_pending h) eqn:Ep; [|repeat split; auto; apply Hiv].
    unfold Progress.invariant.
    cbn [Progress.stages Progress.intervals Progress.isUploading Progress.reset_pending].
    repeat split; auto; apply Hiv.
Qed.

Lemma run_invariant evs : Progress.invariant c b (Progress.run c b evs).
Proof.
  induction evs as [|e evs IH] using rev_ind; [apply begin_invariant|].
  rewrite run_snoc. apply step_invariant. exact IH.
Qed.

End Invariant.

(** X17.  The state of the hook during a call, whatever the order in which
    the intervals fire and the requests settle.  [isUploading] is true
    exactly until every task has settled; the timeout that empties the
    progress is pending only after that; and the interval of a file is set
    exactly while its [fetch] is outstanding, or for good when its [fetch]
    has rejected: [clearInterval] is reached only when [fetch] resolves. *)
Theorem upload_state_invariants c b evs :
  let h := Progress.run c b evs in
  Progress.isUploading h = negb (Progress.all_done (Progress.stages h))
  /\ (Progress.reset_pending h = true -> Progress.all_done (Progress.stages h) = true)
  /\ (forall i file,
        nth_error (Progress.files_of c) i = Some file ->
        (In i (Progress.intervals h)
         <-> nth_error (Progress.stages h) i = Some Progress.Fetching
             \/ Progress.rejects b file))
  /\ (forall i, In i (Progress.intervals h) -> (i < List.length (Progress.files_of c))%nat).
Proof.
  intros h. destruct (run_invariant c b evs) as (Hlen & Hiv & Hup & Hpend). fold h in Hlen, Hiv, Hup, Hpend.
  split; [exact Hup|]. split; [|split].
  - intros Hp. destruct (Progress.all_done (Progress.stages h)); [reflexivity|].
    rewrite (Hpend eq_refl) in Hp. discriminate Hp.
  - intros i file Hfile. rewrite Hiv. split.
    + intros (file' & Hfile' & Hwhy). rewrite Hfile in Hfile'.
      inversion Hfile'; subst file'. exact Hwhy.
    + intros Hwhy. exists file. auto.
  - intros i Hi. apply Hiv in Hi. destruct Hi as (file & Hfile & _).
    apply nth_error_Some. congruence.
Qed.

(** X18.  A [fetch] that rejects leaves its interval set for good: the
    exception goes past [clearInterval], and nothing clears the interval
    later.  So after any happenings the interval of such a file is still
    set, a firing of it still writes the file's progress, and once the
    timeout has emptied the progress the next firing puts the file back
    into it: with the step as its progress, or with [NaN] when the file
    bears the name of a property that every object inherits. *)
Theorem interval_outlives_rejected_fetch c b i file evs :
  nth_error (Progress.files_of c) i = Some file ->
  Progress.rejects b file ->
  let h := Progress.run c b evs in
  let after := Progress.uploadProgress (Progress.step c b h (Progress.Fires i)) in
  In i (Progress.intervals h)
  /\ Progress.read after (name file)
     = Progress.Stored
         (Progress.next (Progress.read (Progress.uploadProgress h) (name file))
            (Progress.increment c))
  /\ (Progress.uploadProgress h = [] ->
      Progress.read after (name file)
      = Progress.Stored (if Progress.inherited (name file)
                         then Progress.NaN
                         else Progress.Num (Progress.increment c))).
Proof.
  intros Hfile Hrej h after.
  destruct (run_invariant c b evs) as (_ & Hiv & _). fold h in Hiv.
  assert (Hin : In i (Progress.intervals h)).
  { apply Hiv. exists file. auto. }
  assert (Hstep : Progress.read after (name file)
                  = Progress.Stored
                      (Progress.next (Progress.read (Progress.uploadProgress h) (name file))
                         (Progress.increment c))).
  { unfold after. cbn [Progress.step]. rewrite Hfile.
    rewrite (proj2 (existsb_eqb_In i _) Hin).
    cbn [Progress.uploadProgress]. unfold Progress.advance.
    apply read_write_same. }
  split; [exact Hin|]. split; [exact Hstep|].
  intros Hempty. rewrite Hstep, Hempty. unfold Progress.read. cbn [Progress.own].
  destruct (Progress.inherited (name file)); [reflexivity|].
  destruct c; reflexivity.
Qed.

Lemma interval_outlives_rejected_fetch_witness :
  let c := Progress.Many three_files in
  let evs := [Progress.Fires 1; Progress.Responds 0; Progress.Responds 1;
              Progress.Responds 2; Progress.Elapses; Progress.Fires 1]%nat in
  let h := Progress.run c offline evs in
  let after := Progress.uploadProgress (Progress.step c offline h (Progress.Fires 1)) in
  In 1%nat (Progress.intervals h)
  /\ Progress.read after (name archive_zip)
     = Progress.Stored
         (Progress.next (Progress.read (Progress.uploadProgress h) (name archive_zip))
            (Progress.increment c))
  /\ (Progress.uploadProgress h = [] ->
      Progress.read after (name archive_zip)
      = Progress.Stored (if Progress.inherited (name archive_zip)
                         then Progress.NaN
                         else Progress.Num (Progress.increment c))).
Proof.
  intros c evs.
  apply (interval_outlives_rejected_fetch c offline 1 archive_zip evs).
  - reflexivity.
  - exists (JsError (js "Failed to fetch")). reflexivity.
Defined.

(** With no network, three files: after every [fetch] has rejected and the
    timeout has emptied the progress, the three intervals are still set and
    the progress fills again. *)
Example offline_progress_comes_back :
  let h := Progress.run (Progress.Many three_files) offline
             [Progress.Responds 0; Progress.Responds 1; Progress.Responds 2;
              Progress.Elapses; Progress.Fires 1; Progress.Fires 1]%nat in
  Progress.isUploading h = false
  /\ Progress.intervals h = [0; 1; 2]%nat
  /\ Progress.uploadProgress h = [(js "archive.zip", Progress.Num 10)].
Proof. cbv zeta. split; [by_computation|split; by_computation]. Qed.

(** The same with a file named [constructor]: the firing after the timeout
    reads the function every object inherits and stores [NaN], and the
    firing after that starts again from the step. *)
Example offline_progress_of_an_inherited_name :
  let c := Progress.One (mkFile (js "constructor") (js "text/plain") []) in
  Progress.uploadProgress
    (Progress.run c offline [Progress.Fires 0; Progress.Responds 0]%nat)
  = [(js "constructor", Progress.Num 10)]
  /\ Progress.uploadProgress
       (Progress.run c offline
          [Progress.Fires 0; Progress.Responds 0; Progress.Elapses; Progress.Fires 0]%nat)
     = [(js "constructor", Progress.NaN)]
  /\ Progress.uploadProgress
       (Progress.run c offline
          [Progress.Fires 0; Progress.Responds 0; Progress.Elapses; Progress.Fires 0;
           Progress.Fires 0]%nat)
     = [(js "constructor", Progress.Num 10)].
Proof. cbv zeta. repeat apply conj; by_computation. Qed.

(** ** A call whose requests all resolve *)

Lemma browser_of_resolves w file :
  exists response, Hook.fetch (browser_of w) file = Ok response.
Proof.
  destruct (POST_always_responds w (upload file)) as (r & tr & H).
  eexists. apply (fetch_reaches_handler _ _ _ _ H).
Qed.

Section Resolving.

Variable c : Progress.call.
Variable b : Hook.browser.
Hypothesis resolves :
  forall file, In file (Progress.files_of c) -> exists response, Hook.fetch b file = Ok response.

Lemma no_file_rejects i file :
  nth_error (Progress.files_of c) i = Some file -> ~ Progress.rejects b file.
Proof.
  intros Hfile [e He]. apply nth_error_In in Hfile.
  destruct (resolves file Hfile) as [response Hr]. congruence.
Qed.

(** Once every task has settled no interval is set. *)
Lemma settled_has_no_interval h :
  Progress.invariant c b h ->
  Progress.all_done (Progress.stages h) = true ->
  Progress.intervals h = [].
Proof.
  intros (_ & Hiv & _) Hdone.
  destruct (Progress.intervals h) as [|i ivs] eqn:E; [reflexivity|].
  exfalso. destruct (proj1 (Hiv i) (or_introl eq_refl)) as (file & Hfile & [H|H]).
  - pose proof (proj1 (all_done_nth _) Hdone i _ H). discriminate.
  - exact (no_file_rejects i file Hfile H).
Qed.

(** After the last task has settled the progress is emptied once, and
    stays empty. *)
Lemma emptied_after_reset evs :
  let h := Progress.run c b evs in
  Progress.all_done (Progress.stages h) = true ->
  Progress.reset_pending h = true \/ Progress.uploadProgress h = [].
Proof.
  induction evs as [|e evs IH] using rev_ind.
  - cbv zeta. unfold Progress.run. cbn [fold_left].
    unfold Progress.begin, Progress.settle. cbn [Progress.stages].
    destruct (Progress.all_done (map (fun _ => Progress.Fetching) (Progress.files_of c)))
      eqn:E; cbn [Progress.stages Progress.reset_pending]; [auto|].
    intros H. rewrite E in H. discriminate H.
  - cbv zeta in *. rewrite run_snoc.
    pose proof (run_invariant c b evs) as Hinv.
    set (h := Progress.run c b evs) in *.
    destruct e as [i|i|i|]; cbn [Progress.step].
    + destruct (nth_error (Progress.files_of c) i) as [file|] eqn:Efile; [|exact IH].
      destruct (existsb (Nat.eqb i) (Progress.intervals h)) eqn:Ei; [|exact IH].
      cbn [Progress.stages]. intros Hdone.
      rewrite (settled_has_no_interval h Hinv Hdone) in Ei. discriminate Ei.
    + destruct (nth_error (Progress.files_of c) i) as [file|] eqn:Efile; [|exact IH].
      destruct (nth_error (Progress.stages h) i) as [[| |]|] eqn:Estage; try exact IH.
      assert (Hi : (i < List.length (Progress.stages h))%nat)
        by (apply nth_error_Some; congruence).
      destruct (Hook.fetch b file) as [response|err] eqn:Efetch.
      * cbn [Progress.stages]. intros Hdone. exfalso.
        pose proof (proj1 (all_done_nth _) Hdone i _ (set_stage_same i _ _ Hi)).
        discriminate.
      * exfalso. apply (no_file_rejects i file Efile). exists err. exact Efetch.
    + destruct (nth_error (Progress.stages h) i) as [[| |]|] eqn:Estage; try exact IH.
      unfold Progress.settle. cbn [Progress.stages].
      destruct (Progress.all_done (Progress.set_stage i Progress.Done (Progress.stages h)))
        eqn:Edone; cbn [Progress.stages Progress.reset_pending]; [auto|].
      intros H. rewrite Edone in H. discriminate H.
    + destruct (Progress.reset_pending h) eqn:Ep;
        [|intros Hdone; rewrite Ep; exact (IH Hdone)].
      cbn [Progress.stages Progress.uploadProgress]. auto.
Qed.

End Resolving.

(** X19.  A call whose requests all resolve ends clean.  Once every task
    has settled, [isUploading] is false and no interval is left set; and once
    the timeout has passed as well, the progress is empty and nothing that
    happens changes the state of the hook any more. *)
Theorem settled_upload_is_quiet c b evs :
  (forall file, In file (Progress.files_of c) ->
                exists response, Hook.fetch b file = Ok response) ->
  let h := Progress.run c b evs in
  Progress.all_done (Progress.stages h) = true ->
  Progress.isUploading h = false
  /\ Progress.intervals h = []
  /\ (Progress.reset_pending h = false ->
      Progress.uploadProgress h = []
      /\ forall e, Progress.step c b h e = h).
Proof.
  intros Hres h Hdone.
  pose proof (run_invariant c b evs) as Hinv. fold h in Hinv.
  pose proof (settled_has_no_interval c b Hres h Hinv Hdone) as Hiv.
  destruct Hinv as (_ & _ & Hup & _).
  split; [rewrite Hup, Hdone; reflexivity|]. split; [exact Hiv|].
  intros Hpend.
  destruct (emptied_after_reset c b Hres evs Hdone) as [H|H];
    [fold h in H; rewrite Hpend in H; discriminate H|].
  split; [exact H|].
  intros [i|i|i|]; cbn [Progress.step].
  - rewrite Hiv. cbn [existsb].
    destruct (nth_error (Progress.files_of c) i); reflexivity.
  - destruct (nth_error (Progress.files_of c) i); [|reflexivity].
    destruct (nth_error (Progress.stages h) i) as [s|] eqn:Es; [|reflexivity].
    rewrite (proj1 (all_done_nth _) Hdone i s Es). reflexivity.
  - destruct (nth_error (Progress.stages h) i) as [s|] eqn:Es; [|reflexivity].
    rewrite (proj1 (all_done_nth _) Hdone i s Es). reflexivity.
  - rewrite Hpend. reflexivity.
Qed.

Lemma settled_upload_is_quiet_witness :
  let c := Progress.One cv_txt in
  let b := browser_of (replying jane_object) in
  let h := Progress.run c b
             [Progress.Fires 0; Progress.Fires 0; Progress.Responds 0;
              Progress.Fires 0; Progress.BodyRead 0; Progress.Elapses]%nat in
  Progress.isUploading h = false
  /\ Progress.intervals h = []
  /\ (Progress.reset_pending h = false ->
      Progress.uploadProgress h = []
      /\ forall e, Progress.step c b h e = h).
Proof.
  intros c b.
  apply (settled_upload_is_quiet c b
           [Progress.Fires 0; Progress.Fires 0; Progress.Responds 0;
            Progress.Fires 0; Progress.BodyRead 0; Progress.Elapses]%nat).
  - intros file _. apply browser_of_resolves.
  - by_computation.
Defined.

(** ** The progress of a file *)

Lemma distinct_names files i j f g :
  Progress.distinct (map name files) = true ->
  nth_error files i = Some f -> nth_error files j = Some g ->
  i <> j -> name f <> name g.
Proof.
  revert i j. induction files as [|x files IH]; intros i j Hd Hi Hj Hne;
    [destruct i; discriminate Hi|].
  cbn [map Progress.distinct] in Hd. apply andb_prop in Hd. destruct Hd as [Hx Hd].
  apply negb_true_iff in Hx.
  assert (Hout : forall k y, nth_error files k = Some y -> name x <> name y).
  { intros k y Hk E.
    assert (H : existsb (Str.eqb (name x)) (map name files) = true).
    { apply existsb_exists. exists (name y). split.
      - apply in_map. eapply nth_error_In. exact Hk.
      - apply jstr_eqb_eq. exact E. }
    rewrite H in Hx. discriminate Hx. }
  destruct i as [|i], j as [|j]; cbn [nth_error] in Hi, Hj.
  - congruence.
  - inversion Hi; subst. eapply Hout. exact Hj.
  - inversion Hj; subst. intros E. symmetry in E. revert E. eapply Hout. exact Hi.
  - eapply IH; eauto.
Qed.

Lemma initialProgress_keeps files p k :
  Progress.own p k = Some (Progress.Num 0) ->
  Progress.own
    (fold_left (fun p file => Progress.assign p (name file) (Progress.Num 0)) files p) k
  = Some (Progress.Num 0).
Proof.
  revert p. induction files as [|x files IH]; intros p H; cbn [fold_left]; [exact H|].
  apply IH. unfold Progress.assign.
  destruct (Str.eqb (name x) (js "__proto__")); [exact H|].
  destruct (list_eq_dec N.eq_dec k (name x)) as [->|Hne].
  - apply own_write_same.
  - rewrite own_write_other by exact Hne. exact H.
Qed.

Lemma initialProgress_own files p i file :
  nth_error files i = Some file ->
  Str.eqb (name file) (js "__proto__") = false ->
  Progress.own
    (fold_left (fun p file => Progress.assign p (name file) (Progress.Num 0)) files p)
    (name file) = Some (Progress.Num 0).
Proof.
  intros Hi Hname. revert p i Hi. induction files as [|x files IH]; intros p i Hi;
    [destruct i; discriminate Hi|].
  cbn [fold_left]. destruct i as [|i]; cbn [nth_error] in Hi.
  - inversion Hi; subst. apply initialProgress_keeps.
    unfold Progress.assign. rewrite Hname. apply own_write_same.
  - eapply IH. exact Hi.
Qed.

(** The assignments of the batch make no own property [__proto__]. *)
Lemma initialProgress_proto files p :
  Progress.own p (js "__proto__") = None ->
  Progress.own
    (fold_left (fun p file => Progress.assign p (name file) (Progress.Num 0)) files p)
    (js "__proto__") = None.
Proof.
  revert p. induction files as [|x files IH]; intros p H; cbn [fold_left]; [exact H|].
  apply IH. unfold Progress.assign.
  destruct (Str.eqb (name x) (js "__proto__")) eqn:E; [exact H|].
  rewrite own_write_other; [exact H|].
  intros Heq. rewrite <- Heq in E.
  rewrite (proj2 (jstr_eqb_eq _ _) eq_refl) in E. discriminate E.
Qed.

Lemma increment_times_zero c :
  N.min (Progress.increment c * N.of_nat 0) 90 = 0.
Proof. destruct c; reflexivity. Qed.

Lemma initial_own c i file :
  nth_error (Progress.files_of c) i = Some file ->
  Progress.own (Progress.initial c) (name file) = Progress.simulated c file 0.
Proof.
  unfold Progress.simulated. rewrite increment_times_zero.
  destruct c as [file0|files];
    cbn [Progress.files_of Progress.initial Progress.own_from_start].
  - destruct i as [|[|i]]; cbn [nth_error]; try discriminate.
    intros H; inversion H; subst. cbn [Progress.own].
    rewrite (proj2 (jstr_eqb_eq _ _) eq_refl). reflexivity.
  - intros Hi. destruct (Str.eqb (name file) (js "__proto__")) eqn:E; cbn [negb].
    + apply jstr_eqb_eq in E. rewrite E. apply initialProgress_proto. reflexivity.
    + eapply initialProgress_own; eassumption.
Qed.

(** One more firing, for a file whose response has not come. *)
Lemma simulated_next c file k :
  Progress.next
    match Progress.simulated c file k with
    | Some v => Progress.Stored v
    | None => if Progress.inherited (name file)
              then Progress.Inherited else Progress.Undefined
    end (Progress.increment c)
  = match Progress.simulated c file (k + 1) with
    | Some v => v
    | None => Progress.NaN
    end.
Proof.
  unfold Progress.simulated.
  destruct (Progress.own_from_start c file) eqn:Eown; cbn [Progress.next].
  - f_equal. destruct c; cbn [Progress.increment]; lia.
  - assert (Hname : name file = js "__proto__").
    { destruct c as [file0|files]; cbn [Progress.own_from_start] in Eown;
        [discriminate Eown|].
      apply negb_false_iff in Eown. apply jstr_eqb_eq. exact Eown. }
    destruct k as [|[|k]]; cbn [Nat.add].
    + rewrite Hname. reflexivity.
    + cbn [Progress.next]. f_equal. destruct c; reflexivity.
    + cbn [Progress.next]. f_equal. destruct c; cbn [Progress.increment]; lia.
Qed.

Lemma simulated_is_stored c file k :
  Progress.simulated c file (k + 1)
  = Some match Progress.simulated c file (k + 1) with
         | Some v => v
         | None => Progress.NaN
         end.
Proof.
  unfold Progress.simulated.
  destruct (Progress.own_from_start c file); [reflexivity|].
  destruct k as [|[|k]]; reflexivity.
Qed.

Lemma settle_progress h :
  Progress.uploadProgress (Progress.settle h) = Progress.uploadProgress h.
Proof. unfold Progress.settle. destruct (Progress.all_done _); reflexivity. Qed.

Lemma settle_stages h : Progress.stages (Progress.settle h) = Progress.stages h.
Proof. unfold Progress.settle. destruct (Progress.all_done _); reflexivity. Qed.

Lemma fired_snoc i evs e :
  Progress.fired i (evs ++ [e])
  = (Progress.fired i evs
     + match e with
       | Progress.Fires j => if Nat.eqb i j then 1 else 0
       | _ => 0
       end)%nat.
Proof.
  unfold Progress.fired. rewrite filter_app, length_app. f_equal.
  destruct e as [j| | |]; cbn [filter]; try reflexivity.
  destruct (Nat.eqb i j); reflexivity.
Qed.

(** The own property of a file in the progress, until the timeout. *)
Lemma own_progress_of_a_file c b i file evs :
  Progress.distinct (map name (Progress.files_of c)) = true ->
  nth_error (Progress.files_of c) i = Some file ->
  Progress.before_reset evs = true ->
  Progress.own (Progress.uploadProgress (Progress.run c b evs)) (name file)
  = if Progress.response_received b (Progress.run c b evs) i file
    then Some (Progress.Num 100)
    else Progress.simulated c file (Progress.fired i evs).
Proof.
  intros Hd Hfile. induction evs as [|e evs IH] using rev_ind; intros Hbefore.
  - unfold Progress.run. cbn [fold_left]. unfold Progress.begin.
    rewrite settle_progress. cbn [Progress.uploadProgress].
    unfold Progress.response_received. rewrite settle_stages. cbn [Progress.stages].
    rewrite nth_error_map, Hfile. cbn [option_map].
    rewrite (initial_own c i file Hfile).
    destruct (Hook.fetch b file); reflexivity.
  - unfold Progress.before_reset in Hbefore. rewrite forallb_app in Hbefore.
    apply andb_prop in Hbefore. destruct Hbefore as [Hbefore He].
    specialize (IH Hbefore).
    rewrite run_snoc, fired_snoc.
    destruct (run_invariant c b evs) as (Hlen & Hiv & _).
    set (h0 := Progress.run c b evs) in *.
    assert (Hi : (i < List.length (Progress.stages h0))%nat)
      by (rewrite Hlen; apply nth_error_Some; congruence).
    destruct e as [j|j|j|]; [| | |discriminate He]; cbn [Progress.step].
    + (* the interval of file j fires *)
      destruct (Nat.eq_dec i j) as [<-|Hne].
      * rewrite Hfile, Nat.eqb_refl.
        destruct (existsb (Nat.eqb i) (Progress.intervals h0)) eqn:Eact.
        { apply existsb_eqb_In, Hiv in Eact.
          destruct Eact as (file' & Hfile' & Hwhy).
          rewrite Hfile in Hfile'. inversion Hfile'; subst file'.
          assert (Hnot : Progress.response_received b h0 i file = false).
          { unfold Progress.response_received.
            destruct Hwhy as [H|[e0 H]]; rewrite H; [|reflexivity].
            apply andb_false_r. }
          unfold Progress.response_received in *. cbn [Progress.stages Progress.uploadProgress].
          rewrite Hnot in *. unfold Progress.advance. rewrite own_write_same.
          unfold Progress.read. rewrite IH.
          rewrite simulated_next. symmetry. apply simulated_is_stored. }
        { assert (Hyes : Progress.response_received b h0 i file = true).
          { unfold Progress.response_received.
            destruct (Hook.fetch b file) as [response|e0] eqn:Efetch.
            - destruct (nth_error (Progress.stages h0) i) as [[| |]|] eqn:Es;
                try reflexivity.
              + exfalso. assert (H : In i (Progress.intervals h0))
                  by (apply Hiv; exists file; auto).
                apply existsb_eqb_In in H. rewrite H in Eact. discriminate Eact.
              + apply nth_error_None in Es. lia.
            - exfalso. assert (H : In i (Progress.intervals h0)).
              { apply Hiv. exists file. split; [exact Hfile|]. right. exists e0. exact Efetch. }
              apply existsb_eqb_In in H. rewrite H in Eact. discriminate Eact. }
          rewrite Hyes in *. exact IH. }
      * replace (Nat.eqb i j) with false by (symmetry; apply Nat.eqb_neq; exact Hne).
        rewrite Nat.add_0_r.
        destruct (nth_error (Progress.files_of c) j) as [fj|] eqn:Efj; [|exact IH].
        destruct (existsb (Nat.eqb j) (Progress.intervals h0)); [|exact IH].
        unfold Progress.response_received in *.
        cbn [Progress.stages Progress.uploadProgress].
        unfold Progress.advance. rewrite own_write_other; [exact IH|].
        exact (distinct_names _ _ _ _ _ Hd Hfile Efj Hne).
    + (* the fetch of file j settles *)
      rewrite Nat.add_0_r.
      destruct (nth_error (Progress.files_of c) j) as [fj|] eqn:Efj; [|exact IH].
      destruct (nth_error (Progress.stages h0) j) as [[| |]|] eqn:Esj; try exact IH.
      destruct (Nat.eq_dec i j) as [<-|Hne].
      * rewrite Hfile in Efj. inversion Efj; subst fj.
        unfold Progress.response_received in *. rewrite Esj in IH.
        destruct (Hook.fetch b file) as [response|e0] eqn:Efetch.
        { cbn [Progress.stages Progress.uploadProgress].
          rewrite set_stage_same by exact Hi.
          destruct c; cbn [Progress.received].
          - cbn [Progress.own]. rewrite (proj2 (jstr_eqb_eq _ _) eq_refl). reflexivity.
          - apply own_write_same. }
        { rewrite settle_progress, settle_stages.
          cbn [Progress.stages Progress.uploadProgress].
          rewrite set_stage_same by exact Hi. exact IH. }
      * assert (Hname : name file <> name fj)
          by exact (distinct_names _ _ _ _ _ Hd Hfile Efj Hne).
        unfold Progress.response_received in *.
        destruct (Hook.fetch b fj) as [response|e0] eqn:Efetch.
        { cbn [Progress.stages Progress.uploadProgress].
          rewrite set_stage_other by congruence.
          destruct c as [file0|files]; cbn [Progress.received].
          - exfalso. cbn [Progress.files_of] in Hfile, Efj.
            destruct i as [|[|i]], j as [|[|j]]; cbn [nth_error] in Hfile, Efj;
              try discriminate; congruence.
          - rewrite own_write_other by exact Hname. exact IH. }
        { rewrite settle_progress, settle_stages.
          cbn [Progress.stages Progress.uploadProgress].
          rewrite set_stage_other by congruence. exact IH. }
    + (* the body of the response of file j has been read *)
      rewrite Nat.add_0_r.
      destruct (nth_error (Progress.stages h0) j) as [[| |]|] eqn:Esj; try exact IH.
      unfold Progress.response_received in *.
      rewrite settle_progress, settle_stages.
      cbn [Progress.stages Progress.uploadProgress].
      destruct (Nat.eq_dec i j) as [<-|Hne].
      * rewrite set_stage_same by exact Hi. rewrite Esj in IH. exact IH.
      * rewrite set_stage_other by congruence. exact IH.
Qed.

(** X20.  What [uploadProgress] gives for a file, when no two files of the
    call have the same name and until the timeout empties the map.  Once
    the response of the file has come it is 100, and stays so, whatever the
    status of the response.  Before that it is the number of times the
    file's interval has fired, times the step (10 for a single upload, 5 in
    a batch), and never more than 90; so the progress of a file whose
    [fetch] rejects never reaches 100, and what happens to the other files
    does not change it.  The one file for which this fails is a file named
    [__proto__] in a batch: the assignment that should set it to 0 makes no
    property, so it shows the inherited object until its interval fires,
    [NaN] after the first firing, and from the second firing on what an
    ordinary file shows one firing earlier. *)
Theorem progress_of_a_file c b i file evs :
  Progress.distinct (map name (Progress.files_of c)) = true ->
  nth_error (Progress.files_of c) i = Some file ->
  Progress.before_reset evs = true ->
  let h := Progress.run c b evs in
  let fired := Progress.fired i evs in
  Progress.read (Progress.uploadProgress h) (name file)
  = if Progress.response_received b h i file
    then Progress.Stored (Progress.Num 100)
    else if Progress.own_from_start c file
    then Progress.Stored (Progress.Num (N.min (Progress.increment c * N.of_nat fired) 90))
    else match fired with
         | O => Progress.Inherited
         | S O => Progress.Stored Progress.NaN
         | S (S k) =>
             Progress.Stored
               (Progress.Num (N.min (Progress.increment c * N.of_nat (S k)) 90))
         end.
Proof.
  intros Hd Hfile Hbefore h fired.
  unfold Progress.read, h.
  rewrite (own_progress_of_a_file c b i file evs Hd Hfile Hbefore).
  fold fired.
  destruct (Progress.response_received b (Progress.run c b evs) i file); [reflexivity|].
  unfold Progress.simulated.
  destruct (Progress.own_from_start c file) eqn:Eown; [reflexivity|].
  destruct fired as [|[|k]]; try reflexivity.
  destruct c as [file0|files]; cbn [Progress.own_from_start] in Eown;
    [discriminate Eown|].
  apply negb_false_iff, jstr_eqb_eq in Eown. rewrite Eown. reflexivity.
Qed.

Lemma progress_of_a_file_witness :
  let c := Progress.Many three_files in
  let b := browser_of (replying jane_object) in
  let evs := [Progress.Fires 0; Progress.Fires 2; Progress.Fires 0; Progress.Responds 2;
              Progress.Fires 2; Progress.Fires 0; Progress.BodyRead 2]%nat in
  let h := Progress.run c b evs in
  let fired := Progress.fired 0 evs in
  Progress.read (Progress.uploadProgress h) (name cv_txt)
  = if Progress.response_received b h 0 cv_txt
    then Progress.Stored (Progress.Num 100)
    else if Progress.own_from_start c cv_txt
    then Progress.Stored (Progress.Num (N.min (Progress.increment c * N.of_nat fired) 90))
    else match fired with
         | O => Progress.Inherited
         | S O => Progress.Stored Progress.NaN
         | S (S k) =>
             Progress.Stored
               (Progress.Num (N.min (Progress.increment c * N.of_nat (S k)) 90))
         end.
Proof.
  intros c b evs.
  apply (progress_of_a_file c b 0 cv_txt evs).
  - by_computation.
  - reflexivity.
  - reflexivity.
Defined.

(** Three files in a batch: the first has fired three times, the third has
    been answered. *)
Example progress_of_three_files :
  Progress.uploadProgress
    (Progress.run (Progress.Many three_files) (browser_of (replying jane_object))
       [Progress.Fires 0; Progress.Fires 2; Progress.Fires 0; Progress.Responds 2;
        Progress.Fires 2; Progress.Fires 0; Progress.BodyRead 2]%nat)
  = [ (js "cv.txt", Progress.Num 15); (js "archive.zip", Progress.Num 0);
      (js "empty.txt", Progress.Num 100) ].
Proof. by_computation. Qed.

(** A batch with a file named [__proto__]: the map starts without it; its
    first firing stores [NaN] and its second firing the step. *)
Example progress_of_a_file_named_proto :
  let c := Progress.Many [cv_txt; mkFile (js "__proto__") (js "text/plain") []] in
  let b := browser_of (replying jane_object) in
  Progress.uploadProgress (Progress.run c b []) = [(js "cv.txt", Progress.Num 0)]
  /\ Progress.read (Progress.uploadProgress (Progress.run c b [])) (js "__proto__")
     = Progress.Inherited
  /\ Progress.uploadProgress (Progress.run c b [Progress.Fires 1]%nat)
     = [(js "cv.txt", Progress.Num 0); (js "__proto__", Progress.NaN)]
  /\ Progress.uploadProgress (Progress.run c b [Progress.Fires 1; Progress.Fires 1]%nat)
     = [(js "cv.txt", Progress.Num 0); (js "__proto__", Progress.Num 5)].
Proof. cbv zeta. repeat apply conj; by_computation. Qed.

(* ================================================================== *)
(** * When the batch resolves *)
(* ================================================================== *)

Lemma fulfil_untouched {A} (promises : list A) order slots j :
  ~ In j order ->
  nth_error (Hook.fulfil promises order slots) j = nth_error slots j.
Proof.
  revert slots. induction order as [|i order IH]; intros slots Hj; cbn [Hook.fulfil];
    [reflexivity|].
  assert (Hne : i <> j) by (intros ->; apply Hj; left; reflexivity).
  assert (Hj' : ~ In j order) by (intros H; apply Hj; right; exact H).
  destruct (nth_error promises i); rewrite IH by exact Hj'; [|reflexivity].
  apply write_slot_other. exact Hne.
Qed.

Lemma fulfil_filled {A} (promises : list A) order slots j v :
  slots_agree promises slots ->
  In j order -> nth_error promises j = Some v ->
  nth_error (Hook.fulfil promises order slots) j = Some (Some v).
Proof.
  revert slots. induction order as [|i order IH]; intros slots Hag Hin Hv; [destruct Hin|].
  cbn [Hook.fulfil].
  destruct (Nat.eq_dec i j) as [->|Hne].
  - rewrite Hv. apply fulfil_keeps.
    + pose proof (fulfil_agree promises [j] slots Hag) as Hag'.
      cbn [Hook.fulfil] in Hag'. rewrite Hv in Hag'. exact Hag'.
    + apply write_slot_same. destruct Hag as [-> _].
      apply nth_error_Some. congruence.
  - destruct Hin as [Hin|Hin]; [contradiction|].
    destruct (nth_error promises i) as [vi|] eqn:Ei.
    + apply IH; [|assumption|assumption].
      pose proof (fulfil_agree promises [i] slots Hag) as Hag'.
      cbn [Hook.fulfil] in Hag'. rewrite Ei in Hag'. exact Hag'.
    + apply IH; assumption.
Qed.

Lemma all_filled_empty_slot {A} (slots : list (option A)) j :
  nth_error slots j = Some None -> Hook.all_filled slots = None.
Proof.
  revert j. induction slots as [|s slots IH]; intros [|j] H; cbn [nth_error] in H;
    try discriminate H.
  - inversion H; subst. reflexivity.
  - cbn [Hook.all_filled]. destruct s; [|reflexivity].
    rewrite (IH j H). reflexivity.
Qed.

Lemma empty_slots_agree {A} (promises : list A) :
  slots_agree promises (map (fun _ => None) promises).
Proof.
  split; [apply length_map|].
  intros j v Hj. rewrite nth_error_map in Hj.
  destruct (nth_error promises j); discriminate Hj.
Qed.

(** X21.  [uploadMultipleFiles] resolves exactly when the upload of every
    file has settled, never before: as long as one is outstanding there is
    no list.  When it resolves, the list has one element per file, in the
    order of the files, whatever the order in which the uploads settled. *)
Theorem batch_resolves_when_all_have_settled b order files :
  Hook.uploadMultipleFiles b order files
  = if forallb (fun i => existsb (Nat.eqb i) order) (seq 0 (List.length files))
    then Some (map (Hook.upload_task b) files)
    else None.
Proof.
  unfold Hook.uploadMultipleFiles, Hook.Promise_all.
  set (promises := map (Hook.upload_task b) files).
  replace (List.length files) with (List.length promises) by apply length_map.
  pose proof (empty_slots_agree promises) as H0.
  set (slots0 := map (fun _ => None) promises) in *.
  destruct (forallb (fun i => existsb (Nat.eqb i) order) (seq 0 (List.length promises)))
    eqn:Eall.
  - replace (Hook.fulfil promises order slots0) with (map Some promises);
      [apply all_filled_map|].
    apply nth_error_ext. intros j. rewrite nth_error_map.
    destruct (nth_error promises j) as [v|] eqn:Ev; cbn [option_map].
    + symmetry. apply fulfil_filled; [exact H0| |exact Ev].
      rewrite forallb_forall in Eall. apply existsb_eqb_In. apply Eall.
      apply in_seq. split; [lia|]. cbn. apply nth_error_Some. congruence.
    + symmetry. apply nth_error_None.
      destruct (fulfil_agree promises order slots0 H0) as [-> _].
      apply nth_error_None. exact Ev.
  - assert (Hj : exists j, (j < List.length promises)%nat /\ ~ In j order).
    { destruct (forallb_forall (fun i => existsb (Nat.eqb i) order)
                  (seq 0 (List.length promises))) as [_ Hall].
      destruct (existsb (fun i => negb (existsb (Nat.eqb i) order))
                  (seq 0 (List.length promises))) eqn:Eex.
      - apply existsb_exists in Eex. destruct Eex as (j & Hin & Hj).
        exists j. apply in_seq in Hin. split; [lia|].
        intros Hin'. apply existsb_eqb_In in Hin'. rewrite Hin' in Hj. discriminate Hj.
      - rewrite Hall in Eall; [discriminate Eall|].
        intros i Hi. destruct (existsb (Nat.eqb i) order) eqn:E; [reflexivity|].
        assert (Hex : existsb (fun i => negb (existsb (Nat.eqb i) order))
                        (seq 0 (List.length promises)) = true).
        { apply existsb_exists. exists i. split; [exact Hi|]. rewrite E. reflexivity. }
        rewrite Hex in Eex. discriminate Eex. }
    destruct Hj as (j & Hlt & Hnot).
    apply (all_filled_empty_slot _ j).
    rewrite fulfil_untouched by exact Hnot.
    unfold slots0. rewrite nth_error_map.
    destruct (nth_error promises j) eqn:Ev; [reflexivity|].
    apply nth_error_None in Ev. lia.
Qed.

(* ================================================================== *)
(** * Decoding the bytes of a text file *)
(* ================================================================== *)

Lemma decode_ascii bs :
  forallb (fun x => x <=? 0x7F) bs = true -> decode None bs = bs.
Proof.
  induction bs as [|x bs IH]; cbn [forallb decode]; [reflexivity|].
  intros H. apply andb_prop in H. destruct H as [Hx Hbs].
  unfold lead. rewrite Hx. cbn [app]. rewrite (IH Hbs). reflexivity.
Qed.

Lemma lead_length x :
  (List.length (fst (lead x))
   + match snd (lead x) with Some _ => 1 | None => 0 end <= 1)%nat.
Proof.
  unfold lead.
  destruct (x <=? 127); [cbn; lia|].
  destruct ((194 <=? x) && (x <=? 223)); [cbn; lia|].
  destruct ((224 <=? x) && (x <=? 239)); [cbn; lia|].
  destruct ((240 <=? x) && (x <=? 244)); cbn; lia.
Qed.

Lemma utf16_length cp : (List.length (utf16 cp) <= 2)%nat.
Proof. unfold utf16. destruct (cp <? 65536); cbn; lia. Qed.

Lemma decode_length st bs :
  (List.length (decode st bs)
   <= List.length bs + match st with Some _ => 1 | None => 0 end)%nat.
Proof.
  revert st. induction bs as [|x bs IH]; intros st; cbn [decode].
  - destruct st; cbn; lia.
  - destruct st as [p|].
    + destruct ((lower_boundary p <=? x) && (x <=? upper_boundary p)).
      * destruct (bytes_needed p =? 1).
        { rewrite length_app.
          match goal with |- context [utf16 ?cp] => pose proof (utf16_length cp) end.
          specialize (IH None). cbv beta iota in IH. cbn [List.length]. lia. }
        { match goal with |- context [decode (Some ?q) bs] => specialize (IH (Some q)) end.
          cbv beta iota in IH. cbn [List.length]. lia. }
      * pose proof (lead_length x) as Hl.
        destruct (lead x) as [out st']. cbn [fst snd] in Hl.
        specialize (IH st'). cbn [List.length]. rewrite length_app.
        destruct st'; cbv beta iota in IH, Hl; lia.
    + pose proof (lead_length x) as Hl.
      destruct (lead x) as [out st']. cbn [fst snd] in Hl.
      specialize (IH st'). cbn [List.length]. rewrite length_app.
      destruct st'; cbv beta iota in IH, Hl; lia.
Qed.

(** X22.  The text read from the bytes of a file never has more code units
    than the file has bytes, whatever the bytes are (nothing is thrown on
    bytes that are not UTF-8); and a file of ASCII bytes is read as those
    very characters, so that the prompt of a text file holds them as they
    are. *)
Theorem decoded_text_of_a_file b :
  (List.length (toString_utf8 b) <= List.length b)%nat
  /\ (ascii_only b = true ->
      toString_utf8 b = map Byte.to_N b
      /\ text_prompt (toString_utf8 b)
         = js "Extract all information from this resume text and format it as JSON with the following structure:"
           ++ nl ++ nl ++ js "Resume content:" ++ nl ++ map Byte.to_N b ++ nl ++ nl).
Proof.
  unfold toString_utf8. split.
  - pose proof (decode_length None (map Byte.to_N b)) as H.
    rewrite length_map in H. lia.
  - intros Hascii.
    assert (H : decode None (map Byte.to_N b) = map Byte.to_N b).
    { apply decode_ascii. unfold ascii_only in Hascii.
      rewrite forallb_forall in *. intros x Hx.
      apply in_map_iff in Hx. destruct Hx as (y & <- & Hy). apply Hascii. exact Hy. }
    split; [exact H|]. unfold text_prompt, toString_utf8. rewrite H. reflexivity.
Qed.

(* ================================================================== *)
(** * The inline payload: base64 *)
(* ================================================================== *)

Lemma by_three (P : list N -> Prop) :
  P [] -> (forall a, P [a]) -> (forall a b, P [a; b]) ->
  (forall a b c rest, P rest -> P (a :: b :: c :: rest)) ->
  forall l, P l.
Proof.
  intros H0 H1 H2 H3. fix IH 1.
  intros [|a [|b [|c rest]]]; [exact H0|apply H1|apply H2|].
  apply H3. apply IH.
Qed.

Lemma base64_digit_char n : n < 64 -> base64_char (base64_digit n) = true.
Proof.
  intros Hn. unfold base64_digit, base64_char.
  destruct (N.ltb_spec n 26);
    [replace ((65 <=? 65 + n) && (65 + n <=? 90)) with true; [reflexivity|];
     symmetry; apply andb_true_intro; split; apply N.leb_le; lia|].
  destruct (N.ltb_spec n 52);
    [replace ((97 <=? 97 + (n - 26)) && (97 + (n - 26) <=? 122)) with true;
     [apply orb_true_iff; left; apply orb_true_iff; left; apply orb_true_iff; left;
      apply orb_true_iff; left; apply orb_true_r|];
     symmetry; apply andb_true_intro; split; apply N.leb_le; lia|].
  destruct (N.ltb_spec n 62);
    [replace ((48 <=? 48 + (n - 52)) && (48 + (n - 52) <=? 57)) with true;
     [apply orb_true_iff; left; apply orb_true_iff; left; apply orb_true_iff; left;
      apply orb_true_r|];
     symmetry; apply andb_true_intro; split; apply N.leb_le; lia|].
  destruct (n =? 62); reflexivity.
Qed.

Lemma base64_digit_not_padding n : base64_digit n <> 61.
Proof.
  unfold base64_digit.
  destruct (N.ltb_spec n 26); [lia|].
  destruct (N.ltb_spec n 52); [lia|].
  destruct (N.ltb_spec n 62); [lia|].
  destruct (n =? 62); discriminate.
Qed.

Lemma base64_digit_inj n m :
  n < 64 -> m < 64 -> base64_digit n = base64_digit m -> n = m.
Proof.
  intros Hn Hm. unfold base64_digit.
  destruct (N.ltb_spec n 26); destruct (N.ltb_spec m 26); try lia;
    destruct (N.ltb_spec n 52); destruct (N.ltb_spec m 52); try lia;
    destruct (N.ltb_spec n 62); destruct (N.ltb_spec m 62); try lia;
    destruct (N.eqb_spec n 62); destruct (N.eqb_spec m 62); try lia;
    try discriminate.
Qed.

(** The quotients and remainders of a byte, for the arithmetic. *)
Ltac name_part t :=
  let q := fresh "part" in set (q := t) in *; clearbody q.

Ltac split_byte x :=
  pose proof (N.div_mod x 4 ltac:(lia));
  pose proof (N.mod_lt x 4 ltac:(lia));
  pose proof (N.div_mod x 16 ltac:(lia));
  pose proof (N.mod_lt x 16 ltac:(lia));
  pose proof (N.div_mod x 64 ltac:(lia));
  pose proof (N.mod_lt x 64 ltac:(lia));
  name_part (x / 4); name_part (x mod 4); name_part (x / 16);
  name_part (x mod 16); name_part (x / 64); name_part (x mod 64).

Lemma base64_inj l l' :
  Forall (fun x => x < 256) l -> Forall (fun x => x < 256) l' ->
  base64 l = base64 l' -> l = l'.
Proof.
  revert l'. induction l as [|a|a b|a b c rest IH] using by_three;
    intros [|a' [|b' [|c' rest']]] Hl Hl' H; cbn [base64] in H;
    try reflexivity; try discriminate H;
    try (injection H; intros; exfalso;
         match goal with
         | E : base64_digit _ = 61 |- _ => exact (base64_digit_not_padding _ E)
         | E : 61 = base64_digit _ |- _ => exact (base64_digit_not_padding _ (eq_sym E))
         end).
  - injection H as H1 H2.
    inversion Hl as [|? ? Ha _]; inversion Hl' as [|? ? Ha' _]; subst.
    split_byte a; split_byte a'.
    apply base64_digit_inj in H1; [|lia|lia].
    apply base64_digit_inj in H2; [|lia|lia].
    f_equal. lia.
  - injection H as H1 H2 H3.
    inversion Hl as [|? ? Ha Hl1]; inversion Hl1 as [|? ? Hb _];
      inversion Hl' as [|? ? Ha' Hl1']; inversion Hl1' as [|? ? Hb' _]; subst.
    split_byte a; split_byte a'; split_byte b; split_byte b'.
    apply base64_digit_inj in H1; [|lia|lia].
    apply base64_digit_inj in H2; [|lia|lia].
    apply base64_digit_inj in H3; [|lia|lia].
    assert (a = a') by lia. assert (b = b') by lia. congruence.
  - injection H as H1 H2 H3 H4 H5.
    inversion Hl as [|? ? Ha Hl1]; inversion Hl1 as [|? ? Hb Hl2];
      inversion Hl2 as [|? ? Hc Hl3];
      inversion Hl' as [|? ? Ha' Hl1']; inversion Hl1' as [|? ? Hb' Hl2'];
      inversion Hl2' as [|? ? Hc' Hl3']; subst.
    rewrite (IH rest' Hl3 Hl3' H5).
    split_byte a; split_byte a'; split_byte b; split_byte b'; split_byte c; split_byte c'.
    apply base64_digit_inj in H1; [|lia|lia].
    apply base64_digit_inj in H2; [|lia|lia].
    apply base64_digit_inj in H3; [|lia|lia].
    apply base64_digit_inj in H4; [|lia|lia].
    assert (a = a') by lia. assert (b = b') by lia. assert (c = c') by lia. congruence.
Qed.

Lemma base64_chars l :
  Forall (fun x => x < 256) l -> forallb base64_char (base64 l) = true.
Proof.
  induction l as [|a|a b|a b c rest IH] using by_three; intros Hl; cbn [base64 forallb].
  - reflexivity.
  - inversion Hl as [|? ? Ha _]; subst. split_byte a.
    rewrite !base64_digit_char by lia. reflexivity.
  - inversion Hl as [|? ? Ha Hl1]; inversion Hl1 as [|? ? Hb _]; subst.
    split_byte a; split_byte b.
    rewrite !base64_digit_char by lia. reflexivity.
  - inversion Hl as [|? ? Ha Hl1]; inversion Hl1 as [|? ? Hb Hl2];
      inversion Hl2 as [|? ? Hc Hl3]; subst.
    split_byte a; split_byte b; split_byte c.
    rewrite !base64_digit_char by lia. rewrite (IH Hl3). reflexivity.
Qed.

Lemma base64_length l : List.length (base64 l) = (4 * ((List.length l + 2) / 3))%nat.
Proof.
  induction l as [|a|a b|a b c rest IH] using by_three; try reflexivity.
  cbn [base64 List.length]. rewrite IH.
  replace (S (S (S (List.length rest))) + 2)%nat
    with (1 * 3 + (List.length rest + 2))%nat by lia.
  rewrite Nat.div_add_l by lia. lia.
Qed.

Lemma bytes_are_bytes (b : buffer) : Forall (fun x => x < 256) (map Byte.to_N b).
Proof.
  apply Forall_forall. intros x Hx. apply in_map_iff in Hx.
  destruct Hx as (y & <- & _). pose proof (Byte.to_N_bounded y). lia.
Qed.

Lemma to_N_inj (b b' : buffer) : map Byte.to_N b = map Byte.to_N b' -> b = b'.
Proof.
  revert b'. induction b as [|x b IH]; intros [|y b'] H; cbn [map] in H;
    try reflexivity; try discriminate H.
  injection H as Hxy Hrest. f_equal; [|apply IH; exact Hrest].
  pose proof (Byte.of_to_N x) as Hx. pose proof (Byte.of_to_N y) as Hy.
  rewrite Hxy in Hx. congruence.
Qed.

(** X23.  The inline payload of an image or a PDF is a faithful encoding of
    the file: two files with the same payload have the same bytes.  It has
    four characters for every three bytes, the last group being padded, and
    only characters of the base64 alphabet. *)
Theorem payload_determines_the_bytes (b b' : buffer) :
  (toString_base64 b = toString_base64 b' -> b = b')
  /\ List.length (toString_base64 b) = (4 * ((List.length b + 2) / 3))%nat
  /\ forallb base64_char (toString_base64 b) = true.
Proof.
  unfold toString_base64. split; [|split].
  - intros H. apply to_N_inj. apply base64_inj; [apply bytes_are_bytes..|exact H].
  - rewrite base64_length, length_map. reflexivity.
  - apply base64_chars. apply bytes_are_bytes.
Qed.

(* ================================================================== *)
(** * The check after the retry loop *)
(* ================================================================== *)

(** X24.  The check after the retry loop, which throws "Failed to get AI
    response after all retry attempts", never fires: the loop is left by
    [break] or by [throw] only.  Whenever the model call fails, what is
    thrown is what one of the at most four invocations threw, or what
    reading the text of its response threw. *)
Theorem model_call_failure_is_the_models w prompt fileData l e l' :
  call_model w prompt fileData l = (Throw e, l') ->
  exists n,
    (n < S maxRetries)%nat
    /\ l' = mkLocals (fileName l) (trace l ++ schedule prompt fileData 0 (S n))
    /\ (generateContent w n prompt fileData = Throws e
        \/ generateContent w n prompt fileData = Ok (Throws e)).
Proof.
  intros H.
  destruct (call_model_schedule w prompt fileData l) as (c & n & Hn & Heq & _ & Hlast).
  rewrite Heq in H. inversion H; subst c l'. clear H.
  exists (n - 1)%nat. split; [lia|].
  replace (S (n - 1)) with n by lia. split; [reflexivity|].
  destruct Hlast as [(text & _ & Hc)|(e' & Hc & [Hgen|[Hgen _]])];
    [discriminate Hc|inversion Hc; subst e'; auto..].
Qed.

Lemma model_call_failure_is_the_models_witness :
  exists n,
    (n < S maxRetries)%nat
    /\ mkLocals (js "cv.txt") [CallGenerateContent 0 (js "prompt") None]
       = mkLocals (fileName (mkLocals (js "cv.txt") []))
           (trace (mkLocals (js "cv.txt") []) ++ schedule (js "prompt") None 0 (S n))
    /\ (generateContent (failing_first 1 bad_request_error (js "{}")) n (js "prompt") None
        = Throws bad_request_error
        \/ generateContent (failing_first 1 bad_request_error (js "{}")) n (js "prompt") None
           = Ok (Throws bad_request_error)).
Proof.
  apply (model_call_failure_is_the_models (failing_first 1 bad_request_error (js "{}"))
           (js "prompt") None (mkLocals (js "cv.txt") []) bad_request_error
           (mkLocals (js "cv.txt") [CallGenerateContent 0 (js "prompt") None])).
  by_computation.
Defined.
